(* ===== verification/_CoqProject ===== *)
-Q . S2P
Prelude.v
JsString.v
Json.v
Storage.v
ChatContext.v
StoreSpec.v
ChatInput.v
Chat.v
SendOps.v
Theme.v
Settings.v
Style.v
System.v
Tree.v
