(* ===== verification/Prelude.v ===== *)
(** * A verification development for the ai-chat browser client

    The program (src/src/) is a React client that forwards user text to a
    hosted completion API, streams the answer into the last bot message and
    keeps one conversation per session id in the browser's localStorage.

    ** Parts of the program and how they interact

    - [context/ChatContext.tsx]: the conversation store, a reducer
      [chatReducer] over [ChatState] (session id, messages, loading, error)
      with six actions.  Three of them write through to localStorage under
      the key [chat-messages-<sessionId>] (JSON text); [SET_SESSION_ID]
      reads that key back with [JSON.parse].
    - [pages/Chat.tsx]: the page and its controller [sendMessage]: it
      dispatches the user message, answers [/help] locally, otherwise
      dispatches a loading flag and an empty bot placeholder, streams
      completion chunks and dispatches the accumulated text after every
      chunk, records an error when the request or the stream fails and
      always clears the loading flag.  It is a [useCallback] with no
      dependencies, so its [state.loading] guard reads the first render's
      state.  An effect dispatches [SET_SESSION_ID] for the route's id.
    - [components/ChatInput.tsx]: the input box, which calls [sendMessage]
      on Enter or on its button, both blocked while the [loading] prop is
      true.
    - [context/ThemeContext.tsx]: the theme flag, persisted under the key
      [theme] of the same localStorage.
    - [components/SettingsModal.tsx], [components/Header.tsx], [App.tsx]:
      the settings dialog (which dispatches [CLEAR_MESSAGES]), the button
      that opens it and the query test that shows it.
    - [main.tsx]: the providers (theme, chat store, router) above [App];
      the components read them through [useContext], [useChat] (which
      throws outside its provider) and the router hooks.
    - [components/ThemeToggleButton.tsx] and the tests under [test/]:
      a theme button that only its test mounts, and the tests of it and
      of the header.  [vite.config.ts] configures the build and the tests.

    ** Files (in dependency order) and what they model

    - [Prelude.v]: the [result] type of fallible code with its [let?]
      notation in [chat_scope], string lemmas, the [chat] hint database and
      the shared tactics.
    - [JsString.v], Module [JsString]: [String.prototype.trim] on strings
      held as UTF-8 bytes (Section [Strip] proves the trimming loop for any
      set of non-empty sequences: no whitespace left at either end,
      idempotence) and string truthiness.
    - [Json.v], Module [Json]: [JSON.stringify] and [JSON.parse] on the
      values the program stores, with the round trip [json_roundtrip].
    - [Storage.v], Module [Storage]: localStorage as a stdpp
      [gmap string string]; the spec's persistence contract as the classes
      [PersistenceAdapter] and [PersistenceLaws].
    - [ChatContext.v], Module [ChatContext]: [Message], [ChatState],
      [ChatAction], one definition per reducer case ([setSessionId],
      [addMessage], [updateLastBotMessage], [setLoading], [setError],
      [clearMessages]), [chatReducer] taking and returning the store, and
      [run_actions] for dispatch sequences.  The instance
      [localStorage_laws] discharges the persistence contract.
    - [StoreSpec.v], Module [StoreSpec]: the spec's action table of the
      store (section 4.2) as an abstract machine [spec_step] over an
      abstract persistence map, the relation [refines] to the concrete
      state and store, and the reference definition [replace_last_bot].
    - [ChatInput.v], Module [ChatInput]: the input box as a function of
      events (each with its [loading] prop) to the strings sent.
    - [Chat.v], Module [Chat]: [sendMessage] as the list of its segments
      (the actions dispatched between two [await]s), the completion API as
      an input ([Completion]), [interleave_after] for events that run
      between segments, the effects and the rendered rows.
    - [SendOps.v], Module [SendOps]: [sendMessage] once more, statement by
      statement ([sendMessage_ops]): the dispatches (the same as
      [Chat.sendMessage], [sendMessage_ops_dispatched]), the writes of the
      ref [isTyping], the explicit [scrollToBottom()], the request to the
      API ([completion_request], with the client [groq]) and every
      [await].  A [Page] runs them ([run_call]) with React's renders
      between awaits chosen by the parameter [commits] of a Section, and
      the effect on [state.messages] after each render that replaced the
      array ([replaces_messages], [commit]).
    - [Theme.v], Module [Theme]: the theme flag, its load and persist
      effects and [toggleTheme], over the same store, and the mount as
      StrictMode runs it in development ([mount_strict]).
    - [Settings.v], Module [Settings]: the dialog's handlers, the query
      string and [openSettings]/[closeModal].
    - [Style.v], Module [Style]: the styled components' CSS as functions
      of the theme flag and the sender, and the MUI palette.
    - [System.v], Module [System]: the whole client ([main.tsx], [App.tsx])
      as one state [Sys] and a step [sys_step] per browser event: routing
      with the redirect of [/], the mounted chat page and the state its
      callback captured, the input box, the dialog, the theme switch, and
      the pending sends as their remaining segments, which resume as
      separate events and so interleave with everything else.
    - [Tree.v], Module [Tree]: the component tree of [main.tsx] and
      [App.tsx] as providers ([Provider], [Element]) over components
      ([Component]) with the hooks each calls in source order; a render
      ([render_el], [render_comp]) is the list of mounted components or the
      first error thrown.  It also holds the views of the header, the theme
      button and the settings dialog, the trees and assertions of the tests,
      the build configuration, and the route invariant of [System].

    ** What the theorems show

    - Store (C1-C10, C24): the write-through invariant over every
      reachable state ([reachable], by rule induction), the behaviour of
      each action on every branch, no-ops without a truthy session,
      session isolation, reload, ordering, idempotence under StrictMode's
      double call, and the refinement of the spec's table by the reducer
      over any dispatch sequence (a simulation through the adapter's laws).
      Lemmas without a claim id give the equivalence of the index-based
      update with [replace_last_bot] and the exact bound on timestamps for
      the round trip through storage.
    - Controller (C11-C17, C23): the final state and stored history of a
      send whose stream completes or fails, the [finally] reset of loading
      for every API behaviour, the prefix property of the streaming fold,
      the local [/help] path, blank input, and behaviours the spec does
      not describe: a session switch mid-stream sends the answer into the
      new session (C17), and an empty answer stays a typing indicator
      (C23).
    - Input box (C19-C20), theme (C21, C34), settings (C22): sends are
      blocked while loading and are never blank; the theme survives
      reloads in production, while under StrictMode in development every
      reload comes back light ([mount_strict], C34); the dialog reports
      success exactly when the reducer clears.  Style.v also proves that
      text is readable in both themes ([text_readable_in_both_themes]).
    - Scrolling and requests (C29, C35): for every schedule of React's
      renders, a streamed answer is scrolled to once, by the explicit call
      while it is still empty, and at most once more at the very end; a
      send asks the API once, with the input alone and no retry.
    - Whole client (C18, C25-C28, C30, C31, C33): by rule induction over
      [rtc sys_rel], at most one answer streams and loading is true
      exactly while one does; localStorage mirrors the store and the
      theme; navigation never throws on the histories the client writes.
      The captured state of [sendMessage] is derived from the steps: after
      Enter the page's capture still says not loading while the live state
      does, so only the input box stops a second send (C18); a page mounted
      while an answer streams captures loading true and drops every later
      send (C28); only the stream's own resumptions clear loading, so there
      is no client deadline (C33).  Composed end to end (C30): a send from
      the Enter key through every resumption appends the user message and
      the answer, clears the field and loading and stores the history.  A
      stored history that [JSON.parse] rejects makes the visit of its page
      throw (C31).
    - Component tree (C32): [useChat] throws its message outside a
      [ChatProvider]; the lemma [app_renders_without_throwing] shows that
      every reachable state renders the whole tree without a hook throwing.

    ** Bounds and fuel

    Timestamps are [Z] and JSON numbers are integers of absolute value at
    most [2^53 - 1] ([max_safe_integer]), a bound of the model's number
    representation: [Date.now()] stays far below it, and the model's
    [JSON.parse] stops with [Err Unsupported] on larger integers and on
    fractions, which JavaScript would read as doubles.  [json_parse] runs
    its recursive descent with fuel one more than the input's length,
    which [jneed_le] shows is enough for every output of [stringify].
    [N_to_string] uses as fuel one more than the number's bit size, an
    upper bound on its decimal digits.  The trimming loop has the string's
    length as fuel; every step removes at least one byte.  A component's
    render has fuel [tree_depth] = 3, the depth of App > Chat > ChatInput,
    enough for every reachable state ([app_renders_without_throwing]).  The
    renders of a send are not a bound but a parameter: [commits k] says
    whether React has rendered by the [k]-th await, and C29 holds for every
    such schedule.  A completion stream is a finite list of chunks; a
    stream that never ends is a pending send that is never resumed, and
    C33 shows that nothing else releases it.

    ** Not modelled

    What is left of the sources is either library behaviour or carries
    no behaviour.  The network side of groq-sdk is an input of the
    model ([Completion]); only the client's construction and the request
    are modelled.  React's scheduler is a parameter: the order of events
    and segments, and which awaits a render falls between.  StrictMode's
    double calls are modelled for the reducer (C10) and the theme's
    mount effects ([mount_strict]); [System] runs the other effects once,
    as a production build does.  [read_messages] stops with
    [NotMessageList] or [Unsupported] where the source would put an
    unchecked parsed value into state; only [SyntaxError] is a throw of
    [JSON.parse].  Components throw only when [useChat] or a router hook
    has no provider.  Markdown rendering (react-markdown, remark-gfm) and
    the time label ([toLocaleString], which depends on the browser's locale
    and time zone) are library output.  The browser's layout and scrolling
    are reduced to the [scrollToBottom] call, and CSS animations are only
    their rules.  Percent-decoding of the route parameter belongs to the
    router library.  The lazy-loading fallback shows only while the
    dialog's code downloads.  The vitest mocks replace functions whose
    calls are not observed here, and the bundler is the tool's.  Imports
    and type declarations carry no behaviour.  Strings are UTF-8 bytes
    rather than UTF-16 code units; the operations used (trim, equality,
    concatenation) agree on both representations, and lone surrogates,
    which UTF-8 cannot hold, are outside the model. *)

From Stdlib Require Import ZArith String Ascii List Lia.
From stdpp Require Import base list strings gmap.

Declare Scope chat_scope.
Create HintDb chat.
Create Rewrite HintDb chat.
Delimit Scope chat_scope with chat.

(** ** Results of fallible code *)

(** [Ok a] is a normal return, [Err e] an exception or a failure. *)
Inductive result (E A : Type) : Type :=
| Ok (a : A)
| Err (e : E).
Arguments Ok {E A} a.
Arguments Err {E A} e.

Definition res_bind {E A B} (r : result E A) (k : A -> result E B) : result E B :=
  match r with
  | Ok a => k a
  | Err e => Err e
  end.

Definition res_map {E A B} (f : A -> B) (r : result E A) : result E B :=
  match r with
  | Ok a => Ok (f a)
  | Err e => Err e
  end.

Notation "'let?' x ':=' c 'in' k" := (res_bind c (fun x => k))
  (at level 10, x pattern, c at level 100, k at level 200) : chat_scope.

Lemma res_bind_Ok {E A B} (a : A) (k : A -> result E B) :
  res_bind (Ok a) k = k a.
Proof. reflexivity. Qed.

Lemma res_bind_Err {E A B} (e : E) (k : A -> result E B) :
  res_bind (Err e) k = Err e.
Proof. reflexivity. Qed.

Lemma res_bind_Ok_inv {E A B} (r : result E A) (k : A -> result E B) b :
  res_bind r k = Ok b -> exists a, r = Ok a /\ k a = Ok b.
Proof. destruct r; simpl; [eauto | discriminate]. Qed.

#[export] Hint Rewrite @res_bind_Ok @res_bind_Err : chat.

(** ** Strings

    stdpp writes [String.append] as [+:+] and blocks its [simpl]; the
    lemmas below are the equations the development rewrites with. *)

Lemma string_app_cons (a : ascii) (s1 s2 : string) :
  String a s1 +:+ s2 = String a (s1 +:+ s2).
Proof. reflexivity. Qed.

Lemma string_app_nil_l (s : string) : "" +:+ s = s.
Proof. reflexivity. Qed.

Lemma string_app_assoc (s1 s2 s3 : string) :
  s1 +:+ (s2 +:+ s3) = (s1 +:+ s2) +:+ s3.
Proof. induction s1 as [|a s1 IH]; [done | by rewrite !string_app_cons, IH]. Qed.

Lemma string_app_nil_r (s : string) : s +:+ "" = s.
Proof. induction s as [|a s IH]; [done | by rewrite string_app_cons, IH]. Qed.

Lemma string_length_app (s1 s2 : string) :
  String.length (s1 +:+ s2) = String.length s1 + String.length s2.
Proof. induction s1 as [|a s1 IH]; [done | rewrite string_app_cons; simpl; lia]. Qed.

#[export] Hint Rewrite string_app_cons string_app_nil_l string_app_nil_r
  string_length_app : chat.
#[export] Hint Rewrite <- string_app_assoc : chat.

(** ** Tactics *)

(** Split the [res_bind]s of a hypothesis [res_bind r k = Ok b]. *)
Ltac res_inv :=
  repeat match goal with
  | H : res_bind ?r _ = Ok _ |- _ =>
      let a := fresh "a" in let Ha := fresh "Ha" in
      apply res_bind_Ok_inv in H as (a & Ha & H)
  end.

(** Rewrite with the development's equations and close. *)
Ltac chat_simpl := autorewrite with chat in *; simpl in *.
