(* ===== verification/JsString.v ===== *)
(** * JavaScript string operations used by the client

    The code calls [String.prototype.trim] (src/src/pages/Chat.tsx lines
    157 and 163, src/src/components/ChatInput.tsx line 13) and tests strings
    for truthiness.  A JavaScript string is a sequence of UTF-16 code units;
    here it is a Rocq [string] holding the UTF-8 encoding of the same text,
    so that every character of the program (the emoji of the help text
    included) has a representation.  [trim] removes the ECMAScript
    WhiteSpace and LineTerminator code points (ECMA-262, sections 12.2 and
    12.3) from both ends; they are matched as their UTF-8 byte sequences,
    which is exact on well-formed UTF-8 because UTF-8 is a prefix code and
    a lead byte never occurs inside another character.

    Section [Strip] proves the trimming loop correct for any list of
    non-empty byte sequences; [trimStart], [trimEnd] and [trim] instantiate
    it with the JavaScript whitespace set and its reversal. *)

From Stdlib Require Import String Ascii List Lia.
From stdpp Require Import base list strings.
From S2P Require Import Prelude.

Module JsString.

(** UTF-8 byte sequences written by their byte values. *)
Definition bytes (l : list nat) : list ascii := map ascii_of_nat l.

(** WhiteSpace (TAB, VT, FF, SP, NBSP, ZWNBSP and the Zs category) and
    LineTerminator (LF, CR, LS, PS) of ECMA-262, UTF-8 encoded. *)
Definition js_whitespace : list (list ascii) :=
  map bytes
    ([[9]; [10]; [11]; [12]; [13]; [32];
      [194; 160];                 (* U+00A0 *)
      [225; 154; 128]] ++         (* U+1680 *)
     map (fun b => [226; 128; b]) (seq 128 11) ++  (* U+2000 .. U+200A *)
     [[226; 128; 168];            (* U+2028 *)
      [226; 128; 169];            (* U+2029 *)
      [226; 128; 175];            (* U+202F *)
      [226; 129; 159];            (* U+205F *)
      [227; 128; 128];            (* U+3000 *)
      [239; 187; 191]]).          (* U+FEFF *)

(** [strip_prefix w s] is [Some r] when [s = w ++ r]. *)
Fixpoint strip_prefix (w s : list ascii) : option (list ascii) :=
  match w, s with
  | [], _ => Some s
  | a :: w', b :: s' => if ascii_dec a b then strip_prefix w' s' else None
  | _ :: _, [] => None
  end.

Section Strip.
(** The set of sequences to strip; none of them is empty. *)
Variable ws : list (list ascii).
Hypothesis ws_nonempty : Forall (fun w => w <> []) ws.

(** One character of [ws] at the front of [s], removed. *)
Fixpoint ws_step_in (l : list (list ascii)) (s : list ascii) : option (list ascii) :=
  match l with
  | [] => None
  | w :: l' =>
      match strip_prefix w s with
      | Some r => Some r
      | None => ws_step_in l' s
      end
  end.

Definition ws_step (s : list ascii) : option (list ascii) := ws_step_in ws s.

(** The loop of [TrimString]: strip while a character of [ws] leads. *)
Fixpoint strip_fuel (n : nat) (s : list ascii) : list ascii :=
  match n with
  | 0 => s
  | S n' =>
      match ws_step s with
      | Some r => strip_fuel n' r
      | None => s
      end
  end.

Definition strip (s : list ascii) : list ascii := strip_fuel (length s) s.

(** Strings made of characters of [ws] only. *)
Inductive ws_string : list ascii -> Prop :=
| ws_nil : ws_string []
| ws_cons w p : In w ws -> ws_string p -> ws_string (w ++ p).

Lemma strip_prefix_Some w s r : strip_prefix w s = Some r -> s = w ++ r.
Proof.
  revert s; induction w as [|a w IH]; intros [|b s] H; simpl in *;
    try congruence.
  destruct (ascii_dec a b); [subst; f_equal; auto | discriminate].
Qed.

Lemma strip_prefix_app w p q r :
  strip_prefix w p = Some r -> strip_prefix w (p ++ q) = Some (r ++ q).
Proof.
  revert p; induction w as [|a w IH]; intros p H; [by injection H as <-|].
  destruct p as [|b p]; simpl in *; [discriminate|].
  destruct (ascii_dec a b); [auto | discriminate].
Qed.

Lemma ws_step_in_Some l s r :
  ws_step_in l s = Some r -> exists w, In w l /\ s = w ++ r.
Proof.
  induction l as [|w l IH]; simpl; [discriminate|].
  destruct (strip_prefix w s) eqn:E; intros H.
  - injection H as ->. exists w. eauto using strip_prefix_Some.
  - destruct (IH H) as (w' & ? & ?). eauto.
Qed.

Lemma ws_step_in_app l p q r :
  ws_step_in l p = Some r -> exists r', ws_step_in l (p ++ q) = Some r'.
Proof.
  induction l as [|w l IH]; simpl; [discriminate|].
  destruct (strip_prefix w p) eqn:E; intros H.
  - rewrite (strip_prefix_app _ _ q _ E). eauto.
  - destruct (strip_prefix w (p ++ q)); eauto.
Qed.

Lemma ws_step_Some s r :
  ws_step s = Some r -> exists w, In w ws /\ w <> [] /\ s = w ++ r.
Proof.
  intros H. destruct (ws_step_in_Some _ _ _ H) as (w & Hin & ->).
  exists w. split_and!; [done | | done].
  exact (proj1 (List.Forall_forall _ _) ws_nonempty w Hin).
Qed.

Lemma ws_step_shorter s r : ws_step s = Some r -> length r < length s.
Proof.
  intros (w & _ & Hw & ->)%ws_step_Some.
  rewrite length_app. destruct w; [done | simpl; lia].
Qed.

(** A prefix of a string with no leading [ws] character has none either
    ... read contrapositively: leading characters survive extension. *)
Lemma ws_step_None_prefix p q : ws_step (p ++ q) = None -> ws_step p = None.
Proof.
  intros H. destruct (ws_step p) eqn:E; [|done].
  destruct (ws_step_in_app _ _ q _ E) as [r' Hr']. unfold ws_step in H. congruence.
Qed.

Lemma ws_step_nil : ws_step [] = None.
Proof.
  unfold ws_step. generalize ws_nonempty. clear.
  induction ws as [|[|a w] l IH]; intros Hl; [done | by inversion Hl |].
  inversion Hl; subst. simpl. auto.
Qed.

(** Enough fuel: the loop stops only at a string with no leading [ws]
    character. *)
Lemma strip_fuel_done n s : length s <= n -> ws_step (strip_fuel n s) = None.
Proof.
  revert s; induction n as [|n IH]; intros s Hlen; simpl.
  - destruct s; [apply ws_step_nil | simpl in Hlen; lia].
  - destruct (ws_step s) eqn:E; [|exact E].
    apply IH. apply ws_step_shorter in E. lia.
Qed.

Lemma strip_fuel_split n s : exists p, ws_string p /\ s = p ++ strip_fuel n s.
Proof.
  revert s; induction n as [|n IH]; intros s; simpl.
  - exists []. split; [constructor | done].
  - destruct (ws_step s) as [r|] eqn:E; [|exists []; split; [constructor | done]].
    destruct (ws_step_in_Some _ _ _ E) as (w & Hw & ->).
    destruct (IH r) as (p & Hp & Hr). exists (w ++ p). split.
    + by constructor.
    + rewrite <- app_assoc. by f_equal.
Qed.

Lemma strip_done s : ws_step (strip s) = None.
Proof. by apply strip_fuel_done. Qed.

Lemma strip_split s : exists p, ws_string p /\ s = p ++ strip s.
Proof. apply strip_fuel_split. Qed.

Lemma strip_id s : ws_step s = None -> strip s = s.
Proof. unfold strip. destruct (length s); simpl; [done|]. by intros ->. Qed.

(** Any fuel at least the length gives the same result: the loop stops
    before the fuel runs out. *)
Lemma strip_fuel_enough n m s : length s <= n -> length s <= m -> strip_fuel n s = strip_fuel m s.
Proof.
  revert s m. induction n as [|n IH]; intros s m Hn Hm.
  - destruct s; [|simpl in Hn; lia]. destruct m; simpl; [done|]. by rewrite ws_step_nil.
  - destruct m as [|m].
    + destruct s; [|simpl in Hm; lia]. simpl. by rewrite ws_step_nil.
    + simpl. destruct (ws_step s) as [r|] eqn:E; [|done].
      apply ws_step_shorter in E. apply IH; lia.
Qed.
End Strip.

Definition trimStart_bytes (s : list ascii) : list ascii := strip js_whitespace s.

(** The whitespace sequences read backwards, for the end of a string. *)
Definition js_whitespace_rev : list (list ascii) := map (@rev ascii) js_whitespace.

Definition trimEnd_bytes (s : list ascii) : list ascii :=
  rev (strip js_whitespace_rev (rev s)).

(** [String.prototype.trim]: both ends. *)
Definition trim_bytes (s : list ascii) : list ascii := trimEnd_bytes (trimStart_bytes s).

Definition trim (s : string) : string :=
  string_of_list_ascii (trim_bytes (list_ascii_of_string s)).

(** ** Trim: the result has no whitespace at either end and differs from
    the input by whitespace only. *)

Lemma js_whitespace_nonempty : Forall (fun w => w <> []) js_whitespace.
Proof. unfold js_whitespace; simpl. repeat constructor; discriminate. Qed.

Lemma js_whitespace_rev_nonempty : Forall (fun w => w <> []) js_whitespace_rev.
Proof.
  apply Forall_map. eapply Forall_impl; [apply js_whitespace_nonempty|].
  intros w Hw Hr. apply Hw, length_zero_iff_nil. by rewrite <- length_rev, Hr.
Qed.

Lemma trimEnd_split t :
  exists q, ws_string js_whitespace_rev (rev q) /\ t = trimEnd_bytes t ++ q.
Proof.
  destruct (strip_split js_whitespace_rev (rev t)) as (p & Hp & Ht).
  exists (rev p). rewrite rev_involutive. split; [done|].
  unfold trimEnd_bytes. rewrite <- rev_app_distr, <- Ht. by rewrite rev_involutive.
Qed.

Lemma trim_bytes_no_leading s : ws_step js_whitespace (trim_bytes s) = None.
Proof.
  unfold trim_bytes. destruct (trimEnd_split (trimStart_bytes s)) as (q & _ & Hq).
  apply (ws_step_None_prefix _ _ q). rewrite <- Hq.
  apply strip_done, js_whitespace_nonempty.
Qed.

Lemma trim_bytes_no_trailing s : ws_step js_whitespace_rev (rev (trim_bytes s)) = None.
Proof.
  unfold trim_bytes, trimEnd_bytes. rewrite rev_involutive.
  apply strip_done, js_whitespace_rev_nonempty.
Qed.

Lemma trim_bytes_split s :
  exists p q, ws_string js_whitespace p /\ ws_string js_whitespace_rev (rev q) /\
              s = p ++ trim_bytes s ++ q.
Proof.
  destruct (strip_split js_whitespace s) as (p & Hp & Hs).
  destruct (trimEnd_split (trimStart_bytes s)) as (q & Hq & Ht).
  exists p, q. split_and!; [done | done |].
  rewrite Hs at 1. unfold trim_bytes. by rewrite <- Ht.
Qed.

Lemma trim_bytes_idem s : trim_bytes (trim_bytes s) = trim_bytes s.
Proof.
  unfold trim_bytes at 1, trimStart_bytes.
  rewrite strip_id; [|apply trim_bytes_no_leading].
  unfold trimEnd_bytes at 1.
  rewrite strip_id; [|apply trim_bytes_no_trailing].
  apply rev_involutive.
Qed.

(** Termination of the trimming loop: [TrimString] removes one
    whitespace character per iteration, so any number of iterations at
    least the string's length gives the same result as [trimStart]. *)
Theorem trimStart_loop_terminates n s :
  length s <= n -> strip_fuel js_whitespace n s = trimStart_bytes s.
Proof.
  intros Hn. unfold trimStart_bytes, strip.
  apply strip_fuel_enough; [apply js_whitespace_nonempty | done | done].
Qed.

Lemma trim_idem s : trim (trim s) = trim s.
Proof. unfold trim. by rewrite list_ascii_of_string_of_list_ascii, trim_bytes_idem. Qed.

(** JavaScript truthiness of a string: only the empty string is falsy. *)
Definition truthy (s : string) : bool := negb (String.eqb s "").

Lemma trimStart_loop_terminates_witness :
  length (bytes [32; 9; 104; 105]) <= 10 /\
  strip_fuel js_whitespace 10 (bytes [32; 9; 104; 105]) = trimStart_bytes (bytes [32; 9; 104; 105]).
Proof. split; [simpl; lia | apply trimStart_loop_terminates; simpl; lia]. Defined.

End JsString.
