(* ===== verification/Json.v ===== *)
(** * JSON.stringify and JSON.parse

    The conversation store writes the message list with [JSON.stringify]
    and reads it back with [JSON.parse] (src/src/context/ChatContext.tsx
    lines 39, 47 and 59).  Both are JavaScript built-ins, modelled here from
    ECMA-262 (sections 25.5.1 and 25.5.2) on the values the program stores:
    [jvalue] has the six JSON types, with numbers restricted to integers
    (the program stores [Date.now()] timestamps); object members keep their
    order, as JavaScript property order does for string keys.

    - [stringify] follows SerializeJSONValue with no indentation and the
      escapes of QuoteJSONString (a backslash before b, t, n, f and r for
      the five named control characters, before the quote and before the
      backslash, and [\u00xx] for the other control characters).
    - [parse] follows the JSON grammar of ECMA-404.  It answers
      [Err SyntaxError] where [JSON.parse] throws a SyntaxError, and
      [Err Unsupported] on inputs whose JavaScript result this model does
      not represent: numbers with a fraction or an exponent, integers beyond
      [Number.MAX_SAFE_INTEGER] (JavaScript rounds them) and lone UTF-16
      surrogates in [\u] escapes.  [parse_value] recurses on a fuel
      argument; [json_parse] gives it one more unit than the input's length,
      and [Err OutOfFuel] never comes out of it on the strings [stringify]
      produces ([json_roundtrip]).

    The round trip [json_parse (stringify v) = Ok v] holds for every value
    whose numbers are safe integers ([json_roundtrip]). *)

From Stdlib Require Import ZArith NArith String Ascii List Lia.
From stdpp Require Import base list strings.
From S2P Require Import Prelude.

Module Json.

Inductive jvalue : Type :=
| JNull
| JBool (b : bool)
| JNumber (z : Z)
| JString (s : string)
| JArray (l : list jvalue)
| JObject (l : list (string * jvalue)).

(** Induction with hypotheses on the elements of arrays and objects. *)
Section jvalue_ind'.
Variable P : jvalue -> Prop.
Hypothesis HNull : P JNull.
Hypothesis HBool : forall b, P (JBool b).
Hypothesis HNumber : forall z, P (JNumber z).
Hypothesis HString : forall s, P (JString s).
Hypothesis HArray : forall l, Forall P l -> P (JArray l).
Hypothesis HObject : forall l, Forall (fun kv => P kv.2) l -> P (JObject l).

Fixpoint jvalue_ind' (v : jvalue) : P v :=
  match v with
  | JNull => HNull
  | JBool b => HBool b
  | JNumber z => HNumber z
  | JString s => HString s
  | JArray l =>
      HArray l ((fix go (l : list jvalue) : Forall P l :=
                   match l with
                   | [] => List.Forall_nil _
                   | x :: l' => @List.Forall_cons _ _ x l' (jvalue_ind' x) (go l')
                   end) l)
  | JObject l =>
      HObject l ((fix go (l : list (string * jvalue)) : Forall (fun kv => P kv.2) l :=
                    match l with
                    | [] => List.Forall_nil _
                    | kv :: l' => @List.Forall_cons _ _ kv l' (jvalue_ind' kv.2) (go l')
                    end) l)
  end.
End jvalue_ind'.

(** ** Characters *)

Definition chr (n : nat) : ascii := ascii_of_nat n.
Definition c_quote : ascii := chr 34.
Definition c_backslash : ascii := chr 92.

Definition hex_digit (n : N) : ascii :=
  if (n <? 10)%N then ascii_of_N (48 + n) else ascii_of_N (87 + n).

Definition hex_val (c : ascii) : option N :=
  let n := N_of_ascii c in
  if (48 <=? n)%N && (n <=? 57)%N then Some (n - 48)%N
  else if (97 <=? n)%N && (n <=? 102)%N then Some (n - 87)%N
  else if (65 <=? n)%N && (n <=? 70)%N then Some (n - 55)%N
  else None.

Definition is_digit (c : ascii) : bool :=
  let n := N_of_ascii c in (48 <=? n)%N && (n <=? 57)%N.

(** The JSON whitespace: space, tab, line feed, carriage return. *)
Definition is_json_ws (c : ascii) : bool :=
  let n := N_of_ascii c in (n =? 32)%N || (n =? 9)%N || (n =? 10)%N || (n =? 13)%N.

(** ** JSON.stringify *)

(** QuoteJSONString, one code unit. *)
Definition quote_char (c : ascii) : string :=
  let n := N_of_ascii c in
  if (n =? 8)%N then String c_backslash "b"
  else if (n =? 9)%N then String c_backslash "t"
  else if (n =? 10)%N then String c_backslash "n"
  else if (n =? 12)%N then String c_backslash "f"
  else if (n =? 13)%N then String c_backslash "r"
  else if (n =? 34)%N then String c_backslash (String c_quote "")
  else if (n =? 92)%N then String c_backslash (String c_backslash "")
  else if (n <? 32)%N then
    String c_backslash ("u00" +:+ String (hex_digit (n / 16)) (String (hex_digit (n mod 16)) ""))
  else String c "".

Fixpoint quote_body (s : string) : string :=
  match s with
  | EmptyString => ""
  | String c s' => quote_char c +:+ quote_body s'
  end.

Definition quote (s : string) : string := String c_quote (quote_body s +:+ String c_quote "").

(** Decimal digits of a natural number, most significant first, prepended
    to [acc]; the fuel bounds the number of digits. *)
Fixpoint N_digits (fuel : nat) (n : N) (acc : string) : string :=
  match fuel with
  | O => acc
  | S f =>
      let acc' := String (ascii_of_N (48 + n mod 10)) acc in
      if (n <? 10)%N then acc' else N_digits f (n / 10) acc'
  end.

Definition N_to_string (n : N) : string := N_digits (S (N.to_nat (N.size n))) n "".

(** Number::toString on an integer. *)
Definition Z_to_string (z : Z) : string :=
  match z with
  | Z0 => "0"
  | Zpos p => N_to_string (Npos p)
  | Zneg p => "-" +:+ N_to_string (Npos p)
  end.

Fixpoint join_comma (l : list string) : string :=
  match l with
  | [] => ""
  | [x] => x
  | x :: l' => x +:+ "," +:+ join_comma l'
  end.

Fixpoint stringify (v : jvalue) : string :=
  match v with
  | JNull => "null"
  | JBool true => "true"
  | JBool false => "false"
  | JNumber z => Z_to_string z
  | JString s => quote s
  | JArray l => "[" +:+ join_comma (map stringify l) +:+ "]"
  | JObject l =>
      "{" +:+ join_comma (map (fun kv => quote kv.1 +:+ ":" +:+ stringify kv.2) l) +:+ "}"
  end.

(** ** JSON.parse *)

Inductive json_error : Type :=
| SyntaxError
| Unsupported
| OutOfFuel.

Local Open Scope chat_scope.

Fixpoint skip_ws (s : string) : string :=
  match s with
  | String c s' => if is_json_ws c then skip_ws s' else s
  | EmptyString => EmptyString
  end.

(** UTF-8 encoding of a code point (the model's strings are UTF-8). *)
Definition utf8_encode (cp : N) : string :=
  let cont k := ascii_of_N (N.lor 128 (N.land (N.shiftr cp k) 63)) in
  if (cp <? 128)%N then String (ascii_of_N cp) ""
  else if (cp <? 2048)%N then
    String (ascii_of_N (N.lor 192 (N.shiftr cp 6))) (String (cont 0%N) "")
  else if (cp <? 65536)%N then
    String (ascii_of_N (N.lor 224 (N.shiftr cp 12)))
      (String (cont 6%N) (String (cont 0%N) ""))
  else
    String (ascii_of_N (N.lor 240 (N.shiftr cp 18)))
      (String (cont 12%N) (String (cont 6%N) (String (cont 0%N) ""))).

Definition hex4 (a b c d : ascii) : option N :=
  match hex_val a, hex_val b, hex_val c, hex_val d with
  | Some x, Some y, Some z, Some w => Some (x * 4096 + y * 256 + z * 16 + w)%N
  | _, _, _, _ => None
  end.

Definition is_high_surrogate (u : N) : bool := (55296 <=? u)%N && (u <=? 56319)%N.
Definition is_low_surrogate (u : N) : bool := (56320 <=? u)%N && (u <=? 57343)%N.

Definition prepend (p : string) (r : result json_error (string * string)) :
  result json_error (string * string) :=
  res_map (fun '(b, rest) => (p +:+ b, rest)) r.

(** The body of a string literal after its opening quote: the decoded
    text and what follows the closing quote. *)
Fixpoint parse_str (s : string) : result json_error (string * string) :=
  match s with
  | EmptyString => Err SyntaxError
  | String c s' =>
      if ascii_dec c c_quote then Ok ("", s')
      else if ascii_dec c c_backslash then
        match s' with
        | String "u" (String h1 (String h2 (String h3 (String h4 r)))) =>
            match hex4 h1 h2 h3 h4 with
            | None => Err SyntaxError
            | Some u =>
                if is_high_surrogate u then
                  match r with
                  | String "092" (String "u" (String l1 (String l2 (String l3 (String l4 r'))))) =>
                      match hex4 l1 l2 l3 l4 with
                      | Some lo =>
                          if is_low_surrogate lo then
                            prepend (utf8_encode (65536 + (u - 55296) * 1024 + (lo - 56320)))
                              (parse_str r')
                          else Err Unsupported
                      | None => Err SyntaxError
                      end
                  | _ => Err Unsupported
                  end
                else if is_low_surrogate u then Err Unsupported
                else prepend (utf8_encode u) (parse_str r)
            end
        | String e r =>
            let esc := fun d => prepend (String d "") (parse_str r) in
            match e with
            | "034"%char => esc c_quote
            | "092"%char => esc c_backslash
            | "/"%char => esc "/"%char
            | "b"%char => esc (chr 8)
            | "f"%char => esc (chr 12)
            | "n"%char => esc (chr 10)
            | "r"%char => esc (chr 13)
            | "t"%char => esc (chr 9)
            | _ => Err SyntaxError
            end
        | EmptyString => Err SyntaxError
        end
      else if (N_of_ascii c <? 32)%N then Err SyntaxError
      else prepend (String c "") (parse_str s')
  end.

(** The longest run of decimal digits, accumulated into [acc]. *)
Fixpoint read_digits (acc : N) (s : string) : N * string :=
  match s with
  | String c s' =>
      if is_digit c then read_digits (acc * 10 + (N_of_ascii c - 48))%N s' else (acc, s)
  | EmptyString => (acc, s)
  end.

Definition max_safe_integer : Z := (2 ^ 53 - 1)%Z.

(** [Some r] when [s] is the character [ch] followed by [r]. *)
Definition head_is (ch : ascii) (s : string) : option string :=
  match s with
  | String c r => if Ascii.eqb c ch then Some r else None
  | EmptyString => None
  end.

(** [Some r] when [s] is [lit] followed by [r]. *)
Fixpoint expect_lit (lit s : string) : option string :=
  match lit with
  | EmptyString => Some s
  | String a lit' => match head_is a s with Some r => expect_lit lit' r | None => None end
  end.

(** The integer part of a number: a single zero, or a non-zero digit and
    the digits after it. *)
Definition parse_unsigned (s : string) : result json_error (N * string) :=
  match s with
  | String c r =>
      if Ascii.eqb c "0" then Ok (0%N, r)
      else if is_digit c then Ok (read_digits 0 s) else Err SyntaxError
  | EmptyString => Err SyntaxError
  end.

Definition frac_or_exp (c : ascii) : bool :=
  Ascii.eqb c "." || Ascii.eqb c "e" || Ascii.eqb c "E".

(** A number: an optional minus and the integer part; a fraction or an
    exponent is not represented, nor is an integer JavaScript would round. *)
Definition parse_number (s : string) : result json_error (Z * string) :=
  let '(neg, s1) := match head_is "-" s with
                    | Some r => (true, r)
                    | None => (false, s)
                    end in
  let? (n, r) := parse_unsigned s1 in
  let z := if neg then (- Z.of_N n)%Z else Z.of_N n in
  let? _ := match r with
            | String c _ => if frac_or_exp c then Err Unsupported else Ok tt
            | EmptyString => Ok tt
            end in
  if (Z.abs z <=? max_safe_integer)%Z then Ok (z, r) else Err Unsupported.

Fixpoint parse_value (fuel : nat) (s : string) : result json_error (jvalue * string) :=
  match fuel with
  | O => Err OutOfFuel
  | S n =>
      match skip_ws s with
      | EmptyString => Err SyntaxError
      | String c r =>
          let lit l v := match expect_lit l r with
                         | Some r' => Ok (v, r')
                         | None => Err SyntaxError
                         end in
          if Ascii.eqb c "n" then lit "ull" JNull
          else if Ascii.eqb c "t" then lit "rue" (JBool true)
          else if Ascii.eqb c "f" then lit "alse" (JBool false)
          else if Ascii.eqb c c_quote then
            let? (str, r') := parse_str r in Ok (JString str, r')
          else if Ascii.eqb c "[" then
            match head_is "]" (skip_ws r) with
            | Some r' => Ok (JArray [], r')
            | None => let? (vs, r') := parse_elems n r in Ok (JArray vs, r')
            end
          else if Ascii.eqb c "{" then
            match head_is "}" (skip_ws r) with
            | Some r' => Ok (JObject [], r')
            | None => let? (kvs, r') := parse_members n r in Ok (JObject kvs, r')
            end
          else if is_digit c || Ascii.eqb c "-" then
            let? (z, r') := parse_number (String c r) in Ok (JNumber z, r')
          else Err SyntaxError
      end
  end
(** Elements of a non-empty array, up to and including the closing bracket. *)
with parse_elems (fuel : nat) (s : string) : result json_error (list jvalue * string) :=
  match fuel with
  | O => Err OutOfFuel
  | S n =>
      let? (v, r) := parse_value n s in
      match head_is "," (skip_ws r) with
      | Some r' => let? (vs, r'') := parse_elems n r' in Ok (v :: vs, r'')
      | None =>
          match head_is "]" (skip_ws r) with
          | Some r' => Ok ([v], r')
          | None => Err SyntaxError
          end
      end
  end
(** Members of a non-empty object, up to and including the closing brace. *)
with parse_members (fuel : nat) (s : string) :
    result json_error (list (string * jvalue) * string) :=
  match fuel with
  | O => Err OutOfFuel
  | S n =>
      match head_is c_quote (skip_ws s) with
      | None => Err SyntaxError
      | Some r =>
          let? (k, r1) := parse_str r in
          match head_is ":" (skip_ws r1) with
          | None => Err SyntaxError
          | Some r2 =>
              let? (v, r3) := parse_value n r2 in
              match head_is "," (skip_ws r3) with
              | Some r4 => let? (kvs, r5) := parse_members n r4 in Ok ((k, v) :: kvs, r5)
              | None =>
                  match head_is "}" (skip_ws r3) with
                  | Some r4 => Ok ([(k, v)], r4)
                  | None => Err SyntaxError
                  end
              end
          end
      end
  end.

(** [JSON.parse]: one value, surrounded by whitespace only. *)
Definition json_parse (s : string) : result json_error jvalue :=
  let? (v, r) := parse_value (S (String.length s)) s in
  match skip_ws r with
  | EmptyString => Ok v
  | _ => Err SyntaxError
  end.

(** Values whose numbers are safe integers: the ones [JSON.parse] gives
    back exactly. *)
Fixpoint safe_numbers (v : jvalue) : bool :=
  match v with
  | JNumber z => (Z.abs z <=? max_safe_integer)%Z
  | JArray l => forallb safe_numbers l
  | JObject l => forallb (fun kv => safe_numbers kv.2) l
  | _ => true
  end.

(** The fuel [parse_value] needs on the text of a value: one unit per
    nesting level and per array element or object member. *)
Fixpoint jneed (v : jvalue) : nat :=
  match v with
  | JArray l => S (fold_right (fun x acc => S (Nat.max (jneed x) acc)) 0 l)
  | JObject l => S (fold_right (fun kv acc => S (Nat.max (jneed kv.2) acc)) 0 l)
  | _ => 1
  end.

(** ** Round trip of string literals *)

Lemma prepend_Ok p b rest : prepend p (Ok (b, rest)) = Ok (p +:+ b, rest).
Proof. reflexivity. Qed.

(** Every escape [quote_char] writes is read back as the character. *)
Lemma parse_str_quote_char c r :
  parse_str (quote_char c +:+ r) = prepend (String c "") (parse_str r).
Proof.
  destruct c as [[] [] [] [] [] [] [] []]; reflexivity.
Qed.

Lemma parse_str_quote_body s rest :
  parse_str (quote_body s +:+ String c_quote rest) = Ok (s, rest).
Proof.
  induction s as [|c s IH]; [reflexivity|].
  cbn [quote_body]. rewrite <- string_app_assoc, parse_str_quote_char, IH.
  reflexivity.
Qed.

Lemma parse_str_quote s rest :
  parse_str (quote_body s +:+ String c_quote "" +:+ rest) = Ok (s, rest).
Proof. exact (parse_str_quote_body s rest). Qed.

(** ** Round trip of numbers *)

(** What may follow a number without extending it. *)
Definition num_delim (s : string) : bool :=
  match s with
  | String c _ => negb (is_digit c) && negb (frac_or_exp c)
  | EmptyString => true
  end.

Lemma digit_code d : (d < 10)%N -> N_of_ascii (ascii_of_N (48 + d)) = (48 + d)%N.
Proof. intros Hd. apply N_ascii_embedding. lia. Qed.

Lemma is_digit_code d : (d < 10)%N -> is_digit (ascii_of_N (48 + d)) = true.
Proof.
  intros Hd. unfold is_digit. rewrite digit_code by done.
  apply andb_true_intro; split; apply N.leb_le; lia.
Qed.

(** A digit differs from every non-digit, and is not whitespace. *)
Lemma digit_neq c x : is_digit c = true -> is_digit x = false -> Ascii.eqb c x = false.
Proof. intros Hc Hx. destruct (Ascii.eqb_spec c x); congruence. Qed.

Lemma digit_not_ws c : is_digit c = true -> is_json_ws c = false.
Proof.
  unfold is_digit, is_json_ws. intros [H1 H2]%andb_prop.
  apply N.leb_le in H1, H2.
  repeat rewrite (proj2 (N.eqb_neq _ _)) by lia. reflexivity.
Qed.

Lemma read_digits_digit a d s :
  (d < 10)%N -> read_digits a (String (ascii_of_N (48 + d)) s) = read_digits (a * 10 + d)%N s.
Proof.
  intros Hd. cbn [read_digits]. rewrite is_digit_code, digit_code by done.
  do 2 f_equal; lia.
Qed.

Lemma read_digits_stop a s : num_delim s = true -> read_digits a s = (a, s).
Proof. destruct s as [|c s]; [done|]. simpl. by intros [->%negb_true_iff _]%andb_prop. Qed.

Lemma pow10_succ f : (10 ^ N.of_nat (S f) = 10 * 10 ^ N.of_nat f)%N.
Proof. by rewrite Nat2N.inj_succ, N.pow_succ_r'. Qed.

Lemma N_digits_app f n acc rest : N_digits f n acc +:+ rest = N_digits f n (acc +:+ rest).
Proof.
  revert n acc; induction f as [|f IH]; intros n acc; [done|].
  cbn [N_digits]. destruct (n <? 10)%N; [done | apply IH].
Qed.

(** The digits read back as the number they print. *)
Lemma N_digits_read f : forall n acc a, (n < 10 ^ N.of_nat f)%N ->
  exists k, read_digits a (N_digits f n acc) = read_digits (a * 10 ^ k + n)%N acc.
Proof.
  induction f as [|f IH]; intros n acc a Hn.
  - exists 0%N. simpl in *. f_equal; lia.
  - rewrite pow10_succ in Hn. cbn [N_digits].
    assert (Hm : (n mod 10 < 10)%N) by (apply N.mod_lt; lia).
    pose proof (N.div_mod n 10 ltac:(lia)) as Hdm.
    destruct (N.ltb_spec n 10).
    + exists 1%N. rewrite read_digits_digit by done. rewrite N.mod_small by done.
      f_equal; lia.
    + destruct (IH (n / 10)%N (String (ascii_of_N (48 + n mod 10)) acc) a) as [k Hk].
      { apply N.Div0.div_lt_upper_bound; lia. }
      exists (k + 1)%N. rewrite Hk, read_digits_digit by done.
      rewrite N.pow_add_r, N.pow_1_r, N.mul_assoc.
      set (X := (a * 10 ^ k)%N). f_equal; lia.
Qed.

Lemma N_digits_head f : forall n acc, n <> 0%N -> (n < 10 ^ N.of_nat f)%N ->
  exists c s, N_digits f n acc = String c s /\ is_digit c = true /\ Ascii.eqb c "0" = false.
Proof.
  induction f as [|f IH]; intros n acc Hn0 Hn; [simpl in Hn; lia|].
  rewrite pow10_succ in Hn. cbn [N_digits].
  assert (Hm : (n mod 10 < 10)%N) by (apply N.mod_lt; lia).
  destruct (N.ltb_spec n 10).
  - eexists _, _. split; [reflexivity|]. split; [by apply is_digit_code|].
    destruct (Ascii.eqb_spec (ascii_of_N (48 + n mod 10)) "0") as [E|]; [|done].
    apply (f_equal N_of_ascii) in E. rewrite digit_code, N.mod_small in E by done.
    simpl in E. lia.
  - assert (1 <= n / 10)%N.
    { rewrite <- (N.div_same 10) by lia. apply N.Div0.div_le_mono. lia. }
    apply IH; [lia | apply N.Div0.div_lt_upper_bound; lia].
  Unshelve. all: exact "".
Qed.

Lemma N_to_string_bound n : (n < 10 ^ N.of_nat (S (N.to_nat (N.size n))))%N.
Proof.
  rewrite pow10_succ, N2Nat.id.
  pose proof (N.size_gt n).
  assert (2 ^ N.size n <= 10 ^ N.size n)%N by (apply N.pow_le_mono_l; lia).
  lia.
Qed.

Lemma parse_unsigned_N n rest :
  num_delim rest = true -> parse_unsigned (N_to_string n +:+ rest) = Ok (n, rest).
Proof.
  intros Hd. destruct (decide (n = 0%N)) as [->|Hn0].
  { reflexivity. }
  unfold N_to_string. rewrite N_digits_app, string_app_nil_l.
  destruct (N_digits_head _ n rest Hn0 (N_to_string_bound n)) as (c & s & Hcs & Hdig & H0).
  destruct (N_digits_read _ n rest 0 (N_to_string_bound n)) as [k Hk].
  unfold parse_unsigned. rewrite Hcs, H0, Hdig, <- Hcs, Hk, read_digits_stop by done.
  do 2 f_equal; lia.
Qed.

Lemma N_to_string_head n rest :
  exists c s, N_to_string n +:+ rest = String c s /\ is_digit c = true.
Proof.
  destruct (decide (n = 0%N)) as [->|Hn0]; [by eexists _, _|].
  unfold N_to_string. rewrite N_digits_app, string_app_nil_l.
  destruct (N_digits_head _ n rest Hn0 (N_to_string_bound n)) as (c & s & -> & ? & _).
  eauto.
Qed.

Lemma num_delim_frac rest :
  num_delim rest = true ->
  match rest with
  | String c _ => if frac_or_exp c then Err Unsupported else Ok tt
  | EmptyString => Ok tt
  end = (Ok tt : result json_error unit).
Proof. destruct rest; [done|]. simpl. by intros [_ ->%negb_true_iff]%andb_prop. Qed.

(** Any integer part: the number is kept up to the safe-integer bound and
    refused beyond it. *)
Lemma parse_number_N_any (neg : bool) n rest :
  num_delim rest = true ->
  parse_number ((if neg then "-" else "") +:+ N_to_string n +:+ rest) =
  let z := if neg then (- Z.of_N n)%Z else Z.of_N n in
  if (Z.abs z <=? max_safe_integer)%Z then Ok (z, rest) else Err Unsupported.
Proof.
  intros Hd. destruct (N_to_string_head n rest) as (c & s & Hcs & Hdig).
  assert (Hm : head_is "-" (N_to_string n +:+ rest) = None).
  { rewrite Hcs. simpl. by rewrite (digit_neq c "-"). }
  unfold parse_number. destruct neg; rewrite ?string_app_nil_l;
    [rewrite string_app_cons, string_app_nil_l; cbn [head_is Ascii.eqb Bool.eqb]
    | rewrite Hm]; cbv iota beta;
    rewrite parse_unsigned_N by done; cbn [res_bind]; rewrite num_delim_frac by done;
    reflexivity.
Qed.

Lemma Z_to_string_split z :
  Z_to_string z = (if (z <? 0)%Z then "-" else "") +:+ N_to_string (Z.to_N (Z.abs z)).
Proof. by destruct z. Qed.

Lemma parse_number_Z_any z rest :
  num_delim rest = true ->
  parse_number (Z_to_string z +:+ rest) =
    if (Z.abs z <=? max_safe_integer)%Z then Ok (z, rest) else Err Unsupported.
Proof.
  intros Hd. pose proof (Z2N.id (Z.abs z) (Z.abs_nonneg z)) as Hid.
  rewrite Z_to_string_split, <- string_app_assoc, parse_number_N_any by done. cbv zeta.
  rewrite Hid. replace (if (z <? 0)%Z then (- Z.abs z)%Z else Z.abs z) with z
    by (destruct (Z.ltb_spec z 0); lia).
  reflexivity.
Qed.

Lemma parse_number_Z z rest :
  (Z.abs z <= max_safe_integer)%Z -> num_delim rest = true ->
  parse_number (Z_to_string z +:+ rest) = Ok (z, rest).
Proof.
  intros Hb Hd. rewrite parse_number_Z_any by done. by rewrite (proj2 (Z.leb_le _ _) Hb).
Qed.

(** ** Round trip of values *)

Lemma skip_ws_head c r : is_json_ws c = false -> skip_ws (String c r) = String c r.
Proof. simpl. by intros ->. Qed.

(** The first character of a printed value is not whitespace and does not
    close an array. *)
Lemma stringify_head v rest :
  exists c r, stringify v +:+ rest = String c r /\ is_json_ws c = false /\
              Ascii.eqb c "]" = false.
Proof.
  destruct v as [|[]|z|s|l|l]; try (by eexists _, _).
  cbn [stringify]. rewrite Z_to_string_split.
  destruct (z <? 0)%Z; [by eexists _, _|].
  destruct (N_to_string_head (Z.to_N (Z.abs z)) rest) as (c & r & Hcr & Hd).
  exists c, r. split; [done|]. split; [by apply digit_not_ws | by apply digit_neq].
Qed.

Lemma parse_value_S_head n c r :
  is_json_ws c = false ->
  parse_value (S n) (String c r) =
    let lit l v := match expect_lit l r with
                   | Some r' => Ok (v, r')
                   | None => Err SyntaxError
                   end in
    if Ascii.eqb c "n" then lit "ull" JNull
    else if Ascii.eqb c "t" then lit "rue" (JBool true)
    else if Ascii.eqb c "f" then lit "alse" (JBool false)
    else if Ascii.eqb c c_quote then
      let? (str, r') := parse_str r in Ok (JString str, r')
    else if Ascii.eqb c "[" then
      match head_is "]" (skip_ws r) with
      | Some r' => Ok (JArray [], r')
      | None => let? (vs, r') := parse_elems n r in Ok (JArray vs, r')
      end
    else if Ascii.eqb c "{" then
      match head_is "}" (skip_ws r) with
      | Some r' => Ok (JObject [], r')
      | None => let? (kvs, r') := parse_members n r in Ok (JObject kvs, r')
      end
    else if is_digit c || Ascii.eqb c "-" then
      let? (z, r') := parse_number (String c r) in Ok (JNumber z, r')
    else Err SyntaxError.
Proof. intros Hc. cbn [parse_value]. by rewrite skip_ws_head. Qed.

Lemma parse_elems_S n s :
  parse_elems (S n) s =
    let? (v, r) := parse_value n s in
    match head_is "," (skip_ws r) with
    | Some r' => let? (vs, r'') := parse_elems n r' in Ok (v :: vs, r'')
    | None =>
        match head_is "]" (skip_ws r) with
        | Some r' => Ok ([v], r')
        | None => Err SyntaxError
        end
    end.
Proof. reflexivity. Qed.

Lemma parse_members_S n s :
  parse_members (S n) s =
    match head_is c_quote (skip_ws s) with
    | None => Err SyntaxError
    | Some r =>
        let? (k, r1) := parse_str r in
        match head_is ":" (skip_ws r1) with
        | None => Err SyntaxError
        | Some r2 =>
            let? (v, r3) := parse_value n r2 in
            match head_is "," (skip_ws r3) with
            | Some r4 => let? (kvs, r5) := parse_members n r4 in Ok ((k, v) :: kvs, r5)
            | None =>
                match head_is "}" (skip_ws r3) with
                | Some r4 => Ok ([(k, v)], r4)
                | None => Err SyntaxError
                end
            end
        end
    end.
Proof. reflexivity. Qed.

Lemma parse_number_value_any n z rest :
  num_delim rest = true ->
  parse_value (S n) (Z_to_string z +:+ rest) =
    if (Z.abs z <=? max_safe_integer)%Z then Ok (JNumber z, rest) else Err Unsupported.
Proof.
  intros Hd. pose proof (parse_number_Z_any z rest Hd) as Hp.
  rewrite Z_to_string_split in *. destruct (z <? 0)%Z.
  - rewrite <- string_app_assoc, string_app_cons, string_app_nil_l in Hp |- *.
    rewrite parse_value_S_head by done. simpl. rewrite Hp. by destruct (_ <=? _)%Z.
  - rewrite string_app_nil_l in Hp |- *.
    destruct (N_to_string_head (Z.to_N (Z.abs z)) rest) as (c & r & Hcr & Hdig).
    rewrite Hcr in *. rewrite parse_value_S_head by (by apply digit_not_ws).
    rewrite !(digit_neq c) by done. rewrite Hdig. simpl. rewrite Hp. by destruct (_ <=? _)%Z.
Qed.

Lemma parse_number_value n z rest :
  (Z.abs z <= max_safe_integer)%Z -> num_delim rest = true ->
  parse_value (S n) (Z_to_string z +:+ rest) = Ok (JNumber z, rest).
Proof.
  intros Hb Hd. rewrite parse_number_value_any by done. by rewrite (proj2 (Z.leb_le _ _) Hb).
Qed.

Lemma head_is_eq c r : head_is c (String c r) = Some r.
Proof. simpl. by rewrite Ascii.eqb_refl. Qed.

Lemma stringify_array l rest :
  stringify (JArray l) +:+ rest = String "[" (join_comma (map stringify l) +:+ String "]" rest).
Proof. cbn [stringify]. by rewrite <- !string_app_assoc. Qed.

Definition member (kv : string * jvalue) : string := quote kv.1 +:+ ":" +:+ stringify kv.2.

Lemma stringify_object l rest :
  stringify (JObject l) +:+ rest = String "{" (join_comma (map member l) +:+ String "}" rest).
Proof. cbn [stringify]. by rewrite <- !string_app_assoc. Qed.

Lemma member_app k v r :
  member (k, v) +:+ r =
  String c_quote (quote_body k +:+ String c_quote (String ":" (stringify v +:+ r))).
Proof.
  unfold member, quote. cbn [fst snd].
  rewrite <- !string_app_assoc, string_app_cons, <- !string_app_assoc. reflexivity.
Qed.

Lemma parse_value_quote n r :
  parse_value (S n) (String c_quote r) = let? (str, r') := parse_str r in Ok (JString str, r').
Proof. reflexivity. Qed.

Lemma parse_value_bracket n r :
  parse_value (S n) (String "[" r) =
    match head_is "]" (skip_ws r) with
    | Some r' => Ok (JArray [], r')
    | None => let? (vs, r') := parse_elems n r in Ok (JArray vs, r')
    end.
Proof. reflexivity. Qed.

Lemma parse_value_brace n r :
  parse_value (S n) (String "{" r) =
    match head_is "}" (skip_ws r) with
    | Some r' => Ok (JObject [], r')
    | None => let? (kvs, r') := parse_members n r in Ok (JObject kvs, r')
    end.
Proof. reflexivity. Qed.

Lemma join_comma_head {A} (f : A -> string) x l r :
  exists r', join_comma (map f (x :: l)) +:+ r = f x +:+ r'.
Proof.
  destruct l as [|y l]; [by exists r|].
  eexists. cbn [map join_comma]. by rewrite <- !string_app_assoc.
Qed.

(** The statement of the round trip for one value, in any context a
    number may be followed by. *)
Definition roundtrips (v : jvalue) : Prop :=
  safe_numbers v = true -> forall n rest, jneed v <= n -> num_delim rest = true ->
  parse_value n (stringify v +:+ rest) = Ok (v, rest).

Lemma parse_elems_join l :
  Forall roundtrips l -> l <> [] -> forallb safe_numbers l = true ->
  forall n rest, fold_right (fun x acc => S (Nat.max (jneed x) acc)) 0 l <= n ->
  parse_elems n (join_comma (map stringify l) +:+ String "]" rest) = Ok (l, rest).
Proof.
  induction l as [|x l IHl]; [congruence|]. intros HF _ Hs n rest Hn.
  apply Forall_cons_1 in HF as [Hx HF]. cbn [forallb fold_right] in Hs, Hn.
  apply andb_prop in Hs as [Hsx Hsl]. destruct n as [|n]; [lia|].
  rewrite parse_elems_S. destruct l as [|y l].
  - cbn [map join_comma]. rewrite Hx by (done || lia). reflexivity.
  - cbn [map join_comma]. rewrite <- !string_app_assoc, Hx by (done || lia).
    cbn [res_bind]. rewrite string_app_cons, string_app_nil_l.
    rewrite skip_ws_head, head_is_eq by done. cbn [res_bind].
    rewrite (IHl HF) by (done || lia). reflexivity.
Qed.

Lemma parse_members_join l :
  Forall (fun kv => roundtrips kv.2) l -> l <> [] ->
  forallb (fun kv => safe_numbers kv.2) l = true ->
  forall n rest, fold_right (fun kv acc => S (Nat.max (jneed kv.2) acc)) 0 l <= n ->
  parse_members n (join_comma (map member l) +:+ String "}" rest) = Ok (l, rest).
Proof.
  induction l as [|[k v] l IHl]; [congruence|]. intros HF _ Hs n rest Hn.
  apply Forall_cons_1 in HF as [Hv HF]. cbn [forallb fold_right fst snd] in Hs, Hn, Hv.
  apply andb_prop in Hs as [Hsv Hsl]. destruct n as [|n]; [lia|].
  rewrite parse_members_S. destruct l as [|kv' l].
  - cbn [map join_comma]. rewrite member_app.
    rewrite skip_ws_head, head_is_eq by done. cbn [res_bind].
    rewrite parse_str_quote_body. cbn [res_bind].
    rewrite skip_ws_head, head_is_eq by done. cbn [res_bind].
    rewrite Hv by (done || lia). reflexivity.
  - cbn [map join_comma]. rewrite <- !string_app_assoc, member_app.
    rewrite skip_ws_head, head_is_eq by done. cbn [res_bind].
    rewrite parse_str_quote_body. cbn [res_bind].
    rewrite skip_ws_head, head_is_eq by done. cbn [res_bind].
    rewrite Hv by (done || lia). cbn [res_bind].
    rewrite string_app_cons, string_app_nil_l.
    rewrite skip_ws_head, head_is_eq by done. cbn [res_bind].
    rewrite (IHl HF) by (done || lia). reflexivity.
Qed.

Lemma parse_value_stringify v : roundtrips v.
Proof.
  induction v as [| b | z | s | l IH | l IH] using jvalue_ind';
    intros Hs n rest Hn Hd; (destruct n as [|n]; [cbn in Hn; lia|]).
  - reflexivity.
  - by destruct b.
  - apply parse_number_value; [by apply Z.leb_le | done].
  - unfold stringify, quote. rewrite string_app_cons, <- string_app_assoc.
    rewrite parse_value_quote, parse_str_quote. reflexivity.
  - rewrite stringify_array, parse_value_bracket.
    destruct l as [|x l]; [reflexivity|].
    destruct (join_comma_head stringify x l (String "]" rest)) as [r' Hr'].
    destruct (stringify_head x r') as (c & r & Hcr & Hws & Hc).
    rewrite Hr', Hcr, skip_ws_head by done. cbn [head_is]. rewrite Hc, <- Hcr, <- Hr'.
    apply andb_prop in Hs as [Hsx Hsl].
    rewrite parse_elems_join; [reflexivity | done | done | by apply andb_true_intro | ].
    cbn in Hn |- *; lia.
  - rewrite stringify_object, parse_value_brace.
    destruct l as [|[k v] l]; [reflexivity|].
    destruct (join_comma_head member (k, v) l (String "}" rest)) as [r' Hr'].
    rewrite Hr', member_app, skip_ws_head by done. cbn [head_is].
    rewrite <- member_app, <- Hr'.
    rewrite parse_members_join; [reflexivity | done | done | done | ].
    cbn in Hn |- *; lia.
Qed.

(** ** Enough fuel *)

Lemma stringify_length_pos v : 1 <= String.length (stringify v).
Proof.
  destruct (stringify_head v "") as (c & r & H & _).
  rewrite string_app_nil_r in H. rewrite H. simpl. lia.
Qed.

Lemma join_comma_need {A} (f : A -> string) (need : A -> nat) l :
  Forall (fun x => need x <= String.length (f x)) l ->
  fold_right (fun x acc => S (Nat.max (need x) acc)) 0 l <= S (String.length (join_comma (map f l))).
Proof.
  induction 1 as [|x l Hx HF IH]; cbn [fold_right]; [lia|].
  destruct l as [|y l]; cbn [map join_comma fold_right] in *; [lia|].
  rewrite !string_length_app. simpl. lia.
Qed.

Lemma jneed_le v : jneed v <= String.length (stringify v).
Proof.
  induction v as [| | | | l IH | l IH] using jvalue_ind'; try apply stringify_length_pos.
  - pose proof (join_comma_need stringify jneed l IH) as H.
    rewrite <- (string_app_nil_r (stringify _)), stringify_array. cbn [jneed].
    simpl. rewrite string_length_app. simpl. lia.
  - assert (Forall (fun kv => jneed kv.2 <= String.length (member kv)) l) as IH'.
    { eapply Forall_impl; [exact IH|]. intros [k v] Hv. unfold member.
      rewrite !string_length_app. simpl in *. lia. }
    pose proof (join_comma_need member (fun kv => jneed kv.2) l IH') as H.
    rewrite <- (string_app_nil_r (stringify _)), stringify_object. cbn [jneed].
    simpl. rewrite string_length_app. simpl. lia.
Qed.

(** [JSON.parse] reads back what [JSON.stringify] writes, for every value
    whose numbers are safe integers. *)
Theorem json_roundtrip v : safe_numbers v = true -> json_parse (stringify v) = Ok v.
Proof.
  intros Hs. unfold json_parse.
  pose proof (parse_value_stringify v Hs (S (String.length (stringify v))) ""
                ltac:(pose proof (jneed_le v); lia) eq_refl) as H.
  rewrite string_app_nil_r in H. by rewrite H.
Qed.

(** The bound of exact numbers.  A printed integer parses back
    exactly when its absolute value is at most [Number.MAX_SAFE_INTEGER]
    ([2^53 - 1]); beyond it the model refuses it as [Unsupported].  The
    bound is the model's representation: JavaScript holds numbers as
    doubles, and it reads back every number its [JSON.stringify] wrote. *)
Theorem json_number_bound z :
  json_parse (stringify (JNumber z)) =
    if (Z.abs z <=? max_safe_integer)%Z then Ok (JNumber z) else Err Unsupported.
Proof.
  unfold json_parse. cbn [stringify].
  rewrite <- (string_app_nil_r (Z_to_string z)) at 2.
  rewrite parse_number_value_any by done. by destruct (_ <=? _)%Z.
Qed.

(** ** What the parser produces *)

(** Splits the hypothesis [H : ... = Ok _] on the [if]s, [match]es and
    binds of a parser. *)
Ltac parse_inv H :=
  repeat match type of H with
  | (if ?b then _ else _) = Ok _ => destruct b eqn:?
  | res_bind ?r _ = Ok _ =>
      let x := fresh "x" in let Hx := fresh "Hx" in
      apply res_bind_Ok_inv in H as (x & Hx & H)
  | match ?x with _ => _ end = Ok _ => destruct x eqn:?
  | Ok _ = Ok _ => injection H as H; subst
  | Err _ = Ok _ => discriminate H
  end.

Lemma parse_number_safe s z r :
  parse_number s = Ok (z, r) -> (Z.abs z <= max_safe_integer)%Z.
Proof.
  unfold parse_number.
  intros H. parse_inv H. by apply Z.leb_le.
Qed.

Lemma parse_safe n :
  (forall s v r, parse_value n s = Ok (v, r) -> safe_numbers v = true) /\
  (forall s vs r, parse_elems n s = Ok (vs, r) -> forallb safe_numbers vs = true) /\
  (forall s kvs r, parse_members n s = Ok (kvs, r) ->
     forallb (fun kv => safe_numbers kv.2) kvs = true).
Proof.
  induction n as [|n (IHv & IHe & IHm)]; [split_and!; discriminate|].
  split_and!.
  - intros s v r H. cbn [parse_value] in H. destruct (skip_ws s); [discriminate|].
    parse_inv H; subst; try done; cbn [safe_numbers]; eauto.
    apply Z.leb_le. eapply parse_number_safe; eauto.
  - intros s vs r H. cbn [parse_elems] in H. parse_inv H; subst; cbn [forallb];
      apply andb_true_intro; split; eauto.
  - intros s kvs r H. cbn [parse_members] in H. parse_inv H; subst; cbn [forallb];
      apply andb_true_intro; split; eauto.
Qed.

Lemma json_parse_safe s v : json_parse s = Ok v -> safe_numbers v = true.
Proof.
  unfold json_parse. intros H. parse_inv H. by eapply parse_safe.
Qed.

End Json.
