(* ===== verification/Storage.v ===== *)
(** * localStorage and the persistence contract

    The client keeps its durable data in the browser's [localStorage]: the
    conversation store under [chat-messages-<sessionId>]
    (src/src/context/ChatContext.tsx lines 35, 47, 59 and 73) and the theme
    under [theme] (src/src/context/ThemeContext.tsx lines 16, 21 and 26).
    [localStorage] is a map from string keys to string values; it is a
    stdpp [gmap string string] here, with [getItem], [setItem] and
    [removeItem] as lookup, insert and delete.  Quota errors of [setItem]
    are not modelled (the program sets no size limit and never catches
    them).

    [PersistenceAdapter] states the contract of the spec's persistence
    adapter (load, save, clear per session) and [PersistenceLaws] the laws
    the conversation store relies on; ChatContext.v gives the instance for
    the JSON encoding under the [chat-messages-] keys. *)

From Stdlib Require Import String Ascii List Lia.
From stdpp Require Import base list strings gmap.
From S2P Require Import Prelude.

Module Storage.

(** ** The store and its three operations *)

Abbreviation store := (gmap string string).

Definition getItem (k : string) (ls : store) : option string := ls !! k.
Definition setItem (k v : string) (ls : store) : store := <[k := v]> ls.
Definition removeItem (k : string) (ls : store) : store := delete k ls.

(** The key of a session's messages: [`chat-messages-${sessionId}`]. *)
Definition chat_key (sessionId : string) : string := "chat-messages-" +:+ sessionId.

(** The key of the theme. *)
Definition theme_key : string := "theme".

(** ** The persistence contract of the spec (section 4.1) *)

Class PersistenceAdapter (S M E : Type) := {
  load : S -> string -> result E (list M);
  save : S -> string -> list M -> S;
  clear : S -> string -> S
}.

(** [wf] is the set of message lists the adapter stores exactly. *)
Class PersistenceLaws (S M E : Type) `{PersistenceAdapter S M E} (wf : list M -> Prop) := {
  load_save st id ms : wf ms -> load (save st id ms) id = Ok ms;
  load_save_other st id id' ms : id <> id' -> load (save st id ms) id' = load st id';
  load_clear st id : load (clear st id) id = Ok [];
  load_clear_other st id id' : id <> id' -> load (clear st id) id' = load st id'
}.

(** ** Keys *)

Lemma chat_key_inj id id' : chat_key id = chat_key id' -> id = id'.
Proof. apply (inj (String.app "chat-messages-")). Qed.

Lemma chat_key_ne id id' : id <> id' -> chat_key id <> chat_key id'.
Proof. intros Hne Heq. by apply Hne, chat_key_inj. Qed.

(** The theme never shares a key with a conversation. *)
Lemma theme_key_not_chat id : theme_key <> chat_key id.
Proof. discriminate. Qed.

Lemma getItem_setItem_eq k v ls : getItem k (setItem k v ls) = Some v.
Proof. apply lookup_insert_eq. Qed.

Lemma getItem_setItem_ne k k' v ls : k <> k' -> getItem k' (setItem k v ls) = getItem k' ls.
Proof. intros. by apply lookup_insert_ne. Qed.

Lemma getItem_removeItem_eq k ls : getItem k (removeItem k ls) = None.
Proof. apply lookup_delete_eq. Qed.

Lemma getItem_removeItem_ne k k' ls : k <> k' -> getItem k' (removeItem k ls) = getItem k' ls.
Proof. intros. by apply lookup_delete_ne. Qed.

Lemma setItem_idem k v ls : setItem k v (setItem k v ls) = setItem k v ls.
Proof. apply insert_insert_eq. Qed.

Lemma removeItem_idem k ls : removeItem k (removeItem k ls) = removeItem k ls.
Proof. apply delete_delete_eq. Qed.

#[export] Hint Rewrite getItem_setItem_eq getItem_removeItem_eq setItem_idem
  removeItem_idem : chat.
#[export] Hint Resolve chat_key_ne theme_key_not_chat : chat.

End Storage.
