(* ===== verification/ChatContext.v ===== *)
(** * The conversation store: src/src/context/ChatContext.tsx

    [ChatState], [ChatAction] and [chatReducer] are the source's type and
    reducer.  The reducer is not pure in the source: three of its cases
    write [localStorage] and one reads it, so here it takes the store and
    returns the new store with the new state.  A [JSON.parse] that throws
    inside [SET_SESSION_ID] (malformed stored text) is [Err (ParseFailure _)];
    a parsed value that is not a list of messages, which the source would
    put into the state unchecked, is [Err NotMessageList].

    The handlers are one definition each ([setSessionId], [addMessage],
    [updateLastBotMessage], [setLoading], [setError], [clearMessages]) and
    [chatReducer] dispatches on the action as the [switch] does.  The
    [if (!state.sessionId) return state;] guards test JavaScript
    truthiness: an empty session id counts as no session
    ([active_session]).

    Messages are stored as the JSON array of objects with the members
    [text], [sender] and [timestamp], in that order ([encode_messages]);
    [read_messages] is the read of [SET_SESSION_ID].  Extra members of a
    stored object, which JavaScript would keep, are dropped by the typed
    model. *)

From Stdlib Require Import ZArith String Ascii List Lia.
From stdpp Require Import base list strings gmap.
From S2P Require Import Prelude JsString Json Storage.

Module ChatContext.
Import Json Storage.

(** ** Data *)

Inductive Sender : Type :=
| user
| bot.

#[export] Instance Sender_eq_dec : EqDecision Sender.
Proof. solve_decision. Defined.

Record Message : Type := mkMessage {
  text : string;
  sender : Sender;
  timestamp : Z
}.

Record ChatState : Type := mkChatState {
  sessionId : option string;
  messages : list Message;
  loading : bool;
  error : option string
}.

Inductive ChatAction : Type :=
| SET_SESSION_ID (payload : string)
| ADD_MESSAGE (payload : Message)
| UPDATE_LAST_BOT_MESSAGE (payload : string)
| SET_LOADING (payload : bool)
| SET_ERROR (payload : option string)
| CLEAR_MESSAGES.

Definition initialState : ChatState := mkChatState None [] false None.

Definition set_messages (s : ChatState) (ms : list Message) : ChatState :=
  mkChatState (sessionId s) ms (loading s) (error s).

(** ** The stored form of messages *)

Definition sender_to_string (s : Sender) : string :=
  match s with user => "user" | bot => "bot" end.

Definition sender_of_string (s : string) : option Sender :=
  if String.eqb s "user" then Some user
  else if String.eqb s "bot" then Some bot
  else None.

Definition message_to_json (m : Message) : jvalue :=
  JObject [("text", JString (text m));
           ("sender", JString (sender_to_string (sender m)));
           ("timestamp", JNumber (timestamp m))].

Definition messages_to_json (ms : list Message) : jvalue :=
  JArray (map message_to_json ms).

(** [JSON.stringify(newMessages)]. *)
Definition encode_messages (ms : list Message) : string := stringify (messages_to_json ms).

(** Property read on a parsed object: the last member with the key wins,
    as [JSON.parse] overwrites duplicate keys. *)
Definition obj_get (k : string) (l : list (string * jvalue)) : option jvalue :=
  fold_left (fun acc kv => if String.eqb k kv.1 then Some kv.2 else acc) l None.

Definition message_of_json (v : jvalue) : option Message :=
  match v with
  | JObject l =>
      match obj_get "text" l, obj_get "sender" l, obj_get "timestamp" l with
      | Some (JString t), Some (JString s), Some (JNumber z) =>
          match sender_of_string s with
          | Some sd => Some (mkMessage t sd z)
          | None => None
          end
      | _, _, _ => None
      end
  | _ => None
  end.

Fixpoint messages_of_list (l : list jvalue) : option (list Message) :=
  match l with
  | [] => Some []
  | v :: l' =>
      match message_of_json v, messages_of_list l' with
      | Some m, Some ms => Some (m :: ms)
      | _, _ => None
      end
  end.

Definition messages_of_json (v : jvalue) : option (list Message) :=
  match v with
  | JArray l => messages_of_list l
  | _ => None
  end.

Inductive load_error : Type :=
| ParseFailure (e : json_error)
| NotMessageList.

(** [savedMessages ? JSON.parse(savedMessages) : []].  Of the errors,
    only [ParseFailure SyntaxError] is a throw of [JSON.parse].  The
    others, [ParseFailure Unsupported] (fractions, exponents, integers
    beyond [2^53 - 1], lone surrogates) and [NotMessageList], stand for
    values the source parses and puts into the state unchecked, which the
    typed state cannot hold: the model stops there instead. *)
Definition read_messages (ls : store) (id : string) : result load_error (list Message) :=
  match getItem (chat_key id) ls with
  | Some saved =>
      if JsString.truthy saved then
        match json_parse saved with
        | Ok v =>
            match messages_of_json v with
            | Some ms => Ok ms
            | None => Err NotMessageList
            end
        | Err e => Err (ParseFailure e)
        end
      else Ok []
  | None => Ok []
  end.

(** ** The reducer *)

(** [state.sessionId] when it is truthy. *)
Definition active_session (s : ChatState) : option string :=
  match sessionId s with
  | Some id => if JsString.truthy id then Some id else None
  | None => None
  end.

Definition setSessionId (s : ChatState) (ls : store) (id : string) :
  result load_error (ChatState * store) :=
  match read_messages ls id with
  | Ok ms => Ok (mkChatState (Some id) ms (loading s) (error s), ls)
  | Err e => Err e
  end.

Definition addMessage (s : ChatState) (ls : store) (m : Message) : ChatState * store :=
  match active_session s with
  | None => (s, ls)
  | Some id =>
      let newMessages := messages s ++ [m] in
      (set_messages s newMessages, setItem (chat_key id) (encode_messages newMessages) ls)
  end.

Definition with_text (m : Message) (t : string) : Message :=
  mkMessage t (sender m) (timestamp m).

Definition updateLastBotMessage (s : ChatState) (ls : store) (t : string) : ChatState * store :=
  match active_session s with
  | None => (s, ls)
  | Some id =>
      let newMessages := messages s in
      let lastMessageIndex := length newMessages - 1 in
      match newMessages !! lastMessageIndex with
      | Some m =>
          if decide (sender m = bot) then
            let nm := <[lastMessageIndex := with_text m t]> newMessages in
            (set_messages s nm, setItem (chat_key id) (encode_messages nm) ls)
          else (set_messages s newMessages, ls)
      | None => (set_messages s newMessages, ls)
      end
  end.

Definition setLoading (s : ChatState) (b : bool) : ChatState :=
  mkChatState (sessionId s) (messages s) b (error s).

Definition setError (s : ChatState) (e : option string) : ChatState :=
  mkChatState (sessionId s) (messages s) (loading s) e.

Definition clearMessages (s : ChatState) (ls : store) : ChatState * store :=
  match active_session s with
  | None => (s, ls)
  | Some id => (set_messages s [], removeItem (chat_key id) ls)
  end.

Definition chatReducer (s : ChatState) (ls : store) (action : ChatAction) :
  result load_error (ChatState * store) :=
  match action with
  | SET_SESSION_ID id => setSessionId s ls id
  | ADD_MESSAGE m => Ok (addMessage s ls m)
  | UPDATE_LAST_BOT_MESSAGE t => Ok (updateLastBotMessage s ls t)
  | SET_LOADING b => Ok (setLoading s b, ls)
  | SET_ERROR e => Ok (setError s e, ls)
  | CLEAR_MESSAGES => Ok (clearMessages s ls)
  end.

(** Actions dispatched in order; the first exception stops the run. *)
Fixpoint run_actions (s : ChatState) (ls : store) (acts : list ChatAction) :
  result load_error (ChatState * store) :=
  match acts with
  | [] => Ok (s, ls)
  | a :: acts' =>
      match chatReducer s ls a with
      | Ok (s', ls') => run_actions s' ls' acts'
      | Err e => Err e
      end
  end.

(** ** The stored form reads back *)

(** A message JSON represents exactly: its timestamp is a safe integer. *)
Definition message_safe (m : Message) : bool := (Z.abs (timestamp m) <=? max_safe_integer)%Z.
Definition messages_safe (ms : list Message) : bool := forallb message_safe ms.

Lemma messages_of_to ms : messages_of_json (messages_to_json ms) = Some ms.
Proof.
  unfold messages_of_json, messages_to_json.
  induction ms as [|[t [] z] ms IH]; [done | |]; simpl; by rewrite IH.
Qed.

Lemma safe_numbers_messages ms : safe_numbers (messages_to_json ms) = messages_safe ms.
Proof. induction ms as [|m ms IH]; [done|]. simpl in *. by rewrite IH, andb_true_r. Qed.

Lemma encode_messages_head ms : exists r, encode_messages ms = String "[" r.
Proof.
  unfold encode_messages, messages_to_json. eexists.
  rewrite <- (string_app_nil_r (stringify _)), stringify_array. reflexivity.
Qed.

Lemma read_encode ls id ms :
  messages_safe ms = true ->
  read_messages (setItem (chat_key id) (encode_messages ms) ls) id = Ok ms.
Proof.
  intros Hs. unfold read_messages. rewrite getItem_setItem_eq.
  destruct (encode_messages_head ms) as [r Hr].
  replace (JsString.truthy (encode_messages ms)) with true by (by rewrite Hr).
  unfold encode_messages. rewrite json_roundtrip by (by rewrite safe_numbers_messages).
  by rewrite messages_of_to.
Qed.

Lemma read_removed ls id : read_messages (removeItem (chat_key id) ls) id = Ok [].
Proof. unfold read_messages. by rewrite getItem_removeItem_eq. Qed.

Lemma read_setItem_other ls id id' v :
  id <> id' -> read_messages (setItem (chat_key id) v ls) id' = read_messages ls id'.
Proof. intros. unfold read_messages. by rewrite getItem_setItem_ne by auto with chat. Qed.

Lemma read_removeItem_other ls id id' :
  id <> id' -> read_messages (removeItem (chat_key id) ls) id' = read_messages ls id'.
Proof. intros. unfold read_messages. by rewrite getItem_removeItem_ne by auto with chat. Qed.

Lemma obj_get_In k l v : obj_get k l = Some v -> exists k', In (k', v) l.
Proof.
  unfold obj_get. assert (forall acc, fold_left (fun acc kv => if String.eqb k kv.1 then Some kv.2 else acc) l acc = Some v ->
                          acc = Some v \/ exists k', In (k', v) l) as H.
  { induction l as [|[k1 v1] l IH]; intros acc Hf; [by left|]. simpl in Hf.
    destruct (IH _ Hf) as [Ha|(k' & Hk')]; [|right; exists k'; by right].
    destruct (String.eqb k k1); [|by left]. injection Ha as ->. right. exists k1. by left. }
  intros Hf. by destruct (H None Hf) as [?|?].
Qed.

Lemma message_of_json_safe v m :
  safe_numbers v = true -> message_of_json v = Some m -> message_safe m = true.
Proof.
  destruct v as [| | | |l|l]; try discriminate. cbn [safe_numbers]. intros Hs Hm.
  unfold message_of_json in Hm.
  destruct (obj_get "timestamp" l) as [[]|] eqn:Ht; repeat case_match; simplify_eq.
  destruct (obj_get_In _ _ _ Ht) as [k' Hin].
  apply (proj1 (forallb_forall _ _) Hs) in Hin. done.
Qed.

Lemma messages_of_json_safe v ms :
  safe_numbers v = true -> messages_of_json v = Some ms -> messages_safe ms = true.
Proof.
  destruct v as [| | | |l|l]; try discriminate. cbn [safe_numbers messages_of_json].
  revert ms. induction l as [|v l IH]; intros ms Hs Hms; simpl in *; simplify_eq; [done|].
  apply andb_prop in Hs as [Hv Hl].
  destruct (message_of_json v) eqn:Hm, (messages_of_list l) eqn:Hl'; simplify_eq.
  simpl. rewrite (message_of_json_safe v m Hv Hm). by apply IH.
Qed.

Lemma read_messages_safe ls id ms : read_messages ls id = Ok ms -> messages_safe ms = true.
Proof.
  unfold read_messages. intros H.
  repeat (case_match; simplify_eq); try done.
  eapply messages_of_json_safe; [by eapply json_parse_safe | done].
Qed.

(** ** localStorage with the JSON encoding meets the persistence contract *)

#[export] Instance localStorage_adapter : PersistenceAdapter store Message load_error := {|
  load := read_messages;
  save ls id ms := setItem (chat_key id) (encode_messages ms) ls;
  clear ls id := removeItem (chat_key id) ls
|}.

#[export] Instance localStorage_laws :
  PersistenceLaws store Message load_error (fun ms => messages_safe ms = true).
Proof.
  split; intros; simpl.
  - by apply read_encode.
  - by apply read_setItem_other.
  - apply read_removed.
  - by apply read_removeItem_other.
Qed.

(** ** The handlers case by case *)

Lemma set_messages_id s : set_messages s (messages s) = s.
Proof. by destruct s. Qed.

Lemma active_session_set_messages s ms : active_session (set_messages s ms) = active_session s.
Proof. reflexivity. Qed.

Lemma active_session_Some s id : active_session s = Some id -> sessionId s = Some id.
Proof. unfold active_session. destruct (sessionId s); [case_match|]; congruence. Qed.

#[export] Hint Rewrite set_messages_id active_session_set_messages : chat.

(** The last message exists and is the bot's: the test
    [newMessages[lastMessageIndex]?.sender === 'bot']. *)
Definition last_is_bot (ms : list Message) : bool :=
  match last ms with
  | Some m => bool_decide (sender m = bot)
  | None => false
  end.

Lemma last_is_bot_snoc ms m : last_is_bot (ms ++ [m]) = bool_decide (sender m = bot).
Proof. unfold last_is_bot. by rewrite last_snoc. Qed.

Lemma lookup_last_index (ms : list Message) :
  ms !! (length ms - 1) = last ms.
Proof. by rewrite last_lookup, Nat.sub_1_r. Qed.

Lemma insert_last_index (ms : list Message) m x :
  <[length (ms ++ [m]) - 1 := x]> (ms ++ [m]) = ms ++ [x].
Proof.
  rewrite length_app. simpl. replace (length ms + 1 - 1) with (length ms + 0) by lia.
  by rewrite insert_app_r.
Qed.

Lemma updateLastBotMessage_cases s ls t id :
  active_session s = Some id ->
  (exists ms m, messages s = ms ++ [m] /\ sender m = bot /\
     updateLastBotMessage s ls t =
       (set_messages s (ms ++ [with_text m t]),
        setItem (chat_key id) (encode_messages (ms ++ [with_text m t])) ls)) \/
  (last_is_bot (messages s) = false /\ updateLastBotMessage s ls t = (s, ls)).
Proof.
  intros Ha. unfold updateLastBotMessage. rewrite Ha, lookup_last_index.
  destruct (last (messages s)) as [m|] eqn:Hl.
  - apply last_Some in Hl as [ms Hms]. case_decide as Hb.
    + left. exists ms, m. rewrite Hms, insert_last_index. by split_and!.
    + right. rewrite set_messages_id. split; [|done].
      rewrite Hms, last_is_bot_snoc. by apply bool_decide_eq_false_2.
  - right. rewrite set_messages_id. split; [|done]. unfold last_is_bot. by rewrite Hl.
Qed.

(** ** The write-through invariant

    While a session is active, its stored text reads back as the messages
    in memory, and every message has a timestamp JSON keeps exactly. *)

Definition Inv (s : ChatState) (ls : store) : Prop :=
  messages_safe (messages s) = true /\
  forall id, active_session s = Some id -> read_messages ls id = Ok (messages s).

(** Added messages carry a timestamp JSON represents ([Date.now()] does). *)
Definition action_wf (a : ChatAction) : bool :=
  match a with
  | ADD_MESSAGE m => message_safe m
  | _ => true
  end.

Lemma messages_safe_app ms ms' :
  messages_safe (ms ++ ms') = messages_safe ms && messages_safe ms'.
Proof. apply forallb_app. Qed.

Lemma chatReducer_Inv s ls a s' ls' :
  Inv s ls -> action_wf a = true -> chatReducer s ls a = Ok (s', ls') -> Inv s' ls'.
Proof.
  intros [Hsafe Hm] Ha Hr. unfold Inv. destruct a as [id|m|t|b|e|]; cbn [chatReducer] in Hr.
  - unfold setSessionId in Hr. destruct (read_messages ls id) eqn:E; simplify_eq.
    split; [by eapply read_messages_safe|]. intros id'. unfold active_session. simpl.
    destruct (JsString.truthy id); [by intros [= <-] | discriminate].
  - unfold addMessage in Hr.
    destruct (active_session s) as [id|] eqn:E; injection Hr as <- <-;
      [|split; [done | intros ?; rewrite E; discriminate]].
    assert (messages_safe (messages s ++ [m]) = true).
    { rewrite messages_safe_app, Hsafe. simpl in *. by rewrite Ha. }
    split; [done|]. intros id'. rewrite active_session_set_messages, E. intros [= <-]. by apply read_encode.
  - destruct (active_session s) as [id|] eqn:E.
    2:{ unfold updateLastBotMessage in Hr. rewrite E in Hr. injection Hr as <- <-.
        split; [done | intros ?; rewrite E; discriminate]. }
    destruct (updateLastBotMessage_cases s ls t id E) as [(ms & m & Hms & Hb & Hu)|(_ & Hu)];
      rewrite Hu in Hr; injection Hr as <- <-;
      [|split; [done | intros ? ?; apply Hm; congruence]].
    assert (messages_safe (ms ++ [with_text m t]) = true).
    { rewrite Hms, !messages_safe_app in Hsafe. apply andb_prop in Hsafe as [H1 H2].
      by rewrite messages_safe_app, H1. }
    split; [done|]. intros id'. rewrite active_session_set_messages, E. intros [= <-]. by apply read_encode.
  - injection Hr as <- <-. by split.
  - injection Hr as <- <-. by split.
  - unfold clearMessages in Hr.
    destruct (active_session s) as [id|] eqn:E; injection Hr as <- <-;
      [|split; [done | intros ?; rewrite E; discriminate]].
    split; [done|]. intros id'. rewrite active_session_set_messages, E. intros [= <-]. apply read_removed.
Qed.

(** States the store reaches from [initialState] through well-formed
    actions, whatever the store held before (earlier sessions). *)
Inductive reachable : ChatState -> store -> Prop :=
| reachable_init ls : reachable initialState ls
| reachable_step s ls a s' ls' :
    reachable s ls -> action_wf a = true -> chatReducer s ls a = Ok (s', ls') ->
    reachable s' ls'.

Lemma reachable_Inv s ls : reachable s ls -> Inv s ls.
Proof.
  induction 1 as [ls|s ls a s' ls' _ IH Ha Hr]; [|by eapply chatReducer_Inv].
  split; [done|]. discriminate.
Qed.

Lemma addMessage_active s ls m id :
  active_session s = Some id ->
  addMessage s ls m =
    (set_messages s (messages s ++ [m]),
     setItem (chat_key id) (encode_messages (messages s ++ [m])) ls).
Proof. unfold addMessage. by intros ->. Qed.

Lemma clearMessages_active s ls id :
  active_session s = Some id ->
  clearMessages s ls = (set_messages s [], removeItem (chat_key id) ls).
Proof. unfold clearMessages. by intros ->. Qed.

(** ** Properties of the reducer *)

(** C1: while a session is active, the text stored under its key reads
    back ([JSON.parse]) as exactly the messages in memory, in every state
    the reducer reaches (write-through). *)
Theorem reachable_mirror s ls id :
  reachable s ls -> active_session s = Some id -> read_messages ls id = Ok (messages s).
Proof. intros Hr. apply (proj2 (reachable_Inv s ls Hr)). Qed.

(** C2: with no truthy session id ([null] or the empty string), the
    message-changing actions return the state and the store unchanged. *)
Theorem inactive_session_noop s ls m t :
  active_session s = None ->
  chatReducer s ls (ADD_MESSAGE m) = Ok (s, ls) /\
  chatReducer s ls (UPDATE_LAST_BOT_MESSAGE t) = Ok (s, ls) /\
  chatReducer s ls CLEAR_MESSAGES = Ok (s, ls).
Proof.
  intros H. cbn [chatReducer].
  unfold addMessage, updateLastBotMessage, clearMessages. by rewrite H.
Qed.

(** C3: [ADD_MESSAGE] in an active session appends the message at the end,
    writes the whole new list to that session's key, where it reads back,
    and leaves every other session's stored history as it was. *)
Theorem add_message_write_through s ls m id :
  active_session s = Some id -> messages_safe (messages s ++ [m]) = true ->
  exists ls', chatReducer s ls (ADD_MESSAGE m) = Ok (set_messages s (messages s ++ [m]), ls') /\
    read_messages ls' id = Ok (messages s ++ [m]) /\
    forall id', id' <> id -> read_messages ls' id' = read_messages ls id'.
Proof.
  intros Ha Hs. eexists. cbn [chatReducer]. rewrite (addMessage_active _ _ _ _ Ha).
  split_and!; [reflexivity | by apply read_encode | intros; by apply read_setItem_other].
Qed.

(** C4: [UPDATE_LAST_BOT_MESSAGE t] when the last message is the bot's
    replaces its text by [t], keeps its sender and timestamp and the
    messages before it, and stores the new list. *)
Theorem update_last_bot_replaces_text s ls id ms m t :
  active_session s = Some id -> messages s = ms ++ [m] -> sender m = bot ->
  messages_safe (messages s) = true ->
  exists ls',
    chatReducer s ls (UPDATE_LAST_BOT_MESSAGE t) =
      Ok (set_messages s (ms ++ [mkMessage t bot (timestamp m)]), ls') /\
    read_messages ls' id = Ok (ms ++ [mkMessage t bot (timestamp m)]).
Proof.
  intros Ha Hms Hb Hs. cbn [chatReducer].
  destruct (updateLastBotMessage_cases s ls t id Ha) as [(ms' & m' & Hms' & Hb' & ->)|(Hl & _)].
  - rewrite Hms in Hms'. apply app_inj_tail in Hms' as [<- <-].
    unfold with_text. rewrite Hb. eexists. split; [reflexivity|].
    apply read_encode. rewrite Hms, messages_safe_app in Hs. rewrite messages_safe_app.
    apply andb_prop in Hs as [-> Hm]. exact Hm.
  - exfalso. rewrite Hms, last_is_bot_snoc, bool_decide_eq_true_2 in Hl by done.
    discriminate.
Qed.

(** C5: [UPDATE_LAST_BOT_MESSAGE] leaves state and store unchanged when
    the last message is the user's or there is no message. *)
Theorem update_last_not_bot_noop s ls t :
  last_is_bot (messages s) = false ->
  chatReducer s ls (UPDATE_LAST_BOT_MESSAGE t) = Ok (s, ls).
Proof.
  intros Hl. cbn [chatReducer]. destruct (active_session s) as [id|] eqn:Ha.
  - destruct (updateLastBotMessage_cases s ls t id Ha) as [(ms & m & Hms & Hb & _)|(_ & ->)];
      [|done].
    exfalso. rewrite Hms, last_is_bot_snoc, bool_decide_eq_true_2 in Hl by done.
    discriminate.
  - unfold updateLastBotMessage. by rewrite Ha.
Qed.

(** C6: [CLEAR_MESSAGES] in an active session empties the messages and
    removes the session's key, after which the session reads as empty;
    other sessions are untouched. *)
Theorem clear_messages_total s ls id :
  active_session s = Some id ->
  exists ls', chatReducer s ls CLEAR_MESSAGES = Ok (set_messages s [], ls') /\
    getItem (chat_key id) ls' = None /\ read_messages ls' id = Ok [] /\
    forall id', id' <> id -> read_messages ls' id' = read_messages ls id'.
Proof.
  intros Ha. eexists. cbn [chatReducer]. rewrite (clearMessages_active _ _ _ Ha).
  split_and!; [reflexivity | apply getItem_removeItem_eq | apply read_removed |].
  intros. by apply read_removeItem_other.
Qed.

(** C7: a reducer step changes the stored history of no session but the
    active one. *)
Theorem reducer_session_isolation s ls a s' ls' id :
  chatReducer s ls a = Ok (s', ls') -> active_session s <> Some id ->
  read_messages ls' id = read_messages ls id.
Proof.
  intros Hr Hne. destruct a as [id'|m|t|b|e|]; cbn [chatReducer] in Hr.
  - unfold setSessionId in Hr. case_match; by simplify_eq.
  - destruct (active_session s) as [ida|] eqn:Ha.
    + rewrite (addMessage_active _ _ _ _ Ha) in Hr. injection Hr as <- <-.
      apply read_setItem_other. congruence.
    + unfold addMessage in Hr. rewrite Ha in Hr. by injection Hr as <- <-.
  - destruct (active_session s) as [ida|] eqn:Ha.
    + destruct (updateLastBotMessage_cases s ls t ida Ha) as [(? & ? & _ & _ & Hu)|(_ & Hu)];
        rewrite Hu in Hr; injection Hr as <- <-; [|done].
      apply read_setItem_other. congruence.
    + unfold updateLastBotMessage in Hr. rewrite Ha in Hr. by injection Hr as <- <-.
  - by injection Hr as <- <-.
  - by injection Hr as <- <-.
  - destruct (active_session s) as [ida|] eqn:Ha.
    + rewrite (clearMessages_active _ _ _ Ha) in Hr. injection Hr as <- <-.
      apply read_removeItem_other. congruence.
    + unfold clearMessages in Hr. rewrite Ha in Hr. by injection Hr as <- <-.
Qed.

(** C8: a fresh store (a page reload) given the session id of a reached
    state loads that state's messages, in order. *)
Theorem reload_restores_history s ls id :
  reachable s ls -> active_session s = Some id ->
  chatReducer initialState ls (SET_SESSION_ID id) =
    Ok (mkChatState (Some id) (messages s) false None, ls).
Proof.
  intros Hr Ha. cbn [chatReducer]. unfold setSessionId.
  by rewrite (proj2 (reachable_Inv s ls Hr) id Ha).
Qed.

(** C9: [ADD_MESSAGE] actions dispatched in sequence leave the messages in
    dispatch order after the existing ones, and the stored history is the
    final list. *)
Theorem add_messages_in_order s ls id ms s' ls' :
  active_session s = Some id ->
  run_actions s ls (map ADD_MESSAGE ms) = Ok (s', ls') ->
  messages s' = messages s ++ ms /\ active_session s' = Some id /\
  (messages_safe (messages s ++ ms) = true -> ms <> [] ->
   read_messages ls' id = Ok (messages s')).
Proof.
  revert s ls. induction ms as [|m ms IH]; intros s ls Ha Hr.
  - cbn in Hr. injection Hr as <- <-. by rewrite app_nil_r.
  - cbn [map run_actions chatReducer] in Hr. rewrite (addMessage_active _ _ _ _ Ha) in Hr.
    destruct (IH (set_messages s (messages s ++ [m])) _ Ha Hr) as (Hm & Ha' & Hread).
    cbn [messages set_messages] in Hm, Hread. rewrite <- app_assoc in Hm, Hread.
    split_and!; [done | done |]. intros Hs _.
    destruct ms as [|m' ms].
    + cbn in Hr. injection Hr as <- <-. by apply read_encode.
    + by apply Hread.
Qed.

(** C10: React's StrictMode calls the reducer twice on the same state; the
    second call, made after the first one's storage writes, gives the same
    state and leaves the store as the first call left it. *)
Theorem reducer_strict_mode_idempotent s ls a s' ls' :
  chatReducer s ls a = Ok (s', ls') -> chatReducer s ls' a = Ok (s', ls').
Proof.
  intros Hr. destruct a as [id|m|t|b|e|]; cbn [chatReducer] in Hr |- *.
  - unfold setSessionId in Hr |- *.
    destruct (read_messages ls id) eqn:E; simplify_eq. by rewrite E.
  - destruct (active_session s) as [ida|] eqn:Ha.
    + rewrite (addMessage_active _ ls _ _ Ha) in Hr. injection Hr as <- <-.
      rewrite (addMessage_active _ _ _ _ Ha). by rewrite setItem_idem.
    + unfold addMessage in Hr |- *. rewrite Ha in Hr |- *. by injection Hr as <- <-.
  - destruct (active_session s) as [ida|] eqn:Ha.
    + destruct (updateLastBotMessage_cases s ls t ida Ha) as [(ms & m & Hms & Hb & Hu)|(_ & Hu)];
        rewrite Hu in Hr; injection Hr as <- <-.
      * destruct (updateLastBotMessage_cases s (setItem (chat_key ida)
          (encode_messages (ms ++ [with_text m t])) ls) t ida Ha)
          as [(ms' & m' & Hms' & _ & ->)|(Hl & _)].
        -- rewrite Hms in Hms'. apply app_inj_tail in Hms' as [<- <-].
           by rewrite setItem_idem.
        -- exfalso. rewrite Hms, last_is_bot_snoc, bool_decide_eq_true_2 in Hl by done.
    discriminate.
      * by rewrite Hu.
    + unfold updateLastBotMessage in Hr |- *. rewrite Ha in Hr |- *. by injection Hr as <- <-.
  - by injection Hr as <- <-.
  - by injection Hr as <- <-.
  - destruct (active_session s) as [ida|] eqn:Ha.
    + rewrite (clearMessages_active _ ls _ Ha) in Hr. injection Hr as <- <-.
      rewrite (clearMessages_active _ _ _ Ha). by rewrite removeItem_idem.
    + unfold clearMessages in Hr |- *. rewrite Ha in Hr |- *. by injection Hr as <- <-.
Qed.

(** ** Witnesses on concrete states *)

Definition demo_user : Message := mkMessage "Hi" user 1730000000000.
Definition demo_bot : Message := mkMessage "" bot 1730000000200.
Definition demo_state : ChatState := mkChatState (Some "s1") [demo_user; demo_bot] true None.
Definition demo_store : store := setItem (chat_key "s1") (encode_messages [demo_user]) ∅.

Lemma demo_reachable : reachable (mkChatState (Some "s1") [demo_user] false None) demo_store.
Proof.
  eapply (reachable_step (mkChatState (Some "s1") [] false None) ∅ (ADD_MESSAGE demo_user));
    [|reflexivity | reflexivity].
  eapply (reachable_step initialState ∅ (SET_SESSION_ID "s1"));
    [apply reachable_init | reflexivity | reflexivity].
Qed.

Lemma reachable_mirror_witness : read_messages demo_store "s1" = Ok [demo_user].
Proof.
  apply (reachable_mirror (mkChatState (Some "s1") [demo_user] false None) demo_store "s1");
    [apply demo_reachable | reflexivity].
Defined.

Lemma inactive_session_noop_witness :
  let s := mkChatState (Some "") [demo_user] false None in
  chatReducer s demo_store (ADD_MESSAGE demo_bot) = Ok (s, demo_store) /\
  chatReducer s demo_store (UPDATE_LAST_BOT_MESSAGE "x") = Ok (s, demo_store) /\
  chatReducer s demo_store CLEAR_MESSAGES = Ok (s, demo_store).
Proof. apply inactive_session_noop. reflexivity. Defined.

Lemma add_message_write_through_witness :
  exists ls', chatReducer demo_state ∅ (ADD_MESSAGE demo_user) =
      Ok (set_messages demo_state (messages demo_state ++ [demo_user]), ls') /\
    read_messages ls' "s1" = Ok (messages demo_state ++ [demo_user]) /\
    forall id', id' <> "s1" -> read_messages ls' id' = read_messages ∅ id'.
Proof. apply add_message_write_through; reflexivity. Defined.

Lemma update_last_bot_replaces_text_witness :
  exists ls',
    chatReducer demo_state ∅ (UPDATE_LAST_BOT_MESSAGE "Hello") =
      Ok (set_messages demo_state ([demo_user] ++ [mkMessage "Hello" bot (timestamp demo_bot)]), ls') /\
    read_messages ls' "s1" = Ok ([demo_user] ++ [mkMessage "Hello" bot (timestamp demo_bot)]).
Proof. apply (update_last_bot_replaces_text demo_state ∅ "s1" [demo_user] demo_bot); reflexivity. Defined.

Lemma update_last_not_bot_noop_witness :
  chatReducer (mkChatState (Some "s1") [demo_user] false None) demo_store
    (UPDATE_LAST_BOT_MESSAGE "Hello") =
  Ok (mkChatState (Some "s1") [demo_user] false None, demo_store).
Proof. apply update_last_not_bot_noop. reflexivity. Defined.

Lemma clear_messages_total_witness :
  exists ls', chatReducer demo_state demo_store CLEAR_MESSAGES = Ok (set_messages demo_state [], ls') /\
    getItem (chat_key "s1") ls' = None /\ read_messages ls' "s1" = Ok [] /\
    forall id', id' <> "s1" -> read_messages ls' id' = read_messages demo_store id'.
Proof. apply clear_messages_total. reflexivity. Defined.

Lemma reducer_session_isolation_witness :
  read_messages (setItem (chat_key "s1") (encode_messages [demo_user; demo_bot; demo_user]) demo_store) "s2" =
  read_messages demo_store "s2".
Proof.
  apply (reducer_session_isolation demo_state demo_store (ADD_MESSAGE demo_user)
           (set_messages demo_state [demo_user; demo_bot; demo_user])); [reflexivity | discriminate].
Defined.

Lemma reload_restores_history_witness :
  chatReducer initialState demo_store (SET_SESSION_ID "s1") =
    Ok (mkChatState (Some "s1") [demo_user] false None, demo_store).
Proof.
  apply (reload_restores_history (mkChatState (Some "s1") [demo_user] false None));
    [apply demo_reachable | reflexivity].
Defined.

Lemma add_messages_in_order_witness :
  exists s' ls', run_actions demo_state ∅ (map ADD_MESSAGE [demo_user; demo_bot]) = Ok (s', ls') /\
    messages s' = messages demo_state ++ [demo_user; demo_bot] /\ active_session s' = Some "s1" /\
    (messages_safe (messages demo_state ++ [demo_user; demo_bot]) = true -> [demo_user; demo_bot] <> [] ->
     read_messages ls' "s1" = Ok (messages s')).
Proof.
  do 2 eexists. split; [reflexivity|].
  eapply add_messages_in_order; reflexivity.
Defined.

Lemma reducer_strict_mode_idempotent_witness :
  exists s' ls', chatReducer demo_state ∅ (UPDATE_LAST_BOT_MESSAGE "Hi") = Ok (s', ls') /\
    chatReducer demo_state ls' (UPDATE_LAST_BOT_MESSAGE "Hi") = Ok (s', ls').
Proof.
  do 2 eexists. split; [reflexivity|].
  eapply reducer_strict_mode_idempotent; reflexivity.
Defined.

End ChatContext.
