(* ===== verification/StoreSpec.v ===== *)
(** * The conversation store against its specification

    The spec (section 4.2) describes the store as a table: per action a
    precondition, an effect on the state and a persistence side effect
    through the adapter of section 4.1.  [spec_step] is that table as a
    function on an abstract state whose persistence is a total map from
    session ids to message lists; [refines] relates it to a concrete state
    and a localStorage, through the adapter's [load] (the instance of
    ChatContext.v).  The proofs use only the laws of [PersistenceLaws], not
    the JSON encoding.

    Two readings of the table are fixed by the code: a session id is
    present when it is truthy (the empty string counts as absent), and
    the last message is replaced through [replace_last_bot], a reference
    definition on [last] and [removelast] that the reducer's index
    arithmetic ([length - 1], lookup and update by index) implements. *)

From Stdlib Require Import ZArith String List Lia.
From stdpp Require Import base list strings gmap.
From S2P Require Import Prelude JsString Storage ChatContext.

Module StoreSpec.
Import Storage ChatContext.

(** ** The abstract store *)

Record AbsStore : Type := mkAbs {
  a_session : option string;
  a_messages : list Message;
  a_loading : bool;
  a_error : option string;
  a_saved : string -> list Message
}.

(** The precondition "sessionId present". *)
Definition a_active (A : AbsStore) : option string :=
  match a_session A with
  | Some id => if JsString.truthy id then Some id else None
  | None => None
  end.

Definition upd_saved (f : string -> list Message) (id : string) (ms : list Message) :
  string -> list Message :=
  fun id' => if String.eqb id' id then ms else f id'.

(** Reference definition: the list with the last message's text replaced,
    when that message is the bot's. *)
Definition replace_last_bot (ms : list Message) (t : string) : option (list Message) :=
  match last ms with
  | Some m => if bool_decide (sender m = bot) then Some (removelast ms ++ [with_text m t]) else None
  | None => None
  end.

Definition with_messages (A : AbsStore) (id : string) (ms : list Message) : AbsStore :=
  mkAbs (a_session A) ms (a_loading A) (a_error A) (upd_saved (a_saved A) id ms).

(** The table of section 4.2. *)
Definition spec_step (A : AbsStore) (a : ChatAction) : AbsStore :=
  match a with
  | SET_SESSION_ID id => mkAbs (Some id) (a_saved A id) (a_loading A) (a_error A) (a_saved A)
  | ADD_MESSAGE m =>
      match a_active A with
      | Some id => with_messages A id (a_messages A ++ [m])
      | None => A
      end
  | UPDATE_LAST_BOT_MESSAGE t =>
      match a_active A, replace_last_bot (a_messages A) t with
      | Some id, Some ms => with_messages A id ms
      | _, _ => A
      end
  | SET_LOADING b => mkAbs (a_session A) (a_messages A) b (a_error A) (a_saved A)
  | SET_ERROR e => mkAbs (a_session A) (a_messages A) (a_loading A) e (a_saved A)
  | CLEAR_MESSAGES =>
      match a_active A with
      | Some id => with_messages A id []
      | None => A
      end
  end.

(** The abstract state of a concrete one: the same fields, and every
    session loads, through the adapter, as the abstract persistence says. *)
Definition refines (A : AbsStore) (s : ChatState) (ls : store) : Prop :=
  sessionId s = a_session A /\ messages s = a_messages A /\ loading s = a_loading A /\
  error s = a_error A /\ messages_safe (messages s) = true /\
  forall id, load ls id = Ok (a_saved A id).

(** The abstract state that a fresh page starts from over a store. *)
Definition init_abs (saved : string -> list Message) : AbsStore := mkAbs None [] false None saved.

(** ** Lemmas *)

Lemma a_active_refines A s ls : refines A s ls -> active_session s = a_active A.
Proof. intros (Hs & _). unfold active_session, a_active. by rewrite Hs. Qed.

Lemma replace_last_bot_snoc ms m t :
  replace_last_bot (ms ++ [m]) t =
    if bool_decide (sender m = bot) then Some (ms ++ [with_text m t]) else None.
Proof. unfold replace_last_bot. by rewrite last_snoc, removelast_last. Qed.

Lemma replace_last_bot_not ms t : last_is_bot ms = false -> replace_last_bot ms t = None.
Proof.
  unfold last_is_bot, replace_last_bot. destruct (last ms); [|done].
  intros ->. done.
Qed.

(** The persistence effect of a write-through: the written session loads
    the new list, the others load as before. *)
Lemma refines_save A ls id ms :
  (forall id', load ls id' = Ok (a_saved A id')) -> messages_safe ms = true ->
  forall id', load (save ls id ms) id' = Ok (upd_saved (a_saved A) id ms id').
Proof.
  intros Hl Hs id'. unfold upd_saved. destruct (String.eqb_spec id' id) as [->|Hne].
  - by apply load_save.
  - rewrite load_save_other by congruence. apply Hl.
Qed.

Lemma refines_clear A ls id :
  (forall id', load ls id' = Ok (a_saved A id')) ->
  forall id', load (clear ls id) id' = Ok (upd_saved (a_saved A) id [] id').
Proof.
  intros Hl id'. unfold upd_saved. destruct (String.eqb_spec id' id) as [->|Hne].
  - apply load_clear.
  - rewrite load_clear_other by congruence. apply Hl.
Qed.

(** One dispatch: the reducer does not fail and the result refines the
    table's result. *)
Lemma refines_step A s ls a :
  refines A s ls -> action_wf a = true ->
  exists s' ls', chatReducer s ls a = Ok (s', ls') /\ refines (spec_step A a) s' ls'.
Proof.
  intros HR Ha. pose proof (a_active_refines _ _ _ HR) as Hact.
  destruct HR as (Hs & Hm & Hl & He & Hsafe & Hload).
  destruct a as [id|m|t|b|e|]; cbn [chatReducer spec_step].
  - unfold setSessionId. change (read_messages ls id) with (load ls id). rewrite Hload.
    do 2 eexists. split; [reflexivity|]. split_and!; try done.
    eapply read_messages_safe. apply (Hload id).
  - rewrite <- Hact. destruct (active_session s) as [id|] eqn:E.
    + rewrite (addMessage_active _ _ _ _ E). do 2 eexists. split; [reflexivity|].
      assert (Hs' : messages_safe (messages s ++ [m]) = true)
        by (rewrite messages_safe_app, Hsafe; simpl in *; by rewrite Ha).
      rewrite Hm in Hs' |- *. split_and!; try done.
      exact (refines_save A ls id _ Hload Hs').
    + unfold addMessage. rewrite E. do 2 eexists. split; [reflexivity|]. by split_and!.
  - rewrite <- Hact. destruct (active_session s) as [id|] eqn:E.
    + destruct (updateLastBotMessage_cases s ls t id E) as [(ms & m & Hms & Hb & ->)|(Hlast & ->)].
      * rewrite <- Hm, Hms, replace_last_bot_snoc, bool_decide_eq_true_2 by done.
        do 2 eexists. split; [reflexivity|].
        assert (Hs' : messages_safe (ms ++ [with_text m t]) = true).
        { rewrite Hms, !messages_safe_app in Hsafe. apply andb_prop in Hsafe as [H1 H2].
          by rewrite messages_safe_app, H1. }
        split_and!; try done. exact (refines_save A ls id _ Hload Hs').
      * rewrite <- Hm, replace_last_bot_not by done.
        do 2 eexists. split; [reflexivity|]. by split_and!.
    + unfold updateLastBotMessage. rewrite E. do 2 eexists. split; [reflexivity|]. by split_and!.
  - do 2 eexists. split; [reflexivity|]. by split_and!.
  - do 2 eexists. split; [reflexivity|]. by split_and!.
  - rewrite <- Hact. destruct (active_session s) as [id|] eqn:E.
    + rewrite (clearMessages_active _ _ _ E). do 2 eexists. split; [reflexivity|].
      split_and!; try done. exact (refines_clear A ls id Hload).
    + unfold clearMessages. rewrite E. do 2 eexists. split; [reflexivity|]. by split_and!.
Qed.

Lemma refines_init (saved : string -> list Message) ls :
  (forall id, load ls id = Ok (saved id)) -> refines (init_abs saved) initialState ls.
Proof. intros H. by split_and!. Qed.

(** ** Properties *)

(** C24: refinement.  From any concrete state related to an abstract one
    (a fresh page over any store whose sessions all load), every sequence
    of well-formed dispatches runs without failure, and the state and store
    it reaches are related to the state the specification's table reaches
    by the same actions: sessions, messages, flags and every session's
    persisted history agree. *)
Theorem store_refines_spec A s ls acts :
  refines A s ls -> forallb action_wf acts = true ->
  exists s' ls', run_actions s ls acts = Ok (s', ls') /\
    refines (fold_left spec_step acts A) s' ls'.
Proof.
  revert A s ls. induction acts as [|a acts IH]; intros A s ls HR Hwf; simpl in *.
  - by do 2 eexists.
  - apply andb_prop in Hwf as [Ha Hwf].
    destruct (refines_step A s ls a HR Ha) as (s1 & ls1 & -> & HR1). exact (IH _ _ _ HR1 Hwf).
Qed.

(** The reducer's update of the last message, written with index
    arithmetic ([length - 1], lookup and update at that index), equals the
    reference definition on [last] and [removelast]: the messages with the
    last one's text replaced when it is the bot's, the state unchanged
    otherwise. *)
Theorem updateLastBotMessage_reference s ls t id :
  active_session s = Some id ->
  (updateLastBotMessage s ls t).1 =
    match replace_last_bot (messages s) t with
    | Some ms => set_messages s ms
    | None => s
    end.
Proof.
  intros Ha. destruct (updateLastBotMessage_cases s ls t id Ha) as [(ms & m & Hms & Hb & ->)|(Hl & ->)].
  - by rewrite Hms, replace_last_bot_snoc, bool_decide_eq_true_2.
  - by rewrite replace_last_bot_not.
Qed.

(** The bound of the write-through: saving a list and loading the
    session gives the list back exactly when every timestamp is a safe
    integer ([|t| <= 2^53 - 1]).  The bound comes from the model's integer
    timestamps: [Date.now()] stays far below it, and JavaScript's doubles
    read back any stored number. *)
Theorem save_load_exact_iff_safe (l : store) id ms :
  load (save l id ms) id = Ok ms <-> messages_safe ms = true.
Proof. split; [apply read_messages_safe | intros H; by apply (load_save (wf := fun ms => messages_safe ms = true))]. Qed.

(** ** Witnesses *)

Lemma store_refines_spec_witness :
  exists s' ls', run_actions initialState ∅
      [SET_SESSION_ID "s1"; ADD_MESSAGE demo_user; ADD_MESSAGE demo_bot;
       UPDATE_LAST_BOT_MESSAGE "Hello"; CLEAR_MESSAGES] = Ok (s', ls') /\
    refines (fold_left spec_step [SET_SESSION_ID "s1"; ADD_MESSAGE demo_user; ADD_MESSAGE demo_bot;
       UPDATE_LAST_BOT_MESSAGE "Hello"; CLEAR_MESSAGES] (init_abs (fun _ => []))) s' ls'.
Proof.
  apply store_refines_spec; [|reflexivity].
  apply refines_init. intros id. reflexivity.
Defined.

Lemma updateLastBotMessage_reference_witness :
  (updateLastBotMessage demo_state ∅ "Hello").1 =
    match replace_last_bot (messages demo_state) "Hello" with
    | Some ms => set_messages demo_state ms
    | None => demo_state
    end.
Proof. apply (updateLastBotMessage_reference demo_state ∅ "Hello" "s1"). reflexivity. Defined.

End StoreSpec.
