(* ===== verification/ChatInput.v ===== *)
(** * The input box: src/src/components/ChatInput.tsx

    The component keeps the text of the field ([useState('')], line 10)
    and calls the [sendMessage] prop from [handleSend] (lines 12-17), on
    the Enter key when [loading] is false (lines 27-31) and on the button,
    which is disabled while [loading] (line 33).  An event is modelled
    with the value of the [loading] prop at the time it happens; the
    result of a run is the field's text and the strings passed to
    [sendMessage], in order.  Rendering is not modelled beyond the
    button's label and its [disabled] flag. *)

From Stdlib Require Import String List.
From stdpp Require Import base list strings.
From S2P Require Import Prelude JsString.

Module ChatInput.

Inductive InputEvent : Type :=
| Change (value : string)     (* onChange: setInput(e.target.value) *)
| KeyDown (key : string)      (* onKeyDown *)
| ClickSend.                  (* onClick of the button *)

(** [handleSend]: the new text of the field and the string sent. *)
Definition handleSend (input : string) : string * option string :=
  if JsString.truthy (JsString.trim input) then ("", Some input) else (input, None).

Definition button_disabled (loading : bool) : bool := loading.

Definition button_label (loading : bool) : string := if loading then "Typing..." else "Send".

Definition onEvent (loading : bool) (input : string) (ev : InputEvent) : string * option string :=
  match ev with
  | Change v => (v, None)
  | KeyDown k => if String.eqb k "Enter" && negb loading then handleSend input else (input, None)
  | ClickSend => if button_disabled loading then (input, None) else handleSend input
  end.

(** Events in order, each with the [loading] prop of its render. *)
Fixpoint run_input (input : string) (evs : list (bool * InputEvent)) : string * list string :=
  match evs with
  | [] => (input, [])
  | (loading, ev) :: evs' =>
      let (input', sent) := onEvent loading input ev in
      let (final, rest) := run_input input' evs' in
      (final, match sent with Some m => m :: rest | None => rest end)
  end.

Lemma handleSend_sent input m : (handleSend input).2 = Some m -> m = input /\ JsString.truthy (JsString.trim m) = true.
Proof. unfold handleSend. destruct (JsString.truthy _) eqn:E; simpl; [by intros [= <-] | discriminate]. Qed.

Lemma onEvent_sent loading input ev m :
  (onEvent loading input ev).2 = Some m -> loading = false /\ JsString.truthy (JsString.trim m) = true.
Proof.
  destruct ev as [v|k|]; simpl; [discriminate| |].
  - destruct (String.eqb k "Enter"), loading; simpl; try discriminate. by intros [_ ->]%handleSend_sent.
  - destruct loading; simpl; [discriminate|]. by intros [_ ->]%handleSend_sent.
Qed.

Lemma run_input_sent input evs m :
  In m (run_input input evs).2 ->
  exists input' loading ev, In (loading, ev) evs /\ (onEvent loading input' ev).2 = Some m.
Proof.
  revert input. induction evs as [|[loading ev] evs IH]; intros input; simpl; [done|].
  destruct (onEvent loading input ev) as [input' sent] eqn:E.
  destruct (run_input input' evs) as [final rest] eqn:R. simpl.
  intros Hin. assert (Hrest : In m rest -> exists i l e, ((loading, ev) = (l, e) \/ In (l, e) evs) /\
                                          (onEvent l i e).2 = Some m).
  { intros Hr. specialize (IH input'). rewrite R in IH. destruct (IH Hr) as (i & l & e & ? & ?). eauto 10. }
  destruct sent as [m'|]; [destruct Hin as [<-|Hin]|]; auto.
  exists input, loading, ev. split; [by left | by rewrite E].
Qed.

(** C19: while the [loading] prop is true, no key and no click reaches
    [sendMessage]; this, not the callback's own guard, keeps one request
    in flight. *)
Theorem input_blocked_while_loading input evs :
  Forall (fun e => e.1 = true) evs -> (run_input input evs).2 = [].
Proof.
  intros Hall. destruct (run_input input evs).2 as [|m ms] eqn:E; [done|].
  destruct (run_input_sent input evs m) as (i & l & ev & Hin & Hs); [rewrite E; by left|].
  apply onEvent_sent in Hs as [Hl _].
  rewrite List.Forall_forall in Hall. specialize (Hall _ Hin). simpl in Hall. congruence.
Qed.

(** C20: every string passed to [sendMessage] is non-blank after
    trimming, and an event that sends the field's text clears the field. *)
Theorem input_sends_nonblank input evs :
  Forall (fun m => JsString.truthy (JsString.trim m) = true) (run_input input evs).2 /\
  (forall loading ev input' m, onEvent loading input ev = (input', Some m) -> input' = "" /\ m = input).
Proof.
  split.
  - apply List.Forall_forall. intros m Hm.
    destruct (run_input_sent input evs m Hm) as (i & l & ev & _ & Hs). apply onEvent_sent in Hs. exact (proj2 Hs).
  - intros loading ev input' m. destruct ev as [v|k|]; simpl; [discriminate| |].
    + destruct (String.eqb k "Enter" && negb loading); [|discriminate].
      unfold handleSend. destruct (JsString.truthy _); [by intros [= <- <-] | discriminate].
    + destruct (button_disabled loading); [discriminate|].
      unfold handleSend. destruct (JsString.truthy _); [by intros [= <- <-] | discriminate].
Qed.

(** ** Witnesses *)

Lemma input_blocked_while_loading_witness :
  (run_input "Hi" [(true, KeyDown "Enter"); (true, ClickSend)]).2 = [].
Proof. apply input_blocked_while_loading. repeat constructor. Defined.

End ChatInput.
