(* ===== verification/Chat.v ===== *)
(** * The conversation controller: src/src/pages/Chat.tsx

    [sendMessage] (lines 156-199) is an async function that only
    dispatches actions.  It is modelled as the list of its
    segments: the actions dispatched between two suspension points
    ([await]).  The first segment runs synchronously when the user sends;
    the next ones run when the delay, the request and each stream chunk
    resolve; the last one is the [finally] block (after the [catch] block
    when something threw).  [sendMessage] is the concatenation of its
    segments, and [interleave_after] puts other events (a route change,
    a dismissed notification) between two segments, as the browser's
    event loop may.

    The completion API is an input: [CreateFailed] when
    [groq.chat.completions.create] rejects, otherwise the chunks the stream
    yields and whether it ends or fails.  A chunk carries its first choice,
    absent when [choices] is empty (then [chunk.choices[0].delta] throws a
    TypeError, caught by the [catch]), and the choice's optional
    [delta.content].

    The callback is a [useCallback] with an empty dependency list, so it
    keeps the [state] of the render that created it: [sendMessage] takes
    that captured state as an argument, apart from the live state the
    actions run on.

    The two effects (lines 141-154) and the notification of the error
    (lines 203-212) are modelled as the actions they dispatch and the
    value they compute from the state; scrolling itself is I/O. *)

From Stdlib Require Import ZArith String Ascii List Lia.
From stdpp Require Import base list strings gmap.
From S2P Require Import Prelude JsString Json Storage ChatContext.

Module Chat.
Import Json Storage ChatContext.

(** ** Constants of src/src/common/consts.ts *)

(** [HELP_DETAILS]: the template literal, with its leading and trailing
    newline. *)
Definition HELP_DETAILS : string := "
### 🤖 AI Chat Features:
- 💬 **Real-time AI Chat:** Ask any question and receive instant responses.
- 🌙 **Dark/Light Mode:** Customize the theme in **Settings**.
- 🗑️ **Clear Chat History:** Delete past conversations for a specific session in **Settings**.
- 📂 **Session-Based Message Storage:** Messages are saved **per session ID** and automatically loaded when you revisit `/chat/:sessionId`.
- 🔍 **Help Command:** Type `/help` to see this message again.
".

Definition HELP_COMMAND : string := "/help".

Definition ERROR_MESSAGE : string := "Error fetching response from bot. Please try again.".

(** ** The completion API as an input *)

(** One chunk of the stream: [chunk.choices[0]] ([None] when the choice
    list is empty) and its [delta.content] ([None] when absent or null). *)
Record Chunk : Type := mkChunk {
  choice0 : option (option string)
}.

(** How the [for await] loop ends after the last chunk. *)
Inductive StreamEnd : Type :=
| Finished
| Failed.

Inductive Completion : Type :=
| CreateFailed
| Streamed (chunks : list Chunk) (ending : StreamEnd).

(** [chunk.choices[0].delta.content || ''], or [None] for the TypeError. *)
Definition chunkText (c : Chunk) : option string :=
  match choice0 c with
  | None => None
  | Some content =>
      Some (match content with
            | Some t => if JsString.truthy t then t else ""
            | None => ""
            end)
  end.

(** ** sendMessage *)

(** The [for await] loop from the accumulator [botResponse]: one segment
    per chunk, dispatching the accumulated text, and whether the loop
    threw. *)
Fixpoint stream_loop (botResponse : string) (cs : list Chunk) (e : StreamEnd) :
  list (list ChatAction) * bool :=
  match cs with
  | [] => ([], match e with Finished => false | Failed => true end)
  | c :: cs' =>
      match chunkText c with
      | None => ([], true)
      | Some t =>
          let r := botResponse +:+ t in
          let (segs, threw) := stream_loop r cs' e in
          ([UPDATE_LAST_BOT_MESSAGE r] :: segs, threw)
      end
  end.

(** The [try] block: the request, then the loop from [botResponse = ''];
    a rejected request throws before any chunk. *)
Definition try_block (o : Completion) : list (list ChatAction) * bool :=
  match o with
  | CreateFailed => ([], true)
  | Streamed cs e => stream_loop "" cs e
  end.

(** [catch] (when the block threw) and [finally]. *)
Definition finally_segment (threw : bool) : list ChatAction :=
  (if threw then [SET_ERROR (Some ERROR_MESSAGE)] else []) ++ [SET_LOADING false].

(** The segments of one call [sendMessage(input)], given the state the
    callback captured, the two [Date.now()] readings and the API's
    behaviour. *)
Definition sendMessage_segments (captured : ChatState) (input : string) (now1 now2 : Z)
    (o : Completion) : list (list ChatAction) :=
  if negb (JsString.truthy (JsString.trim input)) || loading captured then []
  else
    let userMessage := mkMessage input user now1 in
    if String.eqb (JsString.trim input) HELP_COMMAND then
      [[ADD_MESSAGE userMessage; ADD_MESSAGE (mkMessage HELP_DETAILS bot now2)]]
    else
      let (segs, threw) := try_block o in
      [ADD_MESSAGE userMessage; SET_LOADING true; ADD_MESSAGE (mkMessage "" bot now2)]
        :: segs ++ [finally_segment threw].

(** Everything the call dispatches, in order. *)
Definition sendMessage (captured : ChatState) (input : string) (now1 now2 : Z)
    (o : Completion) : list ChatAction :=
  concat (sendMessage_segments captured input now1 now2 o).

(** Other events [evs] run when the first [k] segments have run. *)
Definition interleave_after (k : nat) (evs : list ChatAction)
    (segs : list (list ChatAction)) : list ChatAction :=
  concat (take k segs) ++ evs ++ concat (drop k segs).

(** ** The rest of the component *)

(** The effect on [sessionId] of the route ([useParams], undefined when
    the segment is missing). *)
Definition session_effect (sessionId : option string) : list ChatAction :=
  match sessionId with
  | Some id => if JsString.truthy id then [SET_SESSION_ID id] else []
  | None => []
  end.

(** [scrollToBottom]: [scrollIntoView({ behavior: 'smooth' })] on the end
    marker, when it is mounted ([messagesEndRef.current]). *)
Inductive ScrollBehavior : Type :=
| smooth.

Definition scrollToBottom (endMounted : bool) : option ScrollBehavior :=
  if endMounted then Some smooth else None.

(** The effect on [state.messages]: whether it scrolls to the bottom,
    given [isTyping.current]. *)
Definition scroll_effect (ms : list Message) (isTyping : bool) : bool :=
  match last ms with
  | None => false
  | Some m =>
      match sender m with
      | user => true
      | bot => negb isTyping
      end
  end.

(** [open={Boolean(state.error)}] of the notification. *)
Definition snackbar_open (s : ChatState) : bool :=
  match error s with
  | Some e => JsString.truthy e
  | None => false
  end.

(** Both [onClose] handlers of the notification. *)
Definition snackbar_close : list ChatAction := [SET_ERROR None].

(** The bubble of a message: [msg.text === ''] shows the typing
    indicator, any other text its markdown. *)
Inductive Bubble : Type :=
| TypingIndicator
| Markdown (text : string).

(** One row of the message list (lines 215-239).  The time label
    ([toLocaleString]) depends on the locale and is kept as the raw
    timestamp. *)
Record Row : Type := mkRow {
  row_key : string;
  row_sender : Sender;
  avatar_src : string;
  avatar_alt : string;
  row_time : Z;
  bubble : Bubble
}.

Definition render_message (m : Message) : Row :=
  mkRow (sender_to_string (sender m) +:+ Json.Z_to_string (timestamp m)) (sender m)
    (match sender m with user => "/user-avatar.png" | bot => "/bot-avatar.png" end)
    (match sender m with user => "User" | bot => "Bot" end)
    (timestamp m)
    (if String.eqb (text m) "" then TypingIndicator else Markdown (text m)).

(** The page: the rows, the notification's [open] flag and the input
    box's [loading] prop. *)
Definition render (s : ChatState) : list Row * bool * bool :=
  (map render_message (messages s), snackbar_open s, loading s).

(** ** What the API's behaviour amounts to *)

(** The texts of the chunks read before the first one that throws. *)
Fixpoint ok_texts (cs : list Chunk) : list string :=
  match cs with
  | [] => []
  | c :: cs' =>
      match chunkText c with
      | Some t => t :: ok_texts cs'
      | None => []
      end
  end.

Fixpoint chunks_throw (cs : list Chunk) (e : StreamEnd) : bool :=
  match cs with
  | [] => match e with Finished => false | Failed => true end
  | c :: cs' =>
      match chunkText c with
      | Some _ => chunks_throw cs' e
      | None => true
      end
  end.

(** The fragments folded into the answer, and whether the [try] threw. *)
Definition fragments (o : Completion) : list string :=
  match o with
  | CreateFailed => []
  | Streamed cs _ => ok_texts cs
  end.

Definition completion_throws (o : Completion) : bool :=
  match o with
  | CreateFailed => true
  | Streamed cs e => chunks_throw cs e
  end.

(** The successive values of an accumulator [acc += t]. *)
Fixpoint accumulate (acc : string) (ts : list string) : list string :=
  match ts with
  | [] => []
  | t :: ts' => (acc +:+ t) :: accumulate (acc +:+ t) ts'
  end.

Definition str_concat (ts : list string) : string := foldr String.append "" ts.

Definition update_segments (rs : list string) : list (list ChatAction) :=
  map (fun r => [UPDATE_LAST_BOT_MESSAGE r]) rs.

(** The synchronous first segment of a call that reaches the API. *)
Definition first_segment (input : string) (now1 now2 : Z) : list ChatAction :=
  [ADD_MESSAGE (mkMessage input user now1); SET_LOADING true;
   ADD_MESSAGE (mkMessage "" bot now2)].

(** ** The segments *)

Lemma stream_loop_spec acc cs e :
  stream_loop acc cs e = (update_segments (accumulate acc (ok_texts cs)), chunks_throw cs e).
Proof.
  revert acc. induction cs as [|c cs IH]; intros acc; [done|]. simpl.
  destruct (chunkText c); [|done]. by rewrite IH.
Qed.

Lemma try_block_spec o :
  try_block o = (update_segments (accumulate "" (fragments o)), completion_throws o).
Proof. destruct o; [done | apply stream_loop_spec]. Qed.

Lemma sendMessage_segments_api captured input now1 now2 o :
  loading captured = false -> JsString.truthy (JsString.trim input) = true ->
  String.eqb (JsString.trim input) HELP_COMMAND = false ->
  sendMessage_segments captured input now1 now2 o =
    first_segment input now1 now2 :: update_segments (accumulate "" (fragments o)) ++
      [finally_segment (completion_throws o)].
Proof.
  intros Hl Ht Hh. unfold sendMessage_segments. rewrite Hl, Ht, Hh, try_block_spec. done.
Qed.

Lemma accumulate_length acc ts : length (accumulate acc ts) = length ts.
Proof. revert acc. induction ts; intros; simpl; auto. Qed.

Lemma accumulate_take acc ts j : take j (accumulate acc ts) = accumulate acc (take j ts).
Proof. revert acc j. induction ts as [|t ts IH]; intros acc [|j]; simpl; try done. by rewrite IH. Qed.

Lemma update_segments_take j rs : take j (update_segments rs) = update_segments (take j rs).
Proof. apply List.firstn_map. Qed.

Lemma str_concat_cons t ts : str_concat (t :: ts) = t +:+ str_concat ts.
Proof. reflexivity. Qed.

(** ** Runs of the segments *)

Lemma run_actions_app s ls a b :
  run_actions s ls (a ++ b) = res_bind (run_actions s ls a) (fun p => run_actions p.1 p.2 b).
Proof.
  revert s ls. induction a as [|x a IH]; intros s ls; [done|]. simpl.
  destruct (chatReducer s ls x) as [[s' ls']|]; [apply IH | done].
Qed.

Lemma with_text_text m : with_text m (text m) = m.
Proof. by destruct m. Qed.

Lemma with_text_twice m t t' : with_text (with_text m t) t' = with_text m t'.
Proof. reflexivity. Qed.

Lemma set_messages_twice s ms ms' : set_messages (set_messages s ms) ms' = set_messages s ms'.
Proof. reflexivity. Qed.

Lemma run_first_segment s ls id input now1 now2 :
  active_session s = Some id ->
  let ms1 := messages s ++ [mkMessage input user now1] in
  let ms2 := ms1 ++ [mkMessage "" bot now2] in
  run_actions s ls (first_segment input now1 now2) =
    Ok (mkChatState (sessionId s) ms2 true (error s),
        setItem (chat_key id) (encode_messages ms2) (setItem (chat_key id) (encode_messages ms1) ls)).
Proof.
  intros Ha. cbn [first_segment run_actions chatReducer].
  rewrite (addMessage_active _ _ _ _ Ha). cbn [run_actions chatReducer].
  rewrite (addMessage_active (setLoading (set_messages s _) true) _ _ _ Ha). done.
Qed.

(** Each segment of the stream replaces the text of the last message, the
    bot's, with the accumulated text, and writes only the active key. *)
Lemma run_updates s ls id ms m acc ts :
  active_session s = Some id -> messages s = ms ++ [m] -> sender m = bot ->
  ts <> [] \/ text m = acc ->
  exists ls', run_actions s ls (concat (update_segments (accumulate acc ts))) =
      Ok (set_messages s (ms ++ [with_text m (acc +:+ str_concat ts)]), ls') /\
    forall id', id' <> id -> read_messages ls' id' = read_messages ls id'.
Proof.
  unfold update_segments. revert s ls m acc.
  induction ts as [|t ts IH]; intros s ls m acc Ha Hms Hb Hm.
  - destruct Hm as [Hm|Hm]; [done|]. exists ls. cbn.
    rewrite string_app_nil_r, <- Hm, with_text_text, <- Hms, set_messages_id. by split.
  - cbn [accumulate map concat app run_actions chatReducer].
    destruct (updateLastBotMessage_cases s ls (acc +:+ t) id Ha)
      as [(ms' & m' & Hms' & _ & ->)|(Hl & _)].
    + rewrite Hms in Hms'. apply app_inj_tail in Hms' as [<- <-].
      destruct (IH (set_messages s (ms ++ [with_text m (acc +:+ t)])) (setItem (chat_key id)
                  (encode_messages (ms ++ [with_text m (acc +:+ t)])) ls) (with_text m (acc +:+ t))
                  (acc +:+ t) Ha eq_refl Hb (or_intror eq_refl)) as (ls' & Hrun & Hiso).
      exists ls'. rewrite Hrun, set_messages_twice, with_text_twice, str_concat_cons, string_app_assoc.
      split; [done|]. intros id' Hne. rewrite Hiso by done. apply read_setItem_other. congruence.
    + exfalso. rewrite Hms, last_is_bot_snoc, bool_decide_eq_true_2 in Hl by done. discriminate.
Qed.

Lemma run_finally s ls threw :
  run_actions s ls (finally_segment threw) =
    Ok (mkChatState (sessionId s) (messages s) false
          (if threw then Some ERROR_MESSAGE else error s), ls).
Proof. by destruct threw. Qed.

(** A call that passes the guards and is not [/help]: the user message and
    the answer made of the folded fragments, loading cleared, the error
    recorded when the [try] threw. *)
Lemma run_send captured input now1 now2 o s ls id :
  loading captured = false -> JsString.truthy (JsString.trim input) = true ->
  String.eqb (JsString.trim input) HELP_COMMAND = false -> active_session s = Some id ->
  exists ls', run_actions s ls (sendMessage captured input now1 now2 o) =
    Ok (mkChatState (sessionId s)
          (messages s ++ [mkMessage input user now1; mkMessage (str_concat (fragments o)) bot now2])
          false (if completion_throws o then Some ERROR_MESSAGE else error s), ls').
Proof.
  intros Hl Ht Hh Ha. unfold sendMessage. rewrite sendMessage_segments_api by done.
  rewrite concat_cons, run_actions_app, (run_first_segment _ _ id) by done. cbn [res_bind fst snd].
  rewrite concat_app, run_actions_app.
  destruct (run_updates (mkChatState (sessionId s) ((messages s ++ [mkMessage input user now1]) ++
              [mkMessage "" bot now2]) true (error s)) (setItem (chat_key id) (encode_messages
              ((messages s ++ [mkMessage input user now1]) ++ [mkMessage "" bot now2]))
              (setItem (chat_key id) (encode_messages (messages s ++ [mkMessage input user now1])) ls))
              id _ _ "" (fragments o) Ha eq_refl eq_refl (or_intror eq_refl)) as (ls' & -> & _).
  exists ls'. cbn [res_bind fst snd concat]. rewrite app_nil_r, run_finally.
  cbn. by rewrite <- app_assoc.
Qed.

(** ** The invariant along runs *)

Lemma Inv_of_mirror s ls id :
  active_session s = Some id -> read_messages ls id = Ok (messages s) ->
  messages_safe (messages s) = true -> Inv s ls.
Proof. intros Ha Hr Hs. split; [done|]. intros id'. rewrite Ha. by intros [= <-]. Qed.

Lemma run_actions_Inv s ls acts s' ls' :
  Inv s ls -> forallb action_wf acts = true -> run_actions s ls acts = Ok (s', ls') -> Inv s' ls'.
Proof.
  revert s ls. induction acts as [|a acts IH]; intros s ls HI Hwf Hr; simpl in *.
  - by simplify_eq.
  - apply andb_prop in Hwf as [Ha Hwf].
    destruct (chatReducer s ls a) as [[s1 ls1]|] eqn:E; [|discriminate].
    eapply IH; [eapply chatReducer_Inv| |]; eauto.
Qed.

Lemma run_actions_reachable s ls acts s' ls' :
  reachable s ls -> forallb action_wf acts = true -> run_actions s ls acts = Ok (s', ls') ->
  reachable s' ls'.
Proof.
  revert s ls. induction acts as [|a acts IH]; intros s ls HR Hwf Hr; simpl in *.
  - by simplify_eq.
  - apply andb_prop in Hwf as [Ha Hwf].
    destruct (chatReducer s ls a) as [[s1 ls1]|] eqn:E; [|discriminate].
    eapply IH; [eapply reachable_step| |]; eauto.
Qed.

Lemma update_segments_wf rs : forallb action_wf (concat (update_segments rs)) = true.
Proof. induction rs; simpl; auto. Qed.

Lemma sendMessage_wf captured input now1 now2 o :
  message_safe (mkMessage input user now1) = true -> message_safe (mkMessage "" bot now2) = true ->
  forallb action_wf (sendMessage captured input now1 now2 o) = true.
Proof.
  intros H1 H2. unfold message_safe in H1, H2. simpl in H1, H2.
  unfold sendMessage, sendMessage_segments. rewrite try_block_spec.
  repeat case_match; rewrite ?concat_cons, ?concat_app, ?forallb_app, ?update_segments_wf;
    simpl; unfold message_safe; simpl; rewrite ?H1, ?H2; try done.
  by destruct completion_throws.
Qed.

Lemma interleave_wf k evs segs :
  forallb action_wf evs = true -> forallb action_wf (concat segs) = true ->
  forallb action_wf (interleave_after k evs segs) = true.
Proof.
  intros He Hs. unfold interleave_after.
  rewrite <- (take_drop k segs), concat_app, forallb_app in Hs. apply andb_prop in Hs as [H1 H2].
  by rewrite !forallb_app, H1, He, H2.
Qed.

(** The active session after a run of well-formed actions that ends in a
    state with the same session reads back as the messages in memory. *)
Lemma run_mirror s ls acts s' ls' id :
  Inv s ls -> forallb action_wf acts = true -> run_actions s ls acts = Ok (s', ls') ->
  active_session s' = Some id -> read_messages ls' id = Ok (messages s').
Proof. intros HI Hwf Hr. apply (proj2 (run_actions_Inv _ _ _ _ _ HI Hwf Hr)). Qed.

(** ** Runs that cannot fail *)

Definition is_session_switch (a : ChatAction) : bool :=
  match a with SET_SESSION_ID _ => true | _ => false end.

Lemma run_actions_total s ls acts :
  forallb (fun a => negb (is_session_switch a)) acts = true -> exists p, run_actions s ls acts = Ok p.
Proof.
  revert s ls. induction acts as [|a acts IH]; intros s ls H; simpl in *; [by eexists|].
  apply andb_prop in H as [Ha H]. destruct a; try discriminate; cbn [chatReducer];
    repeat case_match; simplify_eq; eauto.
Qed.

Lemma sendMessage_snoc captured input now1 now2 o :
  loading captured = false -> JsString.truthy (JsString.trim input) = true ->
  String.eqb (JsString.trim input) HELP_COMMAND = false ->
  exists pre, sendMessage captured input now1 now2 o = pre ++ [SET_LOADING false] /\
    forallb (fun a => negb (is_session_switch a)) pre = true.
Proof.
  intros Hl Ht Hh. unfold sendMessage. rewrite sendMessage_segments_api by done.
  rewrite concat_cons, concat_app. cbn [concat]. rewrite app_nil_r.
  unfold finally_segment. rewrite !app_assoc. eexists. split; [reflexivity|].
  rewrite !forallb_app. simpl.
  assert (forall rs, forallb (fun a => negb (is_session_switch a)) (concat (update_segments rs)) = true)
    as ->; [by induction rs | by destruct completion_throws].
Qed.

Lemma messages_safe_snoc2 ms m1 m2 :
  messages_safe (ms ++ [m1; m2]) = true ->
  messages_safe ms = true /\ message_safe m1 = true /\ message_safe m2 = true.
Proof.
  rewrite messages_safe_app. simpl. rewrite andb_true_r.
  intros H. apply andb_prop in H as [H1 H2]. apply andb_prop in H2 as [H2 H3]. auto.
Qed.

(** ** Properties of sendMessage *)

Lemma run_send_mirror captured input now1 now2 o s ls id :
  loading captured = false -> JsString.truthy (JsString.trim input) = true ->
  String.eqb (JsString.trim input) HELP_COMMAND = false ->
  active_session s = Some id -> read_messages ls id = Ok (messages s) ->
  messages_safe (messages s ++ [mkMessage input user now1; mkMessage "" bot now2]) = true ->
  exists ls', run_actions s ls (sendMessage captured input now1 now2 o) =
      Ok (mkChatState (sessionId s) (messages s ++ [mkMessage input user now1;
            mkMessage (str_concat (fragments o)) bot now2]) false
            (if completion_throws o then Some ERROR_MESSAGE else error s), ls') /\
    read_messages ls' id = Ok (messages s ++ [mkMessage input user now1;
            mkMessage (str_concat (fragments o)) bot now2]).
Proof.
  intros Hl Ht Hh Ha Hr (Hs & Hu & Hp)%messages_safe_snoc2.
  destruct (run_send captured input now1 now2 o s ls id Hl Ht Hh Ha) as (ls' & Hrun).
  exists ls'. split; [done|].
  refine (run_mirror _ _ _ _ _ _ (Inv_of_mirror _ _ _ Ha Hr Hs) _ Hrun Ha).
  by apply sendMessage_wf.
Qed.

(** C11: a send whose request streams to the end (Scenario B): the
    messages end with the user message and one bot message holding the
    concatenation of the fragments in arrival order, loading is false, the
    error is left as it was, and the stored history reads back as the
    final messages. *)
Theorem send_stream_success captured input now1 now2 o s ls id :
  loading captured = false -> JsString.truthy (JsString.trim input) = true ->
  String.eqb (JsString.trim input) HELP_COMMAND = false ->
  active_session s = Some id -> read_messages ls id = Ok (messages s) ->
  messages_safe (messages s ++ [mkMessage input user now1; mkMessage "" bot now2]) = true ->
  completion_throws o = false ->
  exists ls', run_actions s ls (sendMessage captured input now1 now2 o) =
      Ok (mkChatState (sessionId s) (messages s ++ [mkMessage input user now1;
            mkMessage (str_concat (fragments o)) bot now2]) false (error s), ls') /\
    read_messages ls' id = Ok (messages s ++ [mkMessage input user now1;
            mkMessage (str_concat (fragments o)) bot now2]).
Proof.
  intros Hl Ht Hh Ha Hr Hs Ho.
  destruct (run_send_mirror captured input now1 now2 o s ls id Hl Ht Hh Ha Hr Hs) as (ls' & Hrun & Hread).
  rewrite Ho in Hrun. eauto.
Qed.

(** C12: a send whose request is rejected or whose stream fails, at a
    chunk without choices or by an error of the stream (Scenario C):
    the error is the fixed message, loading is false, and the bot
    message keeps the fragments folded before the failure, also in the
    stored history. *)
Theorem send_stream_failure captured input now1 now2 o s ls id :
  loading captured = false -> JsString.truthy (JsString.trim input) = true ->
  String.eqb (JsString.trim input) HELP_COMMAND = false ->
  active_session s = Some id -> read_messages ls id = Ok (messages s) ->
  messages_safe (messages s ++ [mkMessage input user now1; mkMessage "" bot now2]) = true ->
  completion_throws o = true ->
  exists ls', run_actions s ls (sendMessage captured input now1 now2 o) =
      Ok (mkChatState (sessionId s) (messages s ++ [mkMessage input user now1;
            mkMessage (str_concat (fragments o)) bot now2]) false (Some ERROR_MESSAGE), ls') /\
    read_messages ls' id = Ok (messages s ++ [mkMessage input user now1;
            mkMessage (str_concat (fragments o)) bot now2]).
Proof.
  intros Hl Ht Hh Ha Hr Hs Ho.
  destruct (run_send_mirror captured input now1 now2 o s ls id Hl Ht Hh Ha Hr Hs) as (ls' & Hrun & Hread).
  rewrite Ho in Hrun. eauto.
Qed.

(** C13: whatever the API does, a send that reaches it dispatches
    [SET_LOADING false] last and leaves loading false, with or without an
    active session ([finally]). *)
Theorem send_always_resets_loading captured input now1 now2 o s ls :
  loading captured = false -> JsString.truthy (JsString.trim input) = true ->
  String.eqb (JsString.trim input) HELP_COMMAND = false ->
  last (sendMessage captured input now1 now2 o) = Some (SET_LOADING false) /\
  exists s' ls', run_actions s ls (sendMessage captured input now1 now2 o) = Ok (s', ls') /\
    loading s' = false.
Proof.
  intros Hl Ht Hh. destruct (sendMessage_snoc captured input now1 now2 o Hl Ht Hh) as (pre & -> & Hpre).
  split; [apply last_snoc|].
  destruct (run_actions_total s ls pre Hpre) as [[s1 ls1] Hr1].
  rewrite run_actions_app, Hr1. cbn. by do 2 eexists.
Qed.

(** C14: the streaming fold (P4): after the first segment and the
    segments of the first [j] fragments, the bot message holds the
    concatenation of those [j] fragments, and loading is still true. *)
Theorem stream_fold_prefix captured input now1 now2 o s ls id j :
  loading captured = false -> JsString.truthy (JsString.trim input) = true ->
  String.eqb (JsString.trim input) HELP_COMMAND = false ->
  active_session s = Some id -> j <= length (fragments o) ->
  exists ls', run_actions s ls (concat (take (S j) (sendMessage_segments captured input now1 now2 o))) =
    Ok (mkChatState (sessionId s) (messages s ++ [mkMessage input user now1;
          mkMessage (str_concat (take j (fragments o))) bot now2]) true (error s), ls').
Proof.
  intros Hl Ht Hh Ha Hj. rewrite sendMessage_segments_api by done. cbn [take].
  rewrite take_app_le by (by unfold update_segments; rewrite length_map, accumulate_length).
  rewrite update_segments_take, accumulate_take.
  rewrite concat_cons, run_actions_app, (run_first_segment _ _ id) by done. cbn [res_bind fst snd].
  destruct (run_updates (mkChatState (sessionId s) ((messages s ++ [mkMessage input user now1]) ++
              [mkMessage "" bot now2]) true (error s)) (setItem (chat_key id) (encode_messages
              ((messages s ++ [mkMessage input user now1]) ++ [mkMessage "" bot now2]))
              (setItem (chat_key id) (encode_messages (messages s ++ [mkMessage input user now1])) ls))
              id _ _ "" (take j (fragments o)) Ha eq_refl eq_refl (or_intror eq_refl)) as (ls' & -> & _).
  exists ls'. unfold set_messages, with_text. cbn. by rewrite <- app_assoc.
Qed.

(** C15: [/help] (after trimming) is answered locally (Scenario A): the
    call dispatches exactly the user message and the help text, never the
    loading flag, and in an active session both are appended. *)
Theorem send_help_local captured input now1 now2 o s ls id :
  loading captured = false -> String.eqb (JsString.trim input) HELP_COMMAND = true ->
  active_session s = Some id ->
  sendMessage captured input now1 now2 o =
    [ADD_MESSAGE (mkMessage input user now1); ADD_MESSAGE (mkMessage HELP_DETAILS bot now2)] /\
  exists ls', run_actions s ls (sendMessage captured input now1 now2 o) =
    Ok (set_messages s (messages s ++ [mkMessage input user now1; mkMessage HELP_DETAILS bot now2]), ls').
Proof.
  intros Hl Hh Ha.
  assert (Hs : sendMessage captured input now1 now2 o =
    [ADD_MESSAGE (mkMessage input user now1); ADD_MESSAGE (mkMessage HELP_DETAILS bot now2)]).
  { unfold sendMessage, sendMessage_segments. rewrite Hl, Hh.
    apply String.eqb_eq in Hh. by rewrite Hh. }
  split; [done|]. rewrite Hs. cbn [run_actions chatReducer].
  rewrite (addMessage_active _ _ _ _ Ha). cbn [run_actions chatReducer].
  rewrite (addMessage_active (set_messages s _) _ _ _ Ha). eexists. cbn. by rewrite <- app_assoc.
Qed.

(** C16: a blank input, or a callback whose captured state is loading,
    dispatches nothing. *)
Theorem send_ignored_when_blank_or_busy captured input now1 now2 o :
  JsString.truthy (JsString.trim input) = false \/ loading captured = true ->
  sendMessage captured input now1 now2 o = [].
Proof.
  intros H. unfold sendMessage, sendMessage_segments.
  destruct H as [-> | ->]; [done|]. by rewrite orb_true_r.
Qed.

(** Whatever events with JSON-safe timestamps run between the
    segments of a send, the write-through invariant holds at the end: the
    active session's stored history reads back as the messages in memory. *)
Theorem send_interleavings_keep_mirror captured input now1 now2 o k evs s ls s' ls' id :
  reachable s ls -> message_safe (mkMessage input user now1) = true ->
  message_safe (mkMessage "" bot now2) = true -> forallb action_wf evs = true ->
  run_actions s ls (interleave_after k evs (sendMessage_segments captured input now1 now2 o)) =
    Ok (s', ls') ->
  active_session s' = Some id -> read_messages ls' id = Ok (messages s').
Proof.
  intros HR H1 H2 He Hr. apply (proj2 (reachable_Inv _ _ (run_actions_reachable _ _ _ _ _ HR
    (interleave_wf _ _ _ He (sendMessage_wf captured input now1 now2 o H1 H2)) Hr))).
Qed.

Lemma stream_rest_wf o :
  forallb action_wf (concat (update_segments (accumulate "" (fragments o)) ++
                             [finally_segment (completion_throws o)])) = true.
Proof. rewrite concat_app, forallb_app, update_segments_wf. by destruct completion_throws. Qed.

(** C17: a route change to another session [idB] while the request is
    pending (after the first segment) sends the stream's text to [idB]:
    it overwrites the text of [idB]'s last bot message, in memory and in
    [idB]'s stored history, while the session the user wrote in keeps
    the empty placeholder.  The spec says the stream keeps writing into
    the session captured at send time. *)
Theorem session_switch_mid_stream captured input now1 now2 o s ls idA idB msB mb :
  loading captured = false -> JsString.truthy (JsString.trim input) = true ->
  String.eqb (JsString.trim input) HELP_COMMAND = false ->
  active_session s = Some idA -> JsString.truthy idB = true -> idA <> idB ->
  read_messages ls idB = Ok (msB ++ [mb]) -> sender mb = bot -> fragments o <> [] ->
  messages_safe (messages s ++ [mkMessage input user now1; mkMessage "" bot now2]) = true ->
  exists ls', run_actions s ls (interleave_after 1 [SET_SESSION_ID idB]
                 (sendMessage_segments captured input now1 now2 o)) =
      Ok (mkChatState (Some idB) (msB ++ [with_text mb (str_concat (fragments o))]) false
            (if completion_throws o then Some ERROR_MESSAGE else error s), ls') /\
    read_messages ls' idB = Ok (msB ++ [with_text mb (str_concat (fragments o))]) /\
    read_messages ls' idA = Ok (messages s ++ [mkMessage input user now1; mkMessage "" bot now2]).
Proof.
  intros Hl Ht Hh Ha HtB Hne HB Hb Hf Hs.
  unfold interleave_after. rewrite sendMessage_segments_api by done. cbn [take drop concat].
  rewrite app_nil_r, run_actions_app, (run_first_segment _ _ idA) by done. cbn [res_bind fst snd].
  set (ms2 := (messages s ++ [mkMessage input user now1]) ++ [mkMessage "" bot now2]).
  set (ls1 := setItem (chat_key idA) (encode_messages ms2) _).
  assert (H1B : read_messages ls1 idB = Ok (msB ++ [mb]))
    by (unfold ls1; rewrite !read_setItem_other by done; exact HB).
  assert (H1A : read_messages ls1 idA = Ok (messages s ++ [mkMessage input user now1; mkMessage "" bot now2])).
  { unfold ls1. rewrite read_encode; unfold ms2; rewrite <- app_assoc; done. }
  set (sB := mkChatState (Some idB) (msB ++ [mb]) true (error s)).
  assert (HaB : active_session sB = Some idB) by (unfold active_session; cbn; by rewrite HtB).
  destruct (run_updates sB ls1 idB msB mb "" (fragments o) HaB eq_refl Hb (or_introl Hf))
    as (ls2 & Hupd & Hiso).
  set (final := msB ++ [with_text mb (str_concat (fragments o))]).
  assert (Hrest : run_actions sB ls1 (concat (update_segments (accumulate "" (fragments o)) ++
                    [finally_segment (completion_throws o)])) =
                  Ok (mkChatState (Some idB) final false
                        (if completion_throws o then Some ERROR_MESSAGE else error s), ls2)).
  { rewrite concat_app, run_actions_app, Hupd. cbn [res_bind fst snd concat].
    by rewrite app_nil_r, run_finally. }
  exists ls2. cbn [app run_actions chatReducer]. unfold setSessionId. rewrite H1B.
  split_and!; [exact Hrest | |].
  - refine (run_mirror _ _ _ _ _ idB (Inv_of_mirror _ _ _ HaB H1B _) (stream_rest_wf o) Hrest HaB).
    by eapply read_messages_safe.
  - rewrite Hiso by done. exact H1A.
Qed.

(** The [state.loading] guard reads the state captured by the
    callback, the first render's [initialState]: a second send made while
    the first one's request is pending, with loading true in the live
    state, is not refused.  It appends a second user message and a
    second placeholder after the first ones. *)
Theorem stale_guard_second_send input1 input2 now1 now2 now3 now4 o1 o2 s ls id :
  JsString.truthy (JsString.trim input1) = true -> String.eqb (JsString.trim input1) HELP_COMMAND = false ->
  JsString.truthy (JsString.trim input2) = true -> String.eqb (JsString.trim input2) HELP_COMMAND = false ->
  active_session s = Some id ->
  exists s1 ls1 s2 ls2,
    run_actions s ls (concat (take 1 (sendMessage_segments initialState input1 now1 now2 o1))) =
      Ok (s1, ls1) /\ loading s1 = true /\
    run_actions s1 ls1 (concat (take 1 (sendMessage_segments initialState input2 now3 now4 o2))) =
      Ok (s2, ls2) /\
    messages s2 = messages s ++ [mkMessage input1 user now1; mkMessage "" bot now2;
                                 mkMessage input2 user now3; mkMessage "" bot now4].
Proof.
  intros Ht1 Hh1 Ht2 Hh2 Ha.
  rewrite !sendMessage_segments_api by done. cbn [take concat]. rewrite !app_nil_r.
  rewrite (run_first_segment _ _ id) by done.
  do 4 eexists. split; [reflexivity|]. split; [reflexivity|].
  rewrite (run_first_segment _ _ id) by exact Ha.
  split; [reflexivity|]. cbn. by rewrite <- !app_assoc.
Qed.

(** C23: a send that gets no text before it ends (the request is
    rejected, the stream fails before its first fragment, or it yields
    only empty fragments) leaves the placeholder empty: once loading is
    false the page still shows the typing indicator as the last message,
    and the stored history holds the empty message, so a reload shows it
    again. *)
Theorem empty_answer_keeps_typing_indicator captured input now1 now2 o s ls id :
  loading captured = false -> JsString.truthy (JsString.trim input) = true ->
  String.eqb (JsString.trim input) HELP_COMMAND = false ->
  active_session s = Some id -> read_messages ls id = Ok (messages s) ->
  messages_safe (messages s ++ [mkMessage input user now1; mkMessage "" bot now2]) = true ->
  str_concat (fragments o) = "" ->
  exists s' ls', run_actions s ls (sendMessage captured input now1 now2 o) = Ok (s', ls') /\
    loading s' = false /\
    last (render s').1.1 = Some (render_message (mkMessage "" bot now2)) /\
    bubble (render_message (mkMessage "" bot now2)) = TypingIndicator /\
    read_messages ls' id = Ok (messages s').
Proof.
  intros Hl Ht Hh Ha Hr Hs He.
  destruct (run_send_mirror captured input now1 now2 o s ls id Hl Ht Hh Ha Hr Hs) as (ls' & Hrun & Hread).
  rewrite He in Hrun, Hread. do 2 eexists. split_and!; [exact Hrun | done | | done | exact Hread].
  cbn. rewrite map_app. cbn. by rewrite last_app_cons, last_cons, last_singleton.
Qed.

(** ** Witnesses: the scenarios of the spec on concrete inputs *)

Definition t_user : Z := 1730000000000.
Definition t_bot : Z := 1730000000100.
Definition session_s1 : ChatState := mkChatState (Some "s1") [] false None.

(** Scenario B: the stream yields [Hi ] and [there!] and ends. *)
Definition scenario_B : Completion :=
  Streamed [mkChunk (Some (Some "Hi ")); mkChunk (Some (Some "there!"))] Finished.

(** Scenario C: the stream yields [Par] and then fails. *)
Definition scenario_C : Completion := Streamed [mkChunk (Some (Some "Par"))] Failed.

(** A stream whose second chunk has no choice: the TypeError path. *)
Definition no_choice_stream : Completion :=
  Streamed [mkChunk (Some (Some "Par")); mkChunk None; mkChunk (Some (Some "lost"))] Finished.

(** Session [s2] already holds a question and its answer. *)
Definition store_s2 : store :=
  setItem (chat_key "s2") (encode_messages [mkMessage "Q" user 1; mkMessage "A" bot 2]) ∅.

Lemma send_stream_success_witness :
  str_concat (fragments scenario_B) = "Hi there!" /\
  exists ls', run_actions session_s1 ∅ (sendMessage initialState "Hi" t_user t_bot scenario_B) =
      Ok (mkChatState (sessionId session_s1) (messages session_s1 ++ [mkMessage "Hi" user t_user;
            mkMessage (str_concat (fragments scenario_B)) bot t_bot]) false (error session_s1), ls') /\
    read_messages ls' "s1" = Ok (messages session_s1 ++ [mkMessage "Hi" user t_user;
            mkMessage (str_concat (fragments scenario_B)) bot t_bot]).
Proof.
  split; [reflexivity|].
  apply (send_stream_success initialState "Hi" t_user t_bot scenario_B session_s1 ∅ "s1");
    reflexivity.
Defined.

Lemma send_stream_failure_witness :
  str_concat (fragments no_choice_stream) = "Par" /\
  exists ls', run_actions session_s1 ∅ (sendMessage initialState "Hi" t_user t_bot no_choice_stream) =
      Ok (mkChatState (sessionId session_s1) (messages session_s1 ++ [mkMessage "Hi" user t_user;
            mkMessage (str_concat (fragments no_choice_stream)) bot t_bot]) false
            (Some ERROR_MESSAGE), ls') /\
    read_messages ls' "s1" = Ok (messages session_s1 ++ [mkMessage "Hi" user t_user;
            mkMessage (str_concat (fragments no_choice_stream)) bot t_bot]).
Proof.
  split; [reflexivity|].
  apply (send_stream_failure initialState "Hi" t_user t_bot no_choice_stream session_s1 ∅ "s1");
    reflexivity.
Defined.

Lemma send_always_resets_loading_witness :
  last (sendMessage initialState "Hi" t_user t_bot scenario_C) = Some (SET_LOADING false) /\
  exists s' ls', run_actions initialState ∅ (sendMessage initialState "Hi" t_user t_bot scenario_C) =
    Ok (s', ls') /\ loading s' = false.
Proof. apply send_always_resets_loading; reflexivity. Defined.

Lemma stream_fold_prefix_witness :
  str_concat (take 1 (fragments scenario_B)) = "Hi " /\
  exists ls', run_actions session_s1 ∅
      (concat (take 2 (sendMessage_segments initialState "Hi" t_user t_bot scenario_B))) =
    Ok (mkChatState (sessionId session_s1) (messages session_s1 ++ [mkMessage "Hi" user t_user;
          mkMessage (str_concat (take 1 (fragments scenario_B))) bot t_bot]) true
          (error session_s1), ls').
Proof.
  split; [reflexivity|].
  apply (stream_fold_prefix initialState "Hi" t_user t_bot scenario_B session_s1 ∅ "s1" 1);
    [reflexivity | reflexivity | reflexivity | reflexivity | simpl; lia].
Defined.

Lemma send_help_local_witness :
  sendMessage initialState " /help " t_user t_bot CreateFailed =
    [ADD_MESSAGE (mkMessage " /help " user t_user); ADD_MESSAGE (mkMessage HELP_DETAILS bot t_bot)] /\
  exists ls', run_actions session_s1 ∅ (sendMessage initialState " /help " t_user t_bot CreateFailed) =
    Ok (set_messages session_s1 (messages session_s1 ++
          [mkMessage " /help " user t_user; mkMessage HELP_DETAILS bot t_bot]), ls').
Proof. apply (send_help_local initialState " /help " t_user t_bot CreateFailed session_s1 ∅ "s1"); reflexivity. Defined.

Lemma send_ignored_when_blank_or_busy_witness :
  sendMessage initialState (String (ascii_of_nat 9) " ") t_user t_bot scenario_B = [].
Proof. apply send_ignored_when_blank_or_busy. left. reflexivity. Defined.

Lemma send_interleavings_keep_mirror_witness :
  exists s' ls',
    run_actions session_s1 ∅ (interleave_after 1 [SET_ERROR None]
      (sendMessage_segments initialState "Hi" t_user t_bot scenario_C)) = Ok (s', ls') /\
    read_messages ls' "s1" = Ok (messages s').
Proof.
  do 2 eexists. split; [reflexivity|].
  eapply (send_interleavings_keep_mirror initialState "Hi" t_user t_bot scenario_C 1 [SET_ERROR None]
            session_s1 ∅); [| reflexivity | reflexivity | reflexivity | reflexivity | reflexivity].
  eapply (reachable_step initialState ∅ (SET_SESSION_ID "s1"));
    [apply reachable_init | reflexivity | reflexivity].
Defined.

Lemma session_switch_mid_stream_witness :
  exists ls', run_actions session_s1 store_s2 (interleave_after 1 [SET_SESSION_ID "s2"]
                 (sendMessage_segments initialState "Hi" t_user t_bot scenario_B)) =
      Ok (mkChatState (Some "s2") ([mkMessage "Q" user 1] ++
            [with_text (mkMessage "A" bot 2) (str_concat (fragments scenario_B))]) false
            (if completion_throws scenario_B then Some ERROR_MESSAGE else error session_s1), ls') /\
    read_messages ls' "s2" = Ok ([mkMessage "Q" user 1] ++
            [with_text (mkMessage "A" bot 2) (str_concat (fragments scenario_B))]) /\
    read_messages ls' "s1" = Ok (messages session_s1 ++ [mkMessage "Hi" user t_user; mkMessage "" bot t_bot]).
Proof.
  apply (session_switch_mid_stream initialState "Hi" t_user t_bot scenario_B session_s1 store_s2
           "s1" "s2" [mkMessage "Q" user 1] (mkMessage "A" bot 2));
    try reflexivity; discriminate.
Defined.

Lemma stale_guard_second_send_witness :
  exists s1 ls1 s2 ls2,
    run_actions session_s1 ∅ (concat (take 1 (sendMessage_segments initialState "Hi" t_user t_bot scenario_B))) =
      Ok (s1, ls1) /\ loading s1 = true /\
    run_actions s1 ls1 (concat (take 1 (sendMessage_segments initialState "Again" 1730000000200 1730000000300 scenario_B))) =
      Ok (s2, ls2) /\
    messages s2 = messages session_s1 ++ [mkMessage "Hi" user t_user; mkMessage "" bot t_bot;
                  mkMessage "Again" user 1730000000200; mkMessage "" bot 1730000000300].
Proof. apply (stale_guard_second_send _ _ _ _ _ _ _ _ session_s1 ∅ "s1"); reflexivity. Defined.

Lemma empty_answer_keeps_typing_indicator_witness :
  exists s' ls', run_actions session_s1 ∅ (sendMessage initialState "Hi" t_user t_bot CreateFailed) =
      Ok (s', ls') /\ loading s' = false /\
    last (render s').1.1 = Some (render_message (mkMessage "" bot t_bot)) /\
    bubble (render_message (mkMessage "" bot t_bot)) = TypingIndicator /\
    read_messages ls' "s1" = Ok (messages s').
Proof.
  apply (empty_answer_keeps_typing_indicator initialState "Hi" t_user t_bot CreateFailed session_s1 ∅ "s1");
    reflexivity.
Defined.

End Chat.
