(* ===== verification/SendOps.v ===== *)
(** * sendMessage as the operations it performs, and the page's scrolling

    src/src/pages/Chat.tsx lines 156-199, read operation by operation:
    the dispatches, the writes of the ref [isTyping] (lines 170 and 197),
    the explicit [scrollToBottom()] after the delay (line 172), the request
    to the completion API (lines 176-180) and every [await] (the delay, the
    request, each step of the [for await] loop).  [sendMessage_ops] lists
    them in order; its dispatches are those of [Chat.sendMessage]
    ([sendMessage_ops_dispatched]).

    React renders the batched updates only when the code yields, and not
    at every [await]: whether it has rendered by the [k]-th await of a
    call is the parameter [commits k] of Section [Run].  After a render
    whose [state.messages] is a new array, the effect of lines 147-154
    runs and scrolls when [scroll_effect] says so; [replaces_messages]
    says which reducer cases return a new array.  [run_call] runs the
    operations on a [Page] (the store's state, localStorage, the ref, the
    pending render and the scrolls so far) and renders at the end. *)

From Stdlib Require Import ZArith String List Lia.
From stdpp Require Import base list strings gmap.
From S2P Require Import Prelude JsString Json Storage ChatContext Chat.

Module SendOps.
Import Storage ChatContext Chat.
Local Open Scope chat_scope.

(** ** The client and the request *)

(** [new Groq({ apiKey: GROQ_API_KEY, dangerouslyAllowBrowser: true })]:
    the key comes from the build environment and ships to the browser. *)
Record GroqClient : Type := mkGroqClient {
  apiKey : option string;
  dangerouslyAllowBrowser : bool
}.

Definition groq (GROQ_API_KEY : option string) : GroqClient := mkGroqClient GROQ_API_KEY true.

(** The argument of [groq.chat.completions.create]: the model, the
    messages as (role, content) pairs, and [stream: true]. *)
Record CompletionRequest : Type := mkCompletionRequest {
  model : option string;
  request_messages : list (string * string);
  stream : bool
}.

Definition completion_request (GROQ_MODEL_NAME : option string) (input : string) :
  CompletionRequest :=
  mkCompletionRequest GROQ_MODEL_NAME [("user", input)] true.

(** ** The operations of one call *)

Inductive Op : Type :=
| Dispatch (a : ChatAction)
| SetTyping (b : bool)
| ScrollToBottom
| AwaitRequest (r : CompletionRequest)
| Await.

(** The [for await] loop from the accumulator: each step awaits the next
    chunk; the last await gives the end of the stream or its error. *)
Fixpoint loop_ops (botResponse : string) (cs : list Chunk) (e : StreamEnd) : list Op * bool :=
  match cs with
  | [] => ([Await], match e with Finished => false | Failed => true end)
  | c :: cs' =>
      match chunkText c with
      | None => ([Await], true)
      | Some t =>
          let r := botResponse +:+ t in
          let (ops, threw) := loop_ops r cs' e in
          (Await :: Dispatch (UPDATE_LAST_BOT_MESSAGE r) :: ops, threw)
      end
  end.

(** The [try] block: the awaited request, then the loop. *)
Definition try_ops (GROQ_MODEL_NAME : option string) (input : string) (o : Completion) :
  list Op * bool :=
  let req := AwaitRequest (completion_request GROQ_MODEL_NAME input) in
  match o with
  | CreateFailed => ([req], true)
  | Streamed cs e => let (ops, threw) := loop_ops "" cs e in (req :: ops, threw)
  end.

Definition sendMessage_ops (GROQ_MODEL_NAME : option string) (captured : ChatState)
    (input : string) (now1 now2 : Z) (o : Completion) : list Op :=
  if negb (JsString.truthy (JsString.trim input)) || loading captured then []
  else
    Dispatch (ADD_MESSAGE (mkMessage input user now1)) ::
    if String.eqb (JsString.trim input) HELP_COMMAND then
      [Dispatch (ADD_MESSAGE (mkMessage HELP_DETAILS bot now2))]
    else
      let (ops, threw) := try_ops GROQ_MODEL_NAME input o in
      [Dispatch (SET_LOADING true); Dispatch (ADD_MESSAGE (mkMessage "" bot now2));
       SetTyping true; Await; ScrollToBottom] ++ ops ++
      (if threw then [Dispatch (SET_ERROR (Some ERROR_MESSAGE))] else []) ++
      [Dispatch (SET_LOADING false); SetTyping false].

Definition dispatched (ops : list Op) : list ChatAction :=
  omap (fun op => match op with Dispatch a => Some a | _ => None end) ops.

Definition requests (ops : list Op) : list CompletionRequest :=
  omap (fun op => match op with AwaitRequest r => Some r | _ => None end) ops.

(** ** The page *)

Inductive ScrollCause : Type :=
| Explicit
| ByEffect.

Record Page : Type := mkPage {
  pg_state : ChatState;
  pg_ls : store;
  pg_typing : bool;
  pg_dirty : bool;
  pg_awaits : nat;
  pg_scrolls : list ScrollCause
}.

(** Whether the reducer case returns a new [messages] array: the cases
    guarded by [!state.sessionId] return [state] itself without a
    session; [SET_LOADING] and [SET_ERROR] copy the array reference. *)
Definition replaces_messages (s : ChatState) (a : ChatAction) : bool :=
  match a with
  | SET_SESSION_ID _ => true
  | ADD_MESSAGE _ | UPDATE_LAST_BOT_MESSAGE _ | CLEAR_MESSAGES =>
      bool_decide (active_session s <> None)
  | SET_LOADING _ | SET_ERROR _ => false
  end.

(** A render: when [state.messages] changed, the effect runs. *)
Definition commit (P : Page) : Page :=
  if pg_dirty P then
    mkPage (pg_state P) (pg_ls P) (pg_typing P) false (pg_awaits P)
      (pg_scrolls P ++ if scroll_effect (messages (pg_state P)) (pg_typing P) then [ByEffect] else [])
  else P.

Section Run.

(** Whether React has rendered by the [k]-th await of the call. *)
Variable commits : nat -> bool.

Definition at_await (P : Page) : Page :=
  let P' := mkPage (pg_state P) (pg_ls P) (pg_typing P) (pg_dirty P) (S (pg_awaits P)) (pg_scrolls P) in
  if commits (pg_awaits P) then commit P' else P'.

(** The end marker is mounted while the page is. *)
Definition step_op (P : Page) (op : Op) : result load_error Page :=
  match op with
  | Dispatch a =>
      let? (s', l') := chatReducer (pg_state P) (pg_ls P) a in
      Ok (mkPage s' l' (pg_typing P) (pg_dirty P || replaces_messages (pg_state P) a)
            (pg_awaits P) (pg_scrolls P))
  | SetTyping b => Ok (mkPage (pg_state P) (pg_ls P) b (pg_dirty P) (pg_awaits P) (pg_scrolls P))
  | ScrollToBottom =>
      Ok (mkPage (pg_state P) (pg_ls P) (pg_typing P) (pg_dirty P) (pg_awaits P)
            (pg_scrolls P ++ match scrollToBottom true with Some _ => [Explicit] | None => [] end))
  | AwaitRequest _ | Await => Ok (at_await P)
  end.

Fixpoint run_ops (P : Page) (ops : list Op) : result load_error Page :=
  match ops with
  | [] => Ok P
  | op :: ops' => let? P' := step_op P op in run_ops P' ops'
  end.

(** The call returns and React renders what is pending. *)
Definition run_call (P : Page) (ops : list Op) : result load_error Page :=
  let? P' := run_ops P ops in Ok (commit P').

End Run.

(** ** The operations against the segment model *)

Lemma loop_ops_spec acc cs e :
  dispatched (loop_ops acc cs e).1 = concat (stream_loop acc cs e).1 /\
  requests (loop_ops acc cs e).1 = [] /\
  (loop_ops acc cs e).2 = (stream_loop acc cs e).2.
Proof.
  revert acc. induction cs as [|c cs IH]; intros acc; [done|]. cbn.
  destruct (chunkText c); [|done].
  destruct (IH (acc +:+ s)) as (H1 & H2 & H3).
  destruct (loop_ops _ cs e), (stream_loop _ cs e). cbn in *. by rewrite H1, H2, H3.
Qed.

Lemma try_ops_spec m input o :
  dispatched (try_ops m input o).1 = concat (try_block o).1 /\
  requests (try_ops m input o).1 = [completion_request m input] /\
  (try_ops m input o).2 = (try_block o).2.
Proof.
  destruct o as [|cs e]; [done|]. cbn. destruct (loop_ops_spec "" cs e) as (H1 & H2 & H3).
  destruct (loop_ops "" cs e), (stream_loop "" cs e). cbn in *. by rewrite H1, H2, H3.
Qed.

(** The dispatches of the operations are those of the segment model. *)
Lemma sendMessage_ops_dispatched m captured input now1 now2 o :
  dispatched (sendMessage_ops m captured input now1 now2 o) = sendMessage captured input now1 now2 o.
Proof.
  unfold sendMessage_ops, sendMessage, sendMessage_segments.
  destruct (_ || _); [done|]. destruct (String.eqb _ _); [done|].
  destruct (try_ops_spec m input o) as (H1 & _ & H3).
  destruct (try_ops m input o) as [ops threw], (try_block o) as [segs threw']. cbn in *. subst threw'.
  unfold dispatched in *. rewrite !omap_app, H1. cbn. rewrite concat_app. cbn.
  by destruct threw.
Qed.

(** C35: a send asks the API once, with the model and the input alone,
    and a [/help], blank or refused send never asks it: the history in
    the state is never sent and a failed request is not retried (spec
    section 8, Completion API). *)
Lemma sendMessage_ops_requests m captured input now1 now2 o :
  requests (sendMessage_ops m captured input now1 now2 o) =
    if negb (JsString.truthy (JsString.trim input)) || loading captured
       || String.eqb (JsString.trim input) HELP_COMMAND
    then [] else [mkCompletionRequest m [("user", input)] true].
Proof.
  unfold sendMessage_ops. destruct (_ || _); [done|]. cbn.
  destruct (String.eqb _ _); [done|].
  destruct (try_ops_spec m input o) as (_ & H2 & _).
  destruct (try_ops m input o) as [ops threw]. cbn in *.
  unfold requests in *. rewrite !omap_app, H2. by destruct threw.
Qed.

(** ** Scrolling during a send *)

(** The operations that run while [isTyping] is set: the stream's
    updates, the flags, the awaits and the explicit scroll. *)
Definition quiet_op (op : Op) : bool :=
  match op with
  | Dispatch (UPDATE_LAST_BOT_MESSAGE _) | Dispatch (SET_LOADING _) | Dispatch (SET_ERROR _)
  | ScrollToBottom | AwaitRequest _ | Await => true
  | _ => false
  end.

Definition scroll_ops (ops : list Op) : list ScrollCause :=
  omap (fun op => match op with ScrollToBottom => Some Explicit | _ => None end) ops.

Definition is_await (op : Op) : bool :=
  match op with AwaitRequest _ | Await => true | _ => false end.

(** While [isTyping] is set, the last message is the bot's whenever a
    render is pending or a session is active. *)
Definition Quiet (P : Page) : Prop :=
  pg_typing P = true /\
  (pg_dirty P = true -> last_is_bot (messages (pg_state P)) = true) /\
  (active_session (pg_state P) <> None -> last_is_bot (messages (pg_state P)) = true).

Lemma scroll_effect_last_bot ms typing :
  last_is_bot ms = true -> scroll_effect ms typing = negb typing.
Proof.
  unfold last_is_bot, scroll_effect. destruct (last ms) as [m|]; [|done].
  case_bool_decide as Hb; [|done]. by rewrite Hb.
Qed.

Lemma commit_quiet P : Quiet P -> pg_scrolls (commit P) = pg_scrolls P /\ Quiet (commit P).
Proof.
  intros (Ht & Hd & Ha). unfold commit, Quiet. destruct (pg_dirty P) eqn:E; [|split_and!; [done | done | intros; congruence | done]].
  cbn. rewrite Ht, scroll_effect_last_bot by auto. cbn. rewrite app_nil_r.
  split; [done|]. split_and!; auto; discriminate.
Qed.

Lemma updateLastBotMessage_last_bot s ls t :
  last_is_bot (messages s) = true -> last_is_bot (messages (updateLastBotMessage s ls t).1) = true.
Proof.
  intros Hb. destruct (active_session s) as [id|] eqn:Ha;
    [|by unfold updateLastBotMessage; rewrite Ha].
  destruct (updateLastBotMessage_cases s ls t id Ha) as [(ms & m & _ & Hs & ->)|[_ ->]]; [|done].
  cbn. rewrite last_is_bot_snoc. by apply bool_decide_eq_true.
Qed.

Lemma updateLastBotMessage_inactive s ls t :
  active_session s = None -> updateLastBotMessage s ls t = (s, ls).
Proof. unfold updateLastBotMessage. by intros ->. Qed.

Lemma updateLastBotMessage_session s ls t :
  active_session (updateLastBotMessage s ls t).1 = active_session s.
Proof.
  unfold updateLastBotMessage. destruct (active_session s) eqn:Ha; [|done].
  repeat case_match; done.
Qed.

Section Scrolling.

Variable commits : nat -> bool.

Lemma step_quiet P op :
  Quiet P -> quiet_op op = true ->
  exists P', step_op commits P op = Ok P' /\ Quiet P' /\ pg_scrolls P' = pg_scrolls P ++ scroll_ops [op].
Proof.
  intros HQ Hop. destruct HQ as (Ht & Hd & Ha).
  destruct op as [[| |t|b|e|]|b| |r|]; try discriminate; cbn.
  - pose proof (updateLastBotMessage_session (pg_state P) (pg_ls P) t) as Hs.
    pose proof (updateLastBotMessage_last_bot (pg_state P) (pg_ls P) t) as Hb.
    destruct (active_session (pg_state P)) eqn:E.
    + assert (Hl : last_is_bot (messages (updateLastBotMessage (pg_state P) (pg_ls P) t).1) = true)
        by (apply Hb, Ha; discriminate).
      destruct (updateLastBotMessage _ _ _) as [s' l']. cbn in Hs, Hl.
      eexists. split; [reflexivity|]. rewrite app_nil_r. split; [|done]. by split_and!.
    + rewrite updateLastBotMessage_inactive by done. eexists. split; [reflexivity|].
      rewrite app_nil_r. split; [|done]. cbn. rewrite ?orb_false_r.
      by split_and!.
  - eexists. split; [reflexivity|]. rewrite app_nil_r. split; [|done].
    split_and!; [done | rewrite orb_false_r; exact Hd | exact Ha].
  - eexists. split; [reflexivity|]. rewrite app_nil_r. split; [|done].
    split_and!; [done | rewrite orb_false_r; exact Hd | exact Ha].
  - eexists. split; [reflexivity|]. split; [|done]. split_and!; done.
  - unfold at_await. eexists. split; [reflexivity|]. rewrite app_nil_r.
    destruct (commits _); [|by split_and!].
    destruct (commit_quiet (mkPage (pg_state P) (pg_ls P) (pg_typing P) (pg_dirty P)
                              (S (pg_awaits P)) (pg_scrolls P))) as [H1 H2]; [by split_and!|].
    by split.
  - unfold at_await. eexists. split; [reflexivity|]. rewrite app_nil_r.
    destruct (commits _); [|by split_and!].
    destruct (commit_quiet (mkPage (pg_state P) (pg_ls P) (pg_typing P) (pg_dirty P)
                              (S (pg_awaits P)) (pg_scrolls P))) as [H1 H2]; [by split_and!|].
    by split.
Qed.

Lemma run_ops_app P ops1 ops2 :
  run_ops commits P (ops1 ++ ops2) = let? P1 := run_ops commits P ops1 in run_ops commits P1 ops2.
Proof.
  revert P. induction ops1 as [|op ops1 IH]; intros P; [done|]. cbn.
  destruct (step_op commits P op); [apply IH | done].
Qed.

Lemma run_quiet P ops :
  Quiet P -> forallb quiet_op ops = true ->
  exists P', run_ops commits P ops = Ok P' /\ Quiet P' /\ pg_scrolls P' = pg_scrolls P ++ scroll_ops ops.
Proof.
  revert P. induction ops as [|op ops IH]; intros P HQ Hops.
  - exists P. by rewrite app_nil_r.
  - apply andb_prop in Hops as [Hop Hops].
    destruct (step_quiet P op HQ Hop) as (P1 & E1 & HQ1 & Hs1).
    destruct (IH P1 HQ1 Hops) as (P2 & E2 & HQ2 & Hs2).
    exists P2. cbn. rewrite E1. split_and!; [done | done |].
    rewrite Hs2, Hs1, <-app_assoc. by destruct op.
Qed.

End Scrolling.

Lemma loop_ops_shape acc cs e :
  forallb quiet_op (loop_ops acc cs e).1 = true /\ scroll_ops (loop_ops acc cs e).1 = [] /\
  exists pre, (loop_ops acc cs e).1 = pre ++ [Await].
Proof.
  revert acc. induction cs as [|c cs IH]; intros acc; [by split_and!; [..|exists []]|]. cbn.
  destruct (chunkText c); [|by split_and!; [..|exists []]].
  destruct (IH (acc +:+ s)) as (H1 & H2 & pre & H3).
  destruct (loop_ops _ cs e) as [ops threw]. cbn in *. subst ops.
  split_and!; [done | done |]. by exists (Await :: Dispatch (UPDATE_LAST_BOT_MESSAGE (acc +:+ s)) :: pre).
Qed.

Lemma try_ops_shape m input o :
  forallb quiet_op (try_ops m input o).1 = true /\ scroll_ops (try_ops m input o).1 = [] /\
  exists pre a, (try_ops m input o).1 = pre ++ [a] /\ is_await a = true.
Proof.
  destruct o as [|cs e]; cbn; [by split_and!; [..|exists [], (AwaitRequest (completion_request m input))]|].
  destruct (loop_ops_shape "" cs e) as (H1 & H2 & pre & H3).
  destruct (loop_ops "" cs e) as [ops threw]. cbn in *. subst ops.
  rewrite H1. split_and!; [done | done |].
  by exists (AwaitRequest (completion_request m input) :: pre), Await.
Qed.

(** The first segment of a send that reaches the API: the user message,
    the loading flag, the placeholder and [isTyping.current = true]. *)
Definition first_ops (input : string) (now1 now2 : Z) : list Op :=
  [Dispatch (ADD_MESSAGE (mkMessage input user now1)); Dispatch (SET_LOADING true);
   Dispatch (ADD_MESSAGE (mkMessage "" bot now2)); SetTyping true].

Lemma sendMessage_ops_stream m captured input now1 now2 o :
  JsString.truthy (JsString.trim input) = true ->
  String.eqb (JsString.trim input) HELP_COMMAND = false -> loading captured = false ->
  sendMessage_ops m captured input now1 now2 o =
    first_ops input now1 now2 ++
    ((Await :: ScrollToBottom :: (try_ops m input o).1 ++
      (if (try_ops m input o).2 then [Dispatch (SET_ERROR (Some ERROR_MESSAGE))] else []) ++
      [Dispatch (SET_LOADING false)]) ++ [SetTyping false]).
Proof.
  intros Ht Hh Hl. unfold sendMessage_ops. rewrite Ht, Hl, Hh. cbn.
  destruct (try_ops m input o) as [ops threw]. cbn. by rewrite <-!app_assoc.
Qed.

Lemma active_session_setLoading s b : active_session (setLoading s b) = active_session s.
Proof. done. Qed.

Section Commits.

Variable commits : nat -> bool.

Lemma run_first_ops P input now1 now2 :
  pg_dirty P = false ->
  exists P1, run_ops commits P (first_ops input now1 now2) = Ok P1 /\ Quiet P1 /\
    pg_scrolls P1 = pg_scrolls P.
Proof.
  intros Hd. unfold first_ops. cbn. unfold addMessage.
  rewrite ?active_session_setLoading, ?active_session_set_messages.
  destruct (active_session (pg_state P)) as [id|] eqn:Ha; cbn;
    rewrite ?active_session_setLoading, ?active_session_set_messages, ?Ha; cbn.
  - eexists. split; [reflexivity|]. split; [|done]. unfold Quiet. cbn.
    rewrite last_is_bot_snoc. split_and!; [done | intros _; reflexivity | intros _; reflexivity].
  - eexists. split; [reflexivity|]. split; [|done]. unfold Quiet. cbn.
    rewrite ?Hd, ?Ha. split_and!; [done | done | by intros []].
Qed.

Lemma run_ops_last_await P ops a P' :
  is_await a = true -> (forall k, commits k = true) ->
  run_ops commits P (ops ++ [a]) = Ok P' -> pg_dirty P' = false.
Proof.
  intros Ha Hc. rewrite run_ops_app. destruct (run_ops commits P ops) as [P1|]; [|done].
  cbn. destruct a; try discriminate; cbn; unfold at_await; rewrite Hc; intros [= <-];
    unfold commit; by case_match.
Qed.

Lemma run_stream_send P m captured input now1 now2 o :
  JsString.truthy (JsString.trim input) = true ->
  String.eqb (JsString.trim input) HELP_COMMAND = false -> loading captured = false ->
  pg_dirty P = false ->
  exists P2, run_call commits P (sendMessage_ops m captured input now1 now2 o) =
      Ok (commit (mkPage (pg_state P2) (pg_ls P2) false (pg_dirty P2) (pg_awaits P2) (pg_scrolls P2))) /\
    Quiet P2 /\ pg_scrolls P2 = pg_scrolls P ++ [Explicit] /\
    ((forall k, commits k = true) -> pg_dirty P2 = false).
Proof.
  intros Ht Hh Hl Hd.
  destruct (try_ops_shape m input o) as (Hq & Hs & pre & a & Hpre & Ha).
  destruct (run_first_ops P input now1 now2 Hd) as (P1 & E1 & HQ1 & Hs1).
  set (tail := (if (try_ops m input o).2 then [Dispatch (SET_ERROR (Some ERROR_MESSAGE))] else []) ++
               [Dispatch (SET_LOADING false)]).
  assert (Htq : forallb quiet_op tail = true /\ scroll_ops tail = [])
    by (unfold tail; by destruct (try_ops m input o).2).
  destruct (run_quiet commits P1 (Await :: ScrollToBottom :: pre ++ [a])) as (Pa & Ea & HQa & Hsa);
    [done | cbn; rewrite <-Hpre; by rewrite Hq|].
  destruct (run_quiet commits Pa tail HQa (proj1 Htq)) as (P2 & E2 & HQ2 & Hs2).
  assert (Hl' : sendMessage_ops m captured input now1 now2 o =
    first_ops input now1 now2 ++ ((Await :: ScrollToBottom :: pre ++ [a]) ++ tail) ++ [SetTyping false]).
  { rewrite sendMessage_ops_stream by done. unfold tail. rewrite Hpre. cbn. by rewrite <-!app_assoc. }
  exists P2. unfold run_call. rewrite Hl', run_ops_app, E1. cbn [res_bind].
  rewrite run_ops_app, run_ops_app, Ea. cbn [res_bind]. rewrite E2. cbn.
  split_and!; [done | done | |].
  - rewrite Hs2, Hsa, Hs1, (proj2 Htq). cbn. fold (scroll_ops (pre ++ [a])).
    rewrite <-Hpre, Hs. by rewrite !app_nil_r.
  - intros Hc.
    assert (Hda : pg_dirty Pa = false)
      by exact (run_ops_last_await P1 (Await :: ScrollToBottom :: pre) a Pa Ha Hc Ea).
    unfold tail in E2. destruct (try_ops m input o).2; cbn in E2; injection E2 as <-; cbn; by rewrite Hda.
Qed.

Lemma final_commit P2 :
  Quiet P2 ->
  pg_scrolls (commit (mkPage (pg_state P2) (pg_ls P2) false (pg_dirty P2) (pg_awaits P2) (pg_scrolls P2))) =
    pg_scrolls P2 ++ if pg_dirty P2 then [ByEffect] else [].
Proof.
  intros (_ & Hd & _). unfold commit. cbn. destruct (pg_dirty P2); [|by rewrite app_nil_r].
  by rewrite scroll_effect_last_bot by auto.
Qed.

(** C29: the page does not follow a streamed answer.  Whatever renders
    React interleaves with a send that reaches the API, the page scrolls
    once by the explicit [scrollToBottom()] after the delay, and the
    effect on [state.messages] scrolls at most once more, at the very end:
    every render while [isTyping.current] is set shows a bot message last
    and does not scroll, and clearing the ref renders nothing.  When React
    renders at every await, the only scroll is the explicit one, made
    while the answer is still empty. *)
Theorem streamed_answer_not_followed P m captured input now1 now2 o :
  JsString.truthy (JsString.trim input) = true ->
  String.eqb (JsString.trim input) HELP_COMMAND = false -> loading captured = false ->
  pg_dirty P = false ->
  exists P', run_call commits P (sendMessage_ops m captured input now1 now2 o) = Ok P' /\
    pg_typing P' = false /\
    (pg_scrolls P' = pg_scrolls P ++ [Explicit] \/ pg_scrolls P' = pg_scrolls P ++ [Explicit; ByEffect]) /\
    ((forall k, commits k = true) -> pg_scrolls P' = pg_scrolls P ++ [Explicit]).
Proof.
  intros Ht Hh Hl Hd.
  destruct (run_stream_send P m captured input now1 now2 o Ht Hh Hl Hd) as (P2 & E & HQ & Hs & Hc).
  eexists. split; [exact E|]. rewrite final_commit, Hs by done.
  split; [unfold commit; by case_match|]. split.
  - destruct (pg_dirty P2); [right | left]; by rewrite <-app_assoc.
  - intros Hall. by rewrite Hc, app_nil_r.
Qed.

(** The local [/help] answer, by contrast, is scrolled to: both
    messages render together and the effect sees the bot's answer last
    with [isTyping.current] unset. *)
Lemma help_answer_followed P m captured input now1 now2 o id :
  JsString.truthy (JsString.trim input) = true ->
  String.eqb (JsString.trim input) HELP_COMMAND = true -> loading captured = false ->
  active_session (pg_state P) = Some id -> pg_typing P = false ->
  exists P', run_call commits P (sendMessage_ops m captured input now1 now2 o) = Ok P' /\
    pg_scrolls P' = pg_scrolls P ++ [ByEffect].
Proof.
  intros Ht Hh Hl Ha Hty. unfold sendMessage_ops. rewrite Ht, Hl, Hh. cbn.
  unfold run_call. cbn. unfold addMessage. rewrite Ha. cbn.
  rewrite active_session_set_messages, Ha. cbn.
  eexists. split; [reflexivity|]. unfold commit. cbn.
  rewrite Hty, scroll_effect_last_bot by (rewrite last_is_bot_snoc; done).
  by rewrite ?orb_true_r.
Qed.

End Commits.

(** ** A send on a page of session [s1] *)

Definition page_s1 : Page := mkPage session_s1 ∅ false false 0 [].

(** React renders at every await but the one that ends the stream. *)
Definition batched_end (k : nat) : bool := negb (Nat.eqb k 4).

Lemma streamed_answer_not_followed_witness :
  (exists P', run_call (fun _ : nat => true) page_s1
                (sendMessage_ops (Some "llama") session_s1 "Hi" t_user t_bot scenario_B) = Ok P' /\
     pg_typing P' = false /\
     (pg_scrolls P' = pg_scrolls page_s1 ++ [Explicit] \/
      pg_scrolls P' = pg_scrolls page_s1 ++ [Explicit; ByEffect]) /\
     ((forall k, (fun _ : nat => true) k = true) -> pg_scrolls P' = pg_scrolls page_s1 ++ [Explicit])) /\
  option_map pg_scrolls (match run_call batched_end page_s1
     (sendMessage_ops (Some "llama") session_s1 "Hi" t_user t_bot scenario_B) with
     Ok P' => Some P' | Err _ => None end) = Some [Explicit; ByEffect].
Proof.
  split; [|vm_compute; reflexivity].
  apply (streamed_answer_not_followed (fun _ : nat => true)); reflexivity.
Defined.

End SendOps.
