(* ===== verification/Theme.v ===== *)
(** * The theme: src/src/context/ThemeContext.tsx

    [ThemeProviderWrapper] keeps one flag, [darkMode] (line 13, initially
    false), in React state and mirrors it in localStorage under [theme]:
    the first effect (lines 15-18) reads the key once at mount, the second
    (lines 20-22) writes the flag whenever it changed, and [toggleTheme]
    (lines 24-28) writes the new value itself and flips the flag.

    Effects run after a render, in declaration order, and the second one
    only when [darkMode] differs from the previous render's.  [mount] is
    the first render's two effects and the re-render they cause;
    [toggle_commit] is a toggle handled in the current render followed by
    the re-render's effect.  The palette (lines 30-41) is a pure function
    of the flag and is not modelled. *)

From Stdlib Require Import String List.
From stdpp Require Import base list strings gmap.
From S2P Require Import Prelude JsString Storage ChatContext.

Module Theme.
Import Storage ChatContext.

Definition theme_name (darkMode : bool) : string := if darkMode then "dark" else "light".

(** [(localStorage.getItem('theme') || 'light') === 'dark']. *)
Definition loadTheme (ls : store) : bool :=
  let savedTheme :=
    match getItem theme_key ls with
    | Some v => if JsString.truthy v then v else "light"
    | None => "light"
    end in
  String.eqb savedTheme "dark".

(** The effect on [darkMode]. *)
Definition persistTheme (darkMode : bool) (ls : store) : store :=
  setItem theme_key (theme_name darkMode) ls.

(** [toggleTheme] called in a render that showed [rendered]: the written
    value comes from the closure, the new flag from the updater. *)
Definition toggleTheme (rendered current : bool) (ls : store) : bool * store :=
  let newTheme := if negb rendered then "dark" else "light" in
  (negb current, setItem theme_key newTheme ls).

(** Mount: the first render shows [false]; the load effect schedules the
    stored flag, the persist effect writes the first render's [false];
    when the flag changed, the second render's persist effect writes it. *)
Definition mount (ls : store) : bool * store :=
  let d := loadTheme ls in
  let ls1 := persistTheme false ls in
  if Bool.eqb d false then (d, ls1) else (d, persistTheme d ls1).

(** A click handled in the render showing [d], and the re-render. *)
Definition toggle_commit (d : bool) (ls : store) : bool * store :=
  let (d', ls') := toggleTheme d d ls in
  (d', if Bool.eqb d' d then ls' else persistTheme d' ls').

(** The mount under [StrictMode] (src/src/main.tsx line 9) in
    development: React runs the two mount effects, destroys them and runs
    them again before it re-renders, every run with the first render's
    [darkMode = false]; the flags the two loads scheduled then apply in
    order, and the last one wins. *)
Definition mount_strict (ls : store) : bool * store :=
  let d1 := loadTheme ls in
  let ls1 := persistTheme false ls in
  let d2 := loadTheme ls1 in
  let ls2 := persistTheme false ls1 in
  let d := List.last [d1; d2] false in
  if Bool.eqb d false then (d, ls2) else (d, persistTheme d ls2).

Fixpoint toggles (n : nat) (d : bool) (ls : store) : bool * store :=
  match n with
  | 0 => (d, ls)
  | S n' => let (d', ls') := toggle_commit d ls in toggles n' d' ls'
  end.

(** ** Lemmas *)

Lemma loadTheme_persist d ls : loadTheme (persistTheme d ls) = d.
Proof. unfold loadTheme, persistTheme. rewrite getItem_setItem_eq. by destruct d. Qed.

Lemma persistTheme_twice d ls : persistTheme d (persistTheme d ls) = persistTheme d ls.
Proof. unfold persistTheme, setItem. by rewrite insert_insert. Qed.

Lemma toggle_commit_spec d ls : toggle_commit d ls = (negb d, persistTheme (negb d) (setItem theme_key (theme_name (negb d)) ls)).
Proof. by destruct d. Qed.

Lemma mount_spec ls : exists ls', mount ls = (loadTheme ls, persistTheme (loadTheme ls) ls').
Proof. unfold mount. destruct (loadTheme ls); simpl; eauto. Qed.

Lemma mount_fst ls : (mount ls).1 = loadTheme ls.
Proof. unfold mount. by destruct (Bool.eqb _ _). Qed.

Lemma read_messages_theme ls v id : read_messages (setItem theme_key v ls) id = read_messages ls id.
Proof. unfold read_messages. by rewrite getItem_setItem_ne by apply theme_key_not_chat. Qed.

Lemma mount_history ls id : read_messages (mount ls).2 id = read_messages ls id.
Proof. unfold mount, persistTheme. destruct (Bool.eqb _ _); simpl; by rewrite ?read_messages_theme. Qed.

Lemma toggles_spec n d ls :
  exists ls', toggles n d ls = (Nat.iter n negb d, ls') /\
    (n <> 0 -> loadTheme ls' = Nat.iter n negb d) /\
    forall id, read_messages ls' id = read_messages ls id.
Proof.
  revert d ls. induction n as [|n IH]; intros d ls; cbn [toggles Nat.iter].
  - exists ls. split_and!; [done | done | done].
  - rewrite toggle_commit_spec. destruct (IH (negb d) (persistTheme (negb d)
      (setItem theme_key (theme_name (negb d)) ls))) as (ls' & Ht & Hl & Hh).
    exists ls'. rewrite Ht, Nat.iter_swap. split_and!; [done| |].
    + intros _. destruct n as [|n]; [|rewrite Nat.iter_swap in Hl; by apply Hl].
      cbn in Ht. injection Ht as <-. apply loadTheme_persist.
    + intros id. rewrite Hh. unfold persistTheme. by rewrite !read_messages_theme.
Qed.

(** ** Properties *)

(** C21: after the mount and any number of toggles the stored theme reads
    back, on the next load, as the flag shown; a reload therefore keeps
    the theme the user chose. *)
Theorem theme_reload_restores ls n :
  let (d, ls') := toggles n (mount ls).1 (mount ls).2 in
  (mount ls').1 = d /\ d = Nat.iter n negb (loadTheme ls).
Proof.
  destruct (mount_spec ls) as (ls0 & Hm). rewrite Hm. cbn [fst snd].
  destruct (toggles_spec n (loadTheme ls) (persistTheme (loadTheme ls) ls0)) as (ls' & Ht & Hl & _).
  rewrite Ht. split; [|done]. rewrite mount_fst. destruct n as [|n]; [|by apply Hl].
  cbn in Ht. injection Ht as <-. apply loadTheme_persist.
Qed.

(** The mount and the toggles leave every session's stored history as it
    was. *)
Theorem theme_never_touches_history ls n id :
  read_messages (toggles n (mount ls).1 (mount ls).2).2 id = read_messages ls id.
Proof.
  destruct (toggles_spec n (mount ls).1 (mount ls).2) as (ls' & -> & _ & Hh).
  by rewrite Hh, mount_history.
Qed.

(** C34: in development, under [StrictMode], a reload always comes back
    light and overwrites a stored ['dark']: the second run of the load
    effect reads the ['light'] that the first run of the persist effect
    wrote.  A production mount keeps the stored theme. *)
Theorem strict_mode_reload_forgets_dark ls :
  mount_strict ls = (false, persistTheme false ls) /\ (mount ls).1 = loadTheme ls.
Proof.
  split; [|apply mount_fst]. unfold mount_strict.
  by rewrite loadTheme_persist, persistTheme_twice.
Qed.

End Theme.
