(* ===== verification/Settings.v ===== *)
(** * The settings dialog and the routing around it

    src/src/components/SettingsModal.tsx: the dialog reads
    [state.sessionId] (line 38), disables the clear button without a
    session (line 93) and, on confirmation, dispatches [CLEAR_MESSAGES]
    and reports success, or reports an error when there is no session
    ([confirmClearChatHistory], lines 57-70).  Its local state (the
    notification and the confirmation dialog, lines 33-36) is the record
    [SettingsUi].

    src/src/components/Header.tsx ([openSettings], lines 35-37) navigates
    to [?settings=true]; src/src/App.tsx shows the dialog when the query
    string contains [settings=true] (line 18); the dialog's [closeModal]
    (lines 40-43) deletes the [settings] parameter.  The query string is
    the list of its parameters; [search_of] writes it as
    [URLSearchParams.toString] does for parameters that need no
    percent-encoding (letters, digits and [-._]), prefixed by [?]. *)

From Stdlib Require Import String List.
From stdpp Require Import base list strings gmap.
From S2P Require Import Prelude JsString Storage ChatContext.

Module Settings.
Import Storage ChatContext.

(** ** The dialog *)

(** [snackbarSeverity]: ['success' | 'error']. *)
Inductive Severity : Type :=
| sev_success
| sev_error.

Record SettingsUi : Type := mkSettingsUi {
  snackbarOpen : bool;
  snackbarMessage : string;
  snackbarSeverity : Severity;
  dialogOpen : bool
}.

Definition initialUi : SettingsUi := mkSettingsUi false "" sev_success false.

(** [!sessionId] of the dialog. *)
Definition has_session (sessionId : option string) : bool :=
  match sessionId with
  | Some id => JsString.truthy id
  | None => false
  end.

Definition clear_button_disabled (s : ChatState) : bool := negb (has_session (sessionId s)).

Definition openDialog (ui : SettingsUi) : SettingsUi :=
  mkSettingsUi (snackbarOpen ui) (snackbarMessage ui) (snackbarSeverity ui) true.

Definition closeDialog (ui : SettingsUi) : SettingsUi :=
  mkSettingsUi (snackbarOpen ui) (snackbarMessage ui) (snackbarSeverity ui) false.

Definition handleSnackbarClose (ui : SettingsUi) : SettingsUi :=
  mkSettingsUi false (snackbarMessage ui) (snackbarSeverity ui) (dialogOpen ui).

(** The new dialog state and the actions dispatched. *)
Definition confirmClearChatHistory (s : ChatState) (ui : SettingsUi) : SettingsUi * list ChatAction :=
  if negb (has_session (sessionId s)) then
    (mkSettingsUi true "No chat session found!" sev_error (dialogOpen ui), [])
  else
    (closeDialog (mkSettingsUi true "Chat history cleared successfully!" sev_success (dialogOpen ui)),
     [CLEAR_MESSAGES]).

(** ** The query string *)

Abbreviation params := (list (string * string)).

Fixpoint join_params (ps : params) : string :=
  match ps with
  | [] => ""
  | [(k, v)] => k +:+ "=" +:+ v
  | (k, v) :: ps' => k +:+ "=" +:+ v +:+ "&" +:+ join_params ps'
  end.

Definition search_of (ps : params) : string :=
  match ps with
  | [] => ""
  | _ => "?" +:+ join_params ps
  end.

(** [navigate('?settings=true')]. *)
Definition openSettings : params := [("settings", "true")].

(** [searchParams.delete('settings')]. *)
Definition closeModal (ps : params) : params := filter (fun kv => negb (String.eqb kv.1 "settings")) ps.

(** [location.search.includes('settings=true')]. *)
Definition settings_visible (search : string) : bool :=
  match String.index 0 "settings=true" search with
  | Some _ => true
  | None => false
  end.

(** ** Properties *)

Lemma has_session_active s : has_session (sessionId s) = bool_decide (active_session s <> None).
Proof. unfold has_session, active_session. destruct (sessionId s); [case_match|]; done. Qed.

(** C22: the dialog reports success exactly when the reducer clears: the
    confirmation dispatches [CLEAR_MESSAGES] only with an active session,
    and then the messages are empty and the session's stored history
    reads back empty; without one it dispatches nothing, changes nothing
    and shows the error. *)
Theorem confirm_clear_reports_truthfully s ls ui :
  let (ui', acts) := confirmClearChatHistory s ui in
  snackbarOpen ui' = true /\
  exists s' ls', run_actions s ls acts = Ok (s', ls') /\
    (snackbarSeverity ui' = sev_success <->
     exists id, active_session s = Some id /\ messages s' = [] /\ read_messages ls' id = Ok []) /\
    (snackbarSeverity ui' = sev_error -> s' = s /\ ls' = ls).
Proof.
  unfold confirmClearChatHistory. rewrite has_session_active.
  destruct (active_session s) as [id|] eqn:Ha; simpl.
  - split; [done|]. rewrite (clearMessages_active _ _ _ Ha). do 2 eexists.
    split_and!; [reflexivity | | discriminate]. split; [|done]. intros _.
    exists id. split_and!; [done | done | apply read_removed].
  - split; [done|]. do 2 eexists. split_and!; [reflexivity | | done].
    split; [discriminate|]. by intros (id & ? & _).
Qed.

(** The query-string test matches [settings=true] anywhere: a parameter
    whose name ends in [settings] keeps the dialog open after
    [closeModal]. *)
Lemma closeModal_suffix_key_stays_visible :
  settings_visible (search_of (closeModal [("asettings", "true"); ("settings", "true")])) = true.
Proof. reflexivity. Qed.

End Settings.
