(* ===== verification/Style.v ===== *)
(** * Styles that depend on the state

    The styled components interpolate the theme flag and the sender into
    their CSS: [ChatContainer], [MessagesContainer], [MessageRow],
    [MessageBubble] and [Timestamp] (src/src/pages/Chat.tsx lines 62-126),
    [HeaderContainer] (src/src/components/Header.tsx lines 8-19) and
    [ModalContainer] (src/src/components/SettingsModal.tsx lines 10-26);
    [ThemeProviderWrapper] builds the MUI palette from the flag
    (src/src/context/ThemeContext.tsx lines 30-41).  A component's CSS is
    the list of its rules, a rule a selector ([&] for the component
    itself) and its declarations in source order, with the interpolations
    computed.  The [TypingIndicator] is static CSS; its nested rules are
    flattened to their selectors.

    [readable] is the brightness criterion of the W3C's accessibility
    evaluation rules: the brightnesses ((299 R + 587 G + 114 B) / 1000) of
    the text and of its background differ by at least 125. *)

From Stdlib Require Import String Ascii List NArith Lia.
From stdpp Require Import base list strings.
From S2P Require Import Prelude Json ChatContext.

Module Style.
Import Json ChatContext.

Abbreviation declarations := (list (string * string)).
Abbreviation css := (list (string * declarations)).

(** ** The components *)

Definition ChatContainer (darkMode : bool) : css :=
  [("&", [("max-width", "600px"); ("margin", "auto"); ("padding", "16px");
          ("border", "1px solid " +:+ (if darkMode then "#444" else "#ddd"));
          ("border-radius", "8px");
          ("background", if darkMode then "#1e1e1e" else "#f9f9f9");
          ("color", if darkMode then "#fff" else "#000");
          ("display", "flex"); ("flex-direction", "column"); ("height", "80vh")])].

Definition MessagesContainer (darkMode : bool) : css :=
  [("&", [("flex-grow", "1"); ("overflow-y", "auto"); ("border-bottom", "1px solid #ddd");
          ("padding", "10px"); ("display", "flex"); ("flex-direction", "column");
          ("scroll-behavior", "smooth")]);
   ("&::-webkit-scrollbar", [("width", "8px")]);
   ("&::-webkit-scrollbar-track",
      [("background", if darkMode then "#444" else "#f1f1f1"); ("border-radius", "10px")]);
   ("&::-webkit-scrollbar-thumb",
      [("background", if darkMode then "#888" else "#c1c1c1"); ("border-radius", "10px")]);
   ("&::-webkit-scrollbar-thumb:hover", [("background", if darkMode then "#666" else "#a1a1a1")])].

Definition MessageRow (sender : Sender) : css :=
  [("&", [("display", "flex"); ("align-items", "flex-end"); ("margin", "5px 0");
          ("flex-direction", match sender with user => "row-reverse" | bot => "row" end)])].

Definition MessageBubble (sender : Sender) (darkMode : bool) : css :=
  [("&", [("display", "inline-block"); ("padding", "10px"); ("border-radius", "8px");
          ("margin", "5px"); ("max-width", "75%");
          ("background-color",
             match sender with
             | user => if darkMode then "#2979ff" else "#d1e7fd"
             | bot => if darkMode then "#444" else "#e5e5e5"
             end);
          ("color", if darkMode then "#fff" else "#000")])].

(** The [TypingIndicator] (Chat.tsx lines 22-60), the same for both
    themes: the nested rules of [span] flattened to their selectors, the
    [@keyframes typing] steps as rules of their own. *)
Definition TypingIndicator : css :=
  [("&", [("display", "flex"); ("gap", "4px"); ("padding", "8px"); ("color", "gray")]);
   ("span", [("width", "6px"); ("height", "6px"); ("background", "gray");
             ("border-radius", "50%"); ("animation", "typing 1.2s infinite ease-in-out")]);
   ("span:nth-child(1)", [("animation-delay", "0s")]);
   ("span:nth-child(2)", [("animation-delay", "0.2s")]);
   ("span:nth-child(3)", [("animation-delay", "0.4s")]);
   ("@keyframes typing 0%", [("transform", "scale(1)"); ("opacity", "0.5")]);
   ("@keyframes typing 50%", [("transform", "scale(1.3)"); ("opacity", "1")]);
   ("@keyframes typing 100%", [("transform", "scale(1)"); ("opacity", "0.5")])].

Definition Timestamp : css :=
  [("&", [("display", "flex"); ("font-size", "0.75rem"); ("color", "gray");
          ("text-align", "right")])].

Definition HeaderContainer (darkMode : bool) : css :=
  [("&", [("width", "100%"); ("padding", "10px 20px"); ("display", "flex");
          ("align-items", "center"); ("justify-content", "space-between");
          ("margin-bottom", "15px");
          ("background", if darkMode then "#333" else "#1976d2");
          ("color", if darkMode then "#fff" else "#fff")])].

(** The header's title ([styled(Typography).attrs({ variant: 'h6' })])
    and the container of its button (Header.tsx lines 21-29). *)
Definition Title : string * css := ("h6", [("&", [("font-weight", "bold")])]).

Definition ButtonContainer : css :=
  [("&", [("display", "flex"); ("align-items", "center"); ("gap", "10px")])].

Definition ModalContainer (darkMode : bool) : css :=
  [("&", [("position", "absolute"); ("top", "50%"); ("left", "50%");
          ("transform", "translate(-50%, -50%)"); ("width", "400px"); ("padding", "20px");
          ("border-radius", "8px"); ("box-shadow", "0px 4px 10px rgba(0, 0, 0, 0.1)");
          ("display", "flex"); ("flex-direction", "column"); ("gap", "16px");
          ("background", if darkMode then "#1e1e1e" else "#fff");
          ("color", if darkMode then "#fff" else "#000")])].

Record Palette : Type := mkPalette {
  mode : string;
  primary_main : string;
  background_default : string;
  background_paper : string
}.

Definition palette (darkMode : bool) : Palette :=
  mkPalette (if darkMode then "dark" else "light") (if darkMode then "#90caf9" else "#1976d2")
    (if darkMode then "#121212" else "#f9f9f9") (if darkMode then "#1e1e1e" else "#ffffff").

(** ** Colours *)

(** The value of a property of the component's own rule; a later
    declaration overrides an earlier one. *)
Definition css_get (c : css) (prop : string) : option string :=
  match c with
  | ("&", ds) :: _ =>
      fold_left (fun acc d => if String.eqb d.1 prop then Some d.2 else acc) ds None
  | _ => None
  end.

Definition hex2 (a b : ascii) : option N :=
  match hex_val a, hex_val b with
  | Some x, Some y => Some (16 * x + y)%N
  | _, _ => None
  end.

(** [#rgb] or [#rrggbb]. *)
Definition parse_color (s : string) : option (N * N * N) :=
  match s with
  | String "#" (String r (String g (String b EmptyString))) =>
      match hex2 r r, hex2 g g, hex2 b b with
      | Some x, Some y, Some z => Some (x, y, z)
      | _, _, _ => None
      end
  | String "#" (String r1 (String r2 (String g1 (String g2 (String b1 (String b2 EmptyString)))))) =>
      match hex2 r1 r2, hex2 g1 g2, hex2 b1 b2 with
      | Some x, Some y, Some z => Some (x, y, z)
      | _, _, _ => None
      end
  | _ => None
  end%char.

Definition brightness (rgb : N * N * N) : N :=
  let '(r, g, b) := rgb in ((299 * r + 587 * g + 114 * b) / 1000)%N.

Definition readable (fg bg : option string) : bool :=
  match fg ≫= parse_color, bg ≫= parse_color with
  | Some x, Some y =>
      let a := brightness x in let b := brightness y in
      (125 <=? (if (a <=? b)%N then b - a else a - b))%N
  | _, _ => false
  end.

(** ** Text on its background *)

(** In both themes the text of the chat box, of both kinds of
    bubble, of the header and of the settings dialog differs in brightness
    from its background by at least 125, the W3C criterion. *)
Theorem text_readable_in_both_themes darkMode :
  readable (css_get (ChatContainer darkMode) "color") (css_get (ChatContainer darkMode) "background") &&
  readable (css_get (MessageBubble user darkMode) "color")
           (css_get (MessageBubble user darkMode) "background-color") &&
  readable (css_get (MessageBubble bot darkMode) "color")
           (css_get (MessageBubble bot darkMode) "background-color") &&
  readable (css_get (HeaderContainer darkMode) "color") (css_get (HeaderContainer darkMode) "background") &&
  readable (css_get (ModalContainer darkMode) "color") (css_get (ModalContainer darkMode) "background")
  = true.
Proof. destruct darkMode; vm_compute; reflexivity. Qed.

End Style.
