(* ===== verification/System.v ===== *)
(** * The whole client: src/src/main.tsx and src/src/App.tsx

    [main.tsx] mounts [ThemeProviderWrapper] around [ChatProvider] around
    the router and [App]; [App] renders the header, the two routes (lines
    14-17: [/] redirects to [/chat/<Date.now()>], [/chat/:sessionId]
    renders the chat page) and the settings dialog when the query asks for
    it (line 18).  [Sys] is the state of that tree: the store's state, the
    one localStorage all components share, the theme flag, the location,
    the mounted chat page (with the state its [sendMessage] captured when
    it mounted), the input box's text, the dialog's local state, and the
    sends whose answers are still streaming, each as the segments it has
    left to run.

    [sys_step] is one event of the browser: a history navigation, the
    header's settings button, the dialog's buttons, an input-box event
    (with the clock readings and the API's behaviour a send would use), a
    pending send resuming after an [await], the notification's close
    button.  Each event runs to completion before the next one, as in the
    browser's event loop; a send's segments are separate events, so other
    events interleave with them.  [None] is an event that cannot happen in
    that state (a button not shown) or a reducer that throws.

    React Router keeps the chat page mounted across [/chat/:sessionId]
    URLs and unmounts it on [/], whose [Navigate] element then mounts a
    new one; a newly mounted page captures the live state.  Percent
    decoding of the path parameter and the [Suspense] fallback are not
    modelled. *)

From Stdlib Require Import ZArith String Ascii List Lia.
From stdpp Require Import base list strings gmap relations.
From S2P Require Import Prelude JsString Json Storage ChatContext StoreSpec ChatInput Chat Theme Settings.

Module System.
Import Json Storage ChatContext StoreSpec ChatInput Chat Theme Settings.

(** ** Routing (App.tsx lines 14-17) *)

Inductive Route : Type :=
| RedirectTo (to : string)
| ChatRoute (sessionId : string)
| NoMatch.

(** The [:sessionId] segment of a [/chat/...] path: one non-empty segment,
    with an optional trailing slash. *)
Definition chat_param (path : string) : option string :=
  if String.prefix "/chat/" path then
    let seg := String.substring 6 (String.length path - 6) path in
    let seg' := if String.eqb (String.substring (String.length seg - 1) 1 seg) "/"
                then String.substring 0 (String.length seg - 1) seg else seg in
    if String.eqb seg' "" then None
    else match String.index 0 "/" seg' with
         | Some _ => None
         | None => Some seg'
         end
  else None.

Definition match_route (path : string) (now : Z) : Route :=
  if String.eqb path "/" then RedirectTo ("/chat/" +:+ Z_to_string now)
  else match chat_param path with
       | Some id => ChatRoute id
       | None => NoMatch
       end.

(** ** The state of the tree *)

Record Sys : Type := mkSys {
  chat : ChatState;
  ls : store;
  dark : bool;
  path : string;
  search : params;
  page : option ChatState;
  field : string;
  ui : SettingsUi;
  streams : list (list (list ChatAction))
}.

(** [main.tsx]: the providers mount over the browser's store at [path];
    the theme provider's effects run first. *)
Definition sys_init (ls0 : store) : Sys :=
  let (d, ls1) := Theme.mount ls0 in
  mkSys initialState ls1 d "" [] None "" initialUi [].

Definition settings_shown (S : Sys) : bool := settings_visible (search_of (search S)).

Definition set_chat (S : Sys) (c : ChatState) (l : store) : Sys :=
  mkSys c l (dark S) (path S) (search S) (page S) (field S) (ui S) (streams S).

Definition set_streams (S : Sys) (st : list (list (list ChatAction))) : Sys :=
  mkSys (chat S) (ls S) (dark S) (path S) (search S) (page S) (field S) (ui S) st.

Definition set_field (S : Sys) (f : string) : Sys :=
  mkSys (chat S) (ls S) (dark S) (path S) (search S) (page S) f (ui S) (streams S).

Definition set_ui (S : Sys) (u : SettingsUi) : Sys :=
  mkSys (chat S) (ls S) (dark S) (path S) (search S) (page S) (field S) u (streams S).

(** Actions dispatched to the provider in order. *)
Definition dispatch (S : Sys) (acts : list ChatAction) : option Sys :=
  match run_actions (chat S) (ls S) acts with
  | Ok (c, l) => Some (set_chat S c l)
  | Err _ => None
  end.

(** The location changes to [p] and [q]: the dialog mounts with its
    initial state when the query starts showing it; the chat page stays,
    mounts or unmounts, and its effect dispatches [SET_SESSION_ID] when the
    parameter is new. *)
Definition go (S : Sys) (p : string) (q : params) : option Sys :=
  let shown := settings_visible (search_of q) in
  let u := if shown && negb (settings_shown S) then initialUi else ui S in
  let old := chat_param (path S) in
  let S1 := mkSys (chat S) (ls S) (dark S) p q (page S) (field S) u (streams S) in
  match chat_param p with
  | Some id =>
      match page S with
      | Some cap =>
          if bool_decide (old = Some id) then Some S1 else dispatch S1 (session_effect (Some id))
      | None =>
          dispatch (mkSys (chat S) (ls S) (dark S) p q (Some (chat S)) "" u (streams S))
                   (session_effect (Some id))
      end
  | None => Some (mkSys (chat S) (ls S) (dark S) p q None (field S) u (streams S))
  end.

(** A history navigation to [p] with query [q]; [/] renders [Navigate],
    which unmounts the chat page and goes to a new session. *)
Definition navigate (S : Sys) (p : string) (q : params) (now : Z) : option Sys :=
  match match_route p now with
  | RedirectTo to =>
      go (mkSys (chat S) (ls S) (dark S) p q None (field S) (ui S) (streams S)) to []
  | _ => go S p q
  end.

(** ** Events *)

Inductive SysEvent : Type :=
| Visit (p : string) (q : params) (now : Z)
| OpenSettingsButton
| CloseSettingsButton
| ChatInputEvent (ev : InputEvent) (now1 now2 : Z) (o : Completion)
| Resume (i : nat)
| DismissError
| ThemeSwitch
| OpenClearDialog
| CancelClear
| ConfirmClear
| SnackbarClose.

(** An event on the input box: the text it sends, if any, starts
    [sendMessage] with the page's captured state; its first segment runs
    at once and the rest waits. *)
Definition input_event (S : Sys) (cap : ChatState) (ev : InputEvent) (now1 now2 : Z)
    (o : Completion) : option Sys :=
  let (f, sent) := onEvent (loading (chat S)) (field S) ev in
  let S1 := set_field S f in
  match sent with
  | None => Some S1
  | Some m =>
      match sendMessage_segments cap m now1 now2 o with
      | [] => Some S1
      | seg :: rest =>
          match dispatch S1 seg with
          | Some S2 => Some (set_streams S2 (streams S2 ++ match rest with [] => [] | _ => [rest] end))
          | None => None
          end
      end
  end.

(** The [i]-th pending send runs its next segment; a send with nothing
    left is done. *)
Definition resume (S : Sys) (i : nat) : option Sys :=
  match streams S !! i with
  | Some (seg :: rest) =>
      match dispatch S seg with
      | Some S1 =>
          Some (set_streams S1 (match rest with
                                | [] => delete i (streams S1)
                                | _ => <[i := rest]> (streams S1)
                                end))
      | None => None
      end
  | _ => None
  end.

Definition sys_step (S : Sys) (e : SysEvent) : option Sys :=
  match e with
  | Visit p q now => navigate S p q now
  | OpenSettingsButton => go S (path S) openSettings
  | CloseSettingsButton => if settings_shown S then go S (path S) (closeModal (search S)) else None
  | ChatInputEvent ev now1 now2 o =>
      match page S with
      | Some cap => input_event S cap ev now1 now2 o
      | None => None
      end
  | Resume i => resume S i
  | DismissError => match page S with Some _ => dispatch S snackbar_close | None => None end
  | ThemeSwitch =>
      if settings_shown S then
        let (d, l) := toggle_commit (dark S) (ls S) in
        Some (mkSys (chat S) l d (path S) (search S) (page S) (field S) (ui S) (streams S))
      else None
  | OpenClearDialog =>
      if settings_shown S && negb (clear_button_disabled (chat S)) then Some (set_ui S (openDialog (ui S)))
      else None
  | CancelClear =>
      if settings_shown S && dialogOpen (ui S) then Some (set_ui S (closeDialog (ui S))) else None
  | ConfirmClear =>
      if settings_shown S && dialogOpen (ui S) then
        let (u, acts) := confirmClearChatHistory (chat S) (ui S) in
        option_map (fun S1 => set_ui S1 u) (dispatch S acts)
      else None
  | SnackbarClose => if settings_shown S then Some (set_ui S (handleSnackbarClose (ui S))) else None
  end.

Fixpoint run_events (S : Sys) (es : list SysEvent) : option Sys :=
  match es with
  | [] => Some S
  | e :: es' => match sys_step S e with Some S1 => run_events S1 es' | None => None end
  end.

(** Clock readings are safe integers ([Date.now()] is). *)
Definition event_wf (e : SysEvent) : bool :=
  match e with
  | ChatInputEvent _ now1 now2 _ =>
      (Z.abs now1 <=? max_safe_integer)%Z && (Z.abs now2 <=? max_safe_integer)%Z
  | _ => true
  end.

Definition sys_rel (S S' : Sys) : Prop := exists e, event_wf e = true /\ sys_step S e = Some S'.

(** Every session stored in localStorage loads. *)
Definition store_wf (l : store) : Prop := forall id, exists ms, read_messages l id = Ok ms.

Definition sys_reachable (S : Sys) : Prop := exists ls0, store_wf ls0 /\ rtc sys_rel (sys_init ls0) S.

(** ** Invariants of the store under dispatch *)

(** The loading flag after a sequence of actions: the last [SET_LOADING]. *)
Definition loading_after (b : bool) (acts : list ChatAction) : bool :=
  fold_left (fun b a => match a with SET_LOADING b' => b' | _ => b end) acts b.

(** What a session loads as, [[]] when it does not load. *)
Definition decode (l : store) (id : string) : list Message :=
  match read_messages l id with Ok ms => ms | Err _ => [] end.

Definition CoreInv (c : ChatState) (l : store) : Prop := Inv c l /\ store_wf l.

Ltac reducer_cases H :=
  cbn [chatReducer] in H;
  unfold setSessionId, addMessage, updateLastBotMessage, clearMessages in H;
  repeat (case_match; simplify_eq/=); simplify_eq/=.

Lemma chatReducer_loading s l a s' l' :
  chatReducer s l a = Ok (s', l') -> loading s' = loading_after (loading s) [a].
Proof. intros H. destruct a; reducer_cases H; done. Qed.

Lemma run_loading s l acts s' l' :
  run_actions s l acts = Ok (s', l') -> loading s' = loading_after (loading s) acts.
Proof.
  revert s l. induction acts as [|a acts IH]; intros s l H; simpl in *; [by simplify_eq|].
  destruct (chatReducer s l a) as [[s1 l1]|] eqn:E; [|discriminate].
  rewrite (IH _ _ H). unfold loading_after. simpl. by rewrite (chatReducer_loading _ _ _ _ _ E).
Qed.

Lemma chatReducer_theme s l a s' l' :
  chatReducer s l a = Ok (s', l') -> getItem theme_key l' = getItem theme_key l.
Proof.
  intros H. destruct a; reducer_cases H; try done;
    first [apply getItem_setItem_ne | apply getItem_removeItem_ne];
    apply not_eq_sym, theme_key_not_chat.
Qed.

Lemma run_theme s l acts s' l' :
  run_actions s l acts = Ok (s', l') -> loadTheme l' = loadTheme l.
Proof.
  revert s l. induction acts as [|a acts IH]; intros s l H; simpl in *; [by simplify_eq|].
  destruct (chatReducer s l a) as [[s1 l1]|] eqn:E; [|discriminate].
  rewrite (IH _ _ H). unfold loadTheme. by rewrite (chatReducer_theme _ _ _ _ _ E).
Qed.

Lemma store_wf_load l : store_wf l -> forall id, load l id = Ok (decode l id).
Proof. intros Hw id. destruct (Hw id) as [ms Hms]. simpl. unfold decode. by rewrite Hms. Qed.

Lemma chatReducer_store_wf s l a s' l' :
  messages_safe (messages s) = true -> store_wf l -> action_wf a = true ->
  chatReducer s l a = Ok (s', l') -> store_wf l'.
Proof.
  intros Hs Hw Ha H.
  destruct (refines_step (mkAbs (sessionId s) (messages s) (loading s) (error s) (decode l)) s l a)
    as (s1 & l1 & H1 & (_ & _ & _ & _ & _ & Hl1)); [by split_and!; [..| apply store_wf_load] | done |].
  rewrite H in H1. simplify_eq. intros id. eexists. apply (Hl1 id).
Qed.

Lemma run_core s l acts s' l' :
  CoreInv s l -> forallb action_wf acts = true -> run_actions s l acts = Ok (s', l') -> CoreInv s' l'.
Proof.
  revert s l. induction acts as [|a acts IH]; intros s l HI Hwf H; simpl in *; [by simplify_eq|].
  apply andb_prop in Hwf as [Ha Hwf].
  destruct (chatReducer s l a) as [[s1 l1]|] eqn:E; [|discriminate].
  destruct HI as [HI Hw]. apply (IH s1 l1); [|done|done]. split.
  - by eapply chatReducer_Inv.
  - exact (chatReducer_store_wf s l a s1 l1 (proj1 HI) Hw Ha E).
Qed.

(** ** The invariant of the tree *)

(** What a pending send has left: the segments of its remaining chunks and
    its [catch]/[finally] segment. *)
Definition stream_shape (rest : list (list ChatAction)) : Prop :=
  exists rs b, rest = update_segments rs ++ [finally_segment b].

(** No send is pending and loading is false, or exactly one is and loading
    is true. *)
Definition StreamInv (S : Sys) : Prop :=
  (streams S = [] /\ loading (chat S) = false) \/
  (exists rest, streams S = [rest] /\ stream_shape rest /\ loading (chat S) = true).

Definition SysInv (S : Sys) : Prop :=
  CoreInv (chat S) (ls S) /\ loadTheme (ls S) = dark S /\ StreamInv S.

Lemma SysInv_ext S S' :
  chat S' = chat S -> ls S' = ls S -> dark S' = dark S -> streams S' = streams S ->
  SysInv S -> SysInv S'.
Proof. intros Hc Hl Hd Hs (HI & Ht & Hst). unfold SysInv, StreamInv. by rewrite Hc, Hl, Hd, Hs. Qed.

Lemma dispatch_spec S acts S' :
  SysInv S -> forallb action_wf acts = true -> dispatch S acts = Some S' ->
  CoreInv (chat S') (ls S') /\ loadTheme (ls S') = dark S' /\ streams S' = streams S /\
  loading (chat S') = loading_after (loading (chat S)) acts /\
  path S' = path S /\ page S' = page S /\ field S' = field S /\ ui S' = ui S.
Proof.
  intros (HI & Ht & _) Hwf. unfold dispatch.
  destruct (run_actions (chat S) (ls S) acts) as [[c l]|] eqn:E; [|discriminate]. intros [= <-].
  unfold set_chat; cbn [chat ls dark streams path page field ui]. split_and!; try done.
  - by eapply run_core.
  - by rewrite (run_theme _ _ _ _ _ E).
  - by eapply run_loading.
Qed.

(** A dispatch that leaves the loading flag keeps the invariant. *)
Lemma dispatch_inv S acts S' :
  SysInv S -> forallb action_wf acts = true -> loading_after (loading (chat S)) acts = loading (chat S) ->
  dispatch S acts = Some S' -> SysInv S'.
Proof.
  intros HS Hwf Hl Hd. destruct (dispatch_spec S acts S' HS Hwf Hd) as (HI & Ht & Hs & Hlo & _).
  split_and!; [done | done |]. destruct HS as (_ & _ & Hst). unfold StreamInv in *.
  by rewrite Hs, Hlo, Hl.
Qed.

Lemma session_effect_wf x : forallb action_wf (session_effect x) = true.
Proof. unfold session_effect. by repeat case_match. Qed.

Lemma session_effect_loading b x : loading_after b (session_effect x) = b.
Proof. unfold session_effect. by repeat case_match. Qed.

Lemma go_inv S p q S' : SysInv S -> go S p q = Some S' -> SysInv S'.
Proof.
  intros HS. unfold go. destruct (chat_param p) as [id|].
  - destruct (page S) as [cap|]; [case_bool_decide; [intros [= <-]; by eapply SysInv_ext|] |];
      (apply dispatch_inv; [by eapply SysInv_ext | apply session_effect_wf | apply session_effect_loading]).
  - intros [= <-]. by eapply SysInv_ext.
Qed.

Lemma navigate_inv S p q now S' : SysInv S -> navigate S p q now = Some S' -> SysInv S'.
Proof.
  intros HS. unfold navigate. destruct (match_route p now); apply go_inv; [|done..].
  by eapply SysInv_ext.
Qed.

Lemma match_snoc_nonempty {A B} (l : list A) (x : A) (a b : B) :
  match l ++ [x] with [] => a | _ :: _ => b end = b.
Proof. by destruct l. Qed.

Lemma input_event_inv S cap ev now1 now2 o S' :
  SysInv S -> (Z.abs now1 <=? max_safe_integer)%Z = true -> (Z.abs now2 <=? max_safe_integer)%Z = true ->
  input_event S cap ev now1 now2 o = Some S' -> SysInv S'.
Proof.
  intros HS H1 H2. unfold input_event.
  destruct (onEvent (loading (chat S)) (field S) ev) as [f [m|]] eqn:Eo;
    [|intros [= <-]; by eapply SysInv_ext].
  assert (Hl : loading (chat S) = false).
  { apply (onEvent_sent (loading (chat S)) (field S) ev m). by rewrite Eo. }
  assert (H0 : streams S = []).
  { destruct HS as (_ & _ & [[? _]|(? & _ & _ & Hl')]); [done | congruence]. }
  assert (HS1 : SysInv (set_field S f)) by (by eapply SysInv_ext).
  unfold sendMessage_segments. rewrite try_block_spec.
  destruct (negb _ || _); [intros [= <-]; done|]. destruct (String.eqb _ _).
  - destruct (dispatch (set_field S f) _) as [S2|] eqn:Ed; [|discriminate]. intros [= <-].
    apply (dispatch_inv _ _ _ HS1) in Ed; [|by simpl; unfold message_safe; simpl; rewrite H1, H2 | done].
    eapply SysInv_ext; [..|exact Ed]; try done. cbn. apply app_nil_r.
  - cbn [fst snd]. rewrite match_snoc_nonempty.
    destruct (dispatch (set_field S f) _) as [S2|] eqn:Ed; [|discriminate].
    intros [= <-].
    assert (Hwf : forallb action_wf (first_segment m now1 now2) = true)
      by (simpl; unfold message_safe; simpl; by rewrite H1, H2).
    destruct (dispatch_spec _ _ _ HS1 Hwf Ed) as (HI & Ht & Hs & Hlo & _).
    split_and!; [done | done |]. right. eexists. split; [cbn; rewrite Hs; cbn; by rewrite H0|].
    split; [by eexists _, _ | unfold set_streams; cbn [chat]; by rewrite Hlo].
Qed.

Lemma finally_segment_wf b : forallb action_wf (finally_segment b) = true.
Proof. by destruct b. Qed.

Lemma resume_inv S i S' : SysInv S -> resume S i = Some S' -> SysInv S'.
Proof.
  intros HS. unfold resume. destruct (streams S !! i) as [[|seg rest]|] eqn:Ei; try discriminate.
  pose proof HS as (HI & Ht & [[H0 _]|(r0 & H0 & (rs & b & Hr0) & Hl)]);
    [by rewrite H0 in Ei|].
  rewrite H0 in Ei. apply list_lookup_singleton_Some in Ei as [-> ->].
  destruct (dispatch S seg) as [S1|] eqn:Ed; [|discriminate]. intros [= <-].
  destruct rs as [|r rs]; cbn in Hr0; simplify_eq.
  - destruct (dispatch_spec _ _ _ HS (finally_segment_wf b) Ed) as (HI1 & Ht1 & Hs1 & Hlo1 & _).
    split_and!; [done | done |]. left. cbn. rewrite Hs1, H0. split; [done|].
    rewrite Hlo1, Hl. by destruct b.
  - destruct (dispatch_spec _ _ _ HS (eq_refl : forallb action_wf [UPDATE_LAST_BOT_MESSAGE r] = true) Ed)
      as (HI1 & Ht1 & Hs1 & Hlo1 & _).
    split_and!; [done | done |]. right. cbn. rewrite match_snoc_nonempty, Hs1, H0.
    eexists. split; [done|]. split; [by eexists _, _ | by rewrite Hlo1, Hl].
Qed.

Lemma CoreInv_theme c l v : CoreInv c l -> CoreInv c (setItem theme_key v l).
Proof.
  intros [[Hs Hm] Hw]. split; [split; [done|] |]; intros id; rewrite read_messages_theme; auto.
Qed.

Lemma sys_step_inv S e S' : SysInv S -> event_wf e = true -> sys_step S e = Some S' -> SysInv S'.
Proof.
  intros HS He. destruct e as [p q now| | |ev now1 now2 o|i| | | | | |]; cbn [sys_step].
  - by apply navigate_inv.
  - by apply go_inv.
  - destruct (settings_shown S); [by apply go_inv | discriminate].
  - cbn in He. apply andb_prop in He as [H1 H2].
    destruct (page S) as [cap|]; [by apply input_event_inv | discriminate].
  - by apply resume_inv.
  - destruct (page S); [|discriminate]. by apply dispatch_inv.
  - destruct (settings_shown S); [|discriminate]. rewrite toggle_commit_spec. intros [= <-].
    destruct HS as (HI & Ht & Hst). split_and!.
    + cbn. unfold persistTheme. by apply CoreInv_theme, CoreInv_theme.
    + apply loadTheme_persist.
    + done.
  - case_match; [intros [= <-]; by eapply SysInv_ext | discriminate].
  - case_match; [intros [= <-]; by eapply SysInv_ext | discriminate].
  - case_match; [|discriminate].
    destruct (confirmClearChatHistory (chat S) (ui S)) as [u acts] eqn:Ec.
    destruct (dispatch S acts) as [S1|] eqn:Ed; [|discriminate]. intros [= <-].
    unfold confirmClearChatHistory in Ec. destruct (negb _); simplify_eq;
      (apply (SysInv_ext S1); [reflexivity..|]; eapply dispatch_inv;
       [exact HS | | | exact Ed]; reflexivity).
  - case_match; [intros [= <-]; by eapply SysInv_ext | discriminate].
Qed.

Lemma sys_init_inv ls0 : store_wf ls0 -> SysInv (sys_init ls0).
Proof.
  intros Hw. pose proof (mount_history ls0) as Hh. destruct (mount_spec ls0) as (l' & Hm).
  unfold sys_init. destruct (Theme.mount ls0) as [d ls1] eqn:E. simplify_eq. cbn in Hh.
  split_and!.
  - split; [split; [done | discriminate] |]. intros id. rewrite Hh. apply Hw.
  - apply loadTheme_persist.
  - by left.
Qed.

Lemma sys_reachable_inv S : sys_reachable S -> SysInv S.
Proof.
  intros (ls0 & Hw & Hr). revert S Hr. apply rtc_ind_r; [by apply sys_init_inv|].
  intros S1 S2 _ (e & He & Hs) IH. exact (sys_step_inv _ _ _ IH He Hs).
Qed.

(** ** Progress *)

Lemma run_actions_nil_ok s l : run_actions s l [] = Ok (s, l).
Proof. reflexivity. Qed.

Lemma dispatch_total S acts :
  forallb (fun a => negb (is_session_switch a)) acts = true -> exists S', dispatch S acts = Some S'.
Proof.
  intros H. destruct (run_actions_total (chat S) (ls S) acts H) as [[c l] Hr].
  unfold dispatch. rewrite Hr. eauto.
Qed.

Lemma dispatch_session_effect S x : store_wf (ls S) -> dispatch S (session_effect x) <> None.
Proof.
  intros Hw. unfold session_effect.
  destruct x as [id|]; [destruct (JsString.truthy id)|]; unfold dispatch; cbn [run_actions chatReducer];
    try done.
  unfold setSessionId. by destruct (Hw id) as [ms ->].
Qed.

Lemma go_total S p q : store_wf (ls S) -> go S p q <> None.
Proof.
  intros Hw. unfold go. repeat case_match; try done; apply dispatch_session_effect; done.
Qed.

Lemma run_events_reachable S es S' :
  sys_reachable S -> forallb event_wf es = true -> run_events S es = Some S' -> sys_reachable S'.
Proof.
  revert S. induction es as [|e es IH]; intros S HR Hwf Hr; simpl in *; [by simplify_eq|].
  apply andb_prop in Hwf as [He Hwf].
  destruct (sys_step S e) as [S1|] eqn:E; [|discriminate].
  apply (IH S1); [|done|done]. destruct HR as (ls0 & Hw & Hrtc).
  exists ls0. split; [done|]. eapply rtc_r; [exact Hrtc|]. by exists e.
Qed.

(** A pending send of shape [update_segments rs ++ [finally b]] finishes in
    [length rs + 1] resumptions. *)
Lemma drain_shape rs b St :
  streams St = [update_segments rs ++ [finally_segment b]] ->
  exists St', nsteps sys_rel (S (length rs)) St St' /\ streams St' = [] /\ loading (chat St') = false.
Proof.
  revert St. induction rs as [|r rs IH]; intros St Hs.
  - destruct (dispatch_total St (finally_segment b)) as [S1 Hd]; [by destruct b|].
    eexists. split; [eapply nsteps_l; [|apply nsteps_O]|].
    + exists (Resume 0). split; [done|]. cbn [sys_step]. unfold resume. rewrite Hs. cbn.
      rewrite Hd. reflexivity.
    + unfold dispatch in Hd. destruct (run_actions _ _ _) as [[c l]|] eqn:Hr; simplify_eq.
      unfold set_streams, set_chat; cbn [streams chat]. rewrite Hs. split; [done|].
      rewrite (run_loading _ _ _ _ _ Hr). by destruct b.
  - destruct (dispatch_total St [UPDATE_LAST_BOT_MESSAGE r]) as [S1 Hd]; [done|].
    assert (Hs1 : streams (set_streams S1 [update_segments rs ++ [finally_segment b]]) =
                    [update_segments rs ++ [finally_segment b]]) by done.
    destruct (IH _ Hs1) as (St' & Hn & Hs' & Hl').
    exists St'. split; [|done]. eapply nsteps_l; [|exact Hn].
    exists (Resume 0). split; [done|]. cbn [sys_step]. unfold resume. rewrite Hs. cbn.
    rewrite Hd. cbn. rewrite match_snoc_nonempty.
    unfold dispatch in Hd. destruct (run_actions _ _ _) as [[c l]|]; simplify_eq.
    unfold set_streams, set_chat; cbn [streams]. by rewrite Hs.
Qed.

Lemma run_events_app S es1 es2 :
  run_events S (es1 ++ es2) =
    match run_events S es1 with Some S1 => run_events S1 es2 | None => None end.
Proof.
  revert S. induction es1 as [|e es1 IH]; intros S; [done|]. simpl.
  destruct (sys_step S e); [apply IH | done].
Qed.

(** A pending send's segments, resumed one by one with nothing in
    between, dispatch the concatenation of the segments. *)
Lemma resume_all St segs :
  streams St = [segs] -> segs <> [] ->
  forallb (fun a => negb (is_session_switch a)) (concat segs) = true ->
  exists c l, run_actions (chat St) (ls St) (concat segs) = Ok (c, l) /\
    run_events St (repeat (Resume 0) (length segs)) =
      Some (mkSys c l (dark St) (path St) (search St) (page St) (field St) (ui St) []).
Proof.
  revert St. induction segs as [|seg rest IH]; intros St Hs Hne Hw; [done|].
  rewrite concat_cons, forallb_app in Hw. apply andb_prop in Hw as [Hw1 Hw2].
  destruct (run_actions_total (chat St) (ls St) seg Hw1) as [[c1 l1] Hr1].
  cbn [repeat length run_events sys_step]. unfold resume. rewrite Hs. simpl.
  unfold dispatch. rewrite Hr1. rewrite run_actions_app, Hr1. cbn [res_bind fst snd].
  destruct rest as [|seg' rest].
  - exists c1, l1. split; [done|]. unfold set_streams, set_chat. cbn [streams]. by rewrite Hs.
  - destruct (IH (set_streams (set_chat St c1 l1) [seg' :: rest]) eq_refl ltac:(done) Hw2)
      as (c & l & Hr & He). exists c, l. split; [exact Hr|].
    replace (<[0:=seg' :: rest]> (streams (set_chat St c1 l1))) with [seg' :: rest]
      by (unfold set_chat; cbn [streams]; by rewrite Hs).
    exact He.
Qed.

Lemma update_segments_no_switch rs :
  forallb (fun a => negb (is_session_switch a)) (concat (update_segments rs)) = true.
Proof. induction rs; simpl; auto. Qed.

Lemma send_rest_no_switch o :
  forallb (fun a => negb (is_session_switch a))
    (concat (update_segments (accumulate "" (fragments o)) ++ [finally_segment (completion_throws o)])) = true.
Proof.
  rewrite concat_app, forallb_app, update_segments_no_switch. by destruct (completion_throws o).
Qed.

Lemma messages_safe_send ms input now1 now2 :
  messages_safe ms = true -> (Z.abs now1 <=? max_safe_integer)%Z = true ->
  (Z.abs now2 <=? max_safe_integer)%Z = true ->
  messages_safe (ms ++ [mkMessage input user now1; mkMessage "" bot now2]) = true.
Proof. intros Hs H1 H2. rewrite messages_safe_app, Hs. unfold messages_safe, message_safe. simpl. by rewrite H1, H2. Qed.

(** Enter on a page whose callback is not stale, with no send pending:
    the first segment runs and the rest of the send is pending. *)
Lemma enter_starts_send S cap input now1 now2 o c1 l1 :
  page S = Some cap -> loading cap = false -> streams S = [] -> loading (chat S) = false ->
  field S = input -> JsString.truthy (JsString.trim input) = true ->
  String.eqb (JsString.trim input) HELP_COMMAND = false ->
  run_actions (chat S) (ls S) (first_segment input now1 now2) = Ok (c1, l1) ->
  sys_step S (ChatInputEvent (KeyDown "Enter") now1 now2 o) =
    Some (mkSys c1 l1 (dark S) (path S) (search S) (page S) "" (ui S)
            [update_segments (accumulate "" (fragments o)) ++ [finally_segment (completion_throws o)]]).
Proof.
  intros Hp Hc Hs Hl Hf Ht Hh Hr. cbn [sys_step]. rewrite Hp. unfold input_event.
  replace (onEvent (loading (chat S)) (field S) (KeyDown "Enter")) with ("", Some input)
    by (rewrite Hl, Hf; unfold onEvent, handleSend; by rewrite Ht).
  cbv beta iota zeta. rewrite sendMessage_segments_api by done.
  unfold dispatch. change (ls (set_field S "")) with (ls S). change (chat (set_field S "")) with (chat S).
  rewrite Hr.
  cbn [res_bind]. rewrite match_snoc_nonempty. unfold set_streams, set_chat, set_field. cbn [chat ls dark path search page field ui streams]. by rewrite Hs, Hp.
Qed.

Lemma chat_param_truthy p id : chat_param p = Some id -> JsString.truthy id = true.
Proof.
  unfold chat_param. intros H. cbv zeta in H. destruct (String.prefix _ _); [|done].
  match type of H with context [if String.eqb ?x "" then _ else _] =>
    destruct (String.eqb x "") eqn:E end; [done|].
  case_match; simplify_eq. unfold JsString.truthy. by rewrite E.
Qed.

Lemma dispatch_session_err S id e :
  JsString.truthy id = true -> read_messages (ls S) id = Err e ->
  dispatch S (session_effect (Some id)) = None.
Proof.
  intros Ht Hr. unfold dispatch, session_effect. rewrite Ht. cbn. unfold setSessionId. by rewrite Hr.
Qed.

(** Events that leave the path and the mounted page alone. *)
Lemma dispatch_frame S acts S' :
  dispatch S acts = Some S' -> path S' = path S /\ page S' = page S.
Proof. unfold dispatch. destruct (run_actions _ _ _) as [[c l]|]; intros; by simplify_eq. Qed.

Lemma input_event_frame S cap ev now1 now2 o S' :
  input_event S cap ev now1 now2 o = Some S' -> path S' = path S /\ page S' = page S.
Proof.
  unfold input_event. destruct (onEvent _ _ _) as [f [m|]]; [|by intros [= <-]].
  destruct (sendMessage_segments _ _ _ _ _); [by intros [= <-]|].
  destruct (dispatch _ _) eqn:Ed; [|done]. intros [= <-]. by apply dispatch_frame in Ed.
Qed.

Lemma resume_frame S i S' : resume S i = Some S' -> path S' = path S /\ page S' = page S.
Proof.
  unfold resume. destruct (streams S !! i) as [[|seg rest]|]; try done.
  destruct (dispatch S seg) eqn:Ed; [|done]. intros [= <-]. by apply dispatch_frame in Ed.
Qed.

(** The state a page captures is the live state when it mounts. *)
Lemma go_mount T p q S1 cap :
  go T p q = Some S1 -> page S1 = Some cap -> page T <> Some cap -> cap = chat T.
Proof.
  unfold go. intros Hg Hp Hn. destruct (chat_param p); [|by simplify_eq].
  destruct (page T) as [c0|] eqn:Hpg.
  - exfalso. case_bool_decide; [by simplify_eq|].
    apply dispatch_frame in Hg as [_ Hq]. cbn in Hq. congruence.
  - apply dispatch_frame in Hg as [_ Hq]. cbn in Hq. congruence.
Qed.

Lemma mount_captures_live S e S1 cap :
  sys_step S e = Some S1 -> page S1 = Some cap -> page S <> Some cap -> cap = chat S.
Proof.
  intros Hs Hp Hn. destruct e; cbn [sys_step] in Hs.
  - unfold navigate in Hs. destruct (match_route p now);
      [exact (go_mount _ _ _ S1 cap Hs Hp ltac:(discriminate)) | exact (go_mount _ _ _ S1 cap Hs Hp Hn)..].
  - exact (go_mount _ _ _ S1 cap Hs Hp Hn).
  - destruct (settings_shown S); [exact (go_mount _ _ _ S1 cap Hs Hp Hn) | done].
  - destruct (page S) as [c0|] eqn:E; [|done].
    apply input_event_frame in Hs as [_ Hq]. congruence.
  - apply resume_frame in Hs as [_ Hq]. congruence.
  - destruct (page S) eqn:E; [|done]. apply dispatch_frame in Hs as [_ Hq]. congruence.
  - destruct (settings_shown S); [|done]. destruct (toggle_commit _ _). by simplify_eq.
  - case_match; [|done]. by simplify_eq.
  - case_match; [|done]. by simplify_eq.
  - case_match; [|done]. destruct (confirmClearChatHistory _ _).
    destruct (dispatch S l) eqn:Ed; [|done]. cbn in Hs. injection Hs as <-. apply dispatch_frame in Ed as [_ Hq].
    unfold set_ui in Hp. cbn in Hp. congruence.
  - case_match; [|done]. by simplify_eq.
Qed.

Lemma streaming_loading S : SysInv S -> streams S <> [] -> loading (chat S) = true.
Proof. intros (_ & _ & [[Hs _]|(rest & _ & _ & Hl)]) Hn; [done | exact Hl]. Qed.

Lemma dispatch_streams S acts S' : dispatch S acts = Some S' -> streams S' = streams S.
Proof. unfold dispatch. destruct (run_actions _ _ _) as [[c l]|]; intros; by simplify_eq. Qed.

Lemma go_streams S p q S' : go S p q = Some S' -> streams S' = streams S.
Proof.
  unfold go. intros Hg. repeat case_match; simplify_eq; try done;
    apply dispatch_streams in Hg; done.
Qed.

(** While loading, the input box sends nothing. *)
Lemma input_event_busy S cap ev now1 now2 o S' :
  loading (chat S) = true -> input_event S cap ev now1 now2 o = Some S' -> streams S' = streams S.
Proof.
  intros Hl. unfold input_event. rewrite Hl.
  destruct ev; cbn; [by intros [= <-]|..].
  - destruct (String.eqb _ _); cbn; by intros [= <-].
  - by intros [= <-].
Qed.

Lemma step_keeps_streams S e S' :
  (forall i, e <> Resume i) -> loading (chat S) = true -> sys_step S e = Some S' ->
  streams S' = streams S.
Proof.
  intros Hr Hl Hs. destruct e; cbn [sys_step] in Hs.
  - unfold navigate in Hs. destruct (match_route p now); apply go_streams in Hs; done.
  - by apply go_streams in Hs.
  - destruct (settings_shown S); [by apply go_streams in Hs | done].
  - destruct (page S); [by eapply input_event_busy | done].
  - by destruct (Hr i).
  - destruct (page S); [by apply dispatch_streams in Hs | done].
  - destruct (settings_shown S); [|done]. destruct (toggle_commit _ _). by simplify_eq.
  - case_match; [|done]. by simplify_eq.
  - case_match; [|done]. by simplify_eq.
  - case_match; [|done]. destruct (confirmClearChatHistory _ _).
    destruct (dispatch S l) eqn:Ed; [|done]. cbn in Hs. injection Hs as <-. by apply dispatch_streams in Ed.
  - case_match; [|done]. by simplify_eq.
Qed.

(** ** Properties of the whole client *)


(** C25: in every state the client reaches from a page load, at most one
    answer is streaming, and the loading flag is true exactly while one
    is: the input box's guard, not [sendMessage]'s, keeps sends apart. *)
Theorem system_single_stream S :
  sys_reachable S -> length (streams S) <= 1 /\ loading (chat S) = bool_decide (streams S <> []).
Proof.
  intros HR. destruct (sys_reachable_inv S HR) as (_ & _ & [[-> ->]|(rest & -> & _ & ->)]);
    split; cbn; try lia; by rewrite ?bool_decide_eq_false_2, ?bool_decide_eq_true_2.
Qed.

(** C26: the components share one localStorage without disturbing each
    other: in every reachable state the active session's stored history is
    the messages shown, every stored session loads, and the stored theme is
    the theme shown. *)
Theorem system_storage_mirrors S :
  sys_reachable S ->
  (forall id, active_session (chat S) = Some id -> read_messages (ls S) id = Ok (messages (chat S))) /\
  store_wf (ls S) /\ loadTheme (ls S) = dark S.
Proof.
  intros HR. destruct (sys_reachable_inv S HR) as ([[_ Hm] Hw] & Ht & _). done.
Qed.

(** C27: stored values always have the type of a message list, so no
    navigation makes [SET_SESSION_ID] throw: every history navigation from
    a reachable state succeeds. *)
Theorem system_navigation_total S p q now :
  sys_reachable S -> sys_step S (Visit p q now) <> None.
Proof.
  intros HR. destruct (sys_reachable_inv S HR) as ([_ Hw] & _ & _). cbn [sys_step].
  unfold navigate. destruct (match_route p now); by apply go_total.
Qed.

(** Every pending answer finishes by itself: from any reachable state
    the pending segments run, one resumption each, without failing, and
    leave no send pending and loading false. *)
Theorem system_streams_drain S :
  sys_reachable S ->
  exists S', nsteps sys_rel (length (concat (streams S))) S S' /\ streams S' = [] /\
    loading (chat S') = false.
Proof.
  intros HR. destruct (sys_reachable_inv S HR) as (_ & _ & [[Hs Hl]|(rest & Hs & (rs & b & ->) & _)]).
  - exists S. rewrite Hs. split; [apply nsteps_O | done].
  - rewrite Hs. cbn. rewrite app_nil_r, length_app. unfold update_segments at 1.
    rewrite length_map. cbn. rewrite Nat.add_1_r. by apply (drain_shape rs b).
Qed.

(** A page whose [sendMessage] captured [loading = true] dispatches and
    stores nothing on any later send, whatever the live state. *)
Lemma captured_loading_drops_sends S cap ev now1 now2 o S' :
  page S = Some cap -> loading cap = true ->
  sys_step S (ChatInputEvent ev now1 now2 o) = Some S' ->
  chat S' = chat S /\ ls S' = ls S /\ streams S' = streams S.
Proof.
  intros Hp Hl. cbn [sys_step]. rewrite Hp. unfold input_event.
  destruct (onEvent _ _ _) as [f [m|]]; [|by intros [= <-]].
  unfold sendMessage_segments. rewrite Hl, orb_true_r. by intros [= <-].
Qed.

(** C28: a chat page mounted while an answer streams (going back to [/]
    unmounts the page and the redirect mounts a new one) captures the live
    state, whose loading flag is set, so every later send from that page
    dispatches nothing and stores nothing, also after the answer ends. *)
Theorem mount_mid_answer_captures_loading S e S1 cap :
  sys_reachable S -> streams S <> [] -> sys_step S e = Some S1 ->
  page S1 = Some cap -> page S <> Some cap ->
  cap = chat S /\ loading cap = true /\
  (forall S2 ev n1 n2 o S3, page S2 = Some cap -> sys_step S2 (ChatInputEvent ev n1 n2 o) = Some S3 ->
     chat S3 = chat S2 /\ ls S3 = ls S2 /\ streams S3 = streams S2).
Proof.
  intros HR Hn Hs Hp Hnp. pose proof (mount_captures_live S e S1 cap Hs Hp Hnp) as ->.
  split_and!; [done | by apply streaming_loading; [apply sys_reachable_inv|] |].
  intros S2 ev n1 n2 o S3 Hp2 Hstep.
  apply (captured_loading_drops_sends S2 (chat S) ev n1 n2 o S3 Hp2); [|exact Hstep].
  by apply streaming_loading; [apply sys_reachable_inv|].
Qed.

(** C33: there is no client-side deadline: while an answer is pending,
    no event but the stream's own resumptions changes the pending send or
    clears the loading flag, so an answer whose stream never ends keeps
    the input blocked until the transport gives up. *)
Theorem only_the_stream_clears_loading S e S' :
  sys_reachable S -> streams S <> [] -> (forall i, e <> Resume i) -> event_wf e = true ->
  sys_step S e = Some S' ->
  streams S' = streams S /\ loading (chat S') = true.
Proof.
  intros HR Hn Hr He Hs. pose proof (sys_reachable_inv S HR) as HI.
  assert (Hst : streams S' = streams S)
    by (eapply step_keeps_streams; [done | by apply streaming_loading | exact Hs]).
  split; [done|]. apply streaming_loading; [by eapply sys_step_inv | by rewrite Hst].
Qed.

(** C30: a send through the whole client: on a mounted page whose
    callback is not stale, with no answer pending and an active session,
    Enter on a non-blank, non-[/help] field followed by the stream's
    resumptions (one per fragment, and the [finally]) appends the user
    message and the answer made of the fragments, clears the field and the
    loading flag, records the error when the API failed, and leaves the
    session's stored history equal to the messages. *)
Theorem system_send_end_to_end S cap id input now1 now2 o :
  sys_reachable S -> page S = Some cap -> loading cap = false -> streams S = [] ->
  active_session (chat S) = Some id -> field S = input ->
  JsString.truthy (JsString.trim input) = true -> String.eqb (JsString.trim input) HELP_COMMAND = false ->
  (Z.abs now1 <=? max_safe_integer)%Z = true -> (Z.abs now2 <=? max_safe_integer)%Z = true ->
  exists S', run_events S (ChatInputEvent (KeyDown "Enter") now1 now2 o ::
                           repeat (Resume 0) (length (fragments o) + 1)) = Some S' /\
    messages (chat S') = messages (chat S) ++ [mkMessage input user now1;
                                               mkMessage (str_concat (fragments o)) bot now2] /\
    loading (chat S') = false /\
    error (chat S') = (if completion_throws o then Some ERROR_MESSAGE else error (chat S)) /\
    read_messages (ls S') id = Ok (messages (chat S')) /\ streams S' = [] /\ field S' = "".
Proof.
  intros HR Hp Hc Hs Ha Hf Ht Hh H1 H2.
  destruct (sys_reachable_inv S HR) as ([[Hsafe Hm] _] & _ & [[_ Hl]|(? & Hs' & _)]);
    [|by rewrite Hs in Hs'].
  destruct (run_actions_total (chat S) (ls S) (first_segment input now1 now2) eq_refl)
    as [[c1 l1] Hr1].
  set (rest := update_segments (accumulate "" (fragments o)) ++ [finally_segment (completion_throws o)]).
  destruct (resume_all (mkSys c1 l1 (dark S) (path S) (search S) (page S) "" (ui S) [rest]) rest
              eq_refl ltac:(by unfold rest; destruct (update_segments _)) (send_rest_no_switch o))
    as (c & l & Hrr & He).
  destruct (run_send_mirror cap input now1 now2 o (chat S) (ls S) id Hc Ht Hh Ha (Hm id Ha)
              (messages_safe_send _ _ _ _ Hsafe H1 H2)) as (ls' & Hrun & Hread).
  unfold sendMessage in Hrun. rewrite sendMessage_segments_api in Hrun by done.
  rewrite concat_cons, run_actions_app, Hr1 in Hrun. cbn [res_bind fst snd] in Hrun.
  fold rest in Hrun. cbn [chat ls] in Hrr. rewrite Hrr in Hrun. injection Hrun as -> ->.
  eexists. split.
  - cbn [run_events]. rewrite (enter_starts_send S cap input now1 now2 o c1 l1) by done.
    fold rest. replace (length (fragments o) + 1) with (length rest)
      by (unfold rest, update_segments; rewrite length_app, length_map, accumulate_length; done).
    exact He.
  - cbn. by split_and!.
Qed.

(** A stored history the reducer cannot read makes the visit of its page
    fail, whether the page is mounted by the visit or already mounted for
    another session. *)
Lemma visit_unreadable_history_fails S p q now id e :
  String.eqb p "/" = false -> chat_param p = Some id ->
  (page S = None \/ chat_param (path S) <> Some id) ->
  read_messages (ls S) id = Err e ->
  sys_step S (Visit p q now) = None.
Proof.
  intros Hp Hc Hold Hr. cbn [sys_step]. unfold navigate, match_route. rewrite Hp, Hc.
  unfold go. rewrite Hc.
  destruct (page S) eqn:Hpg.
  - destruct Hold as [Hn|Hn]; [done|]. rewrite bool_decide_false by done.
    apply (dispatch_session_err _ _ e); [by eapply chat_param_truthy | exact Hr].
  - apply (dispatch_session_err _ _ e); [by eapply chat_param_truthy | exact Hr].
Qed.

(** C31: a stored history that [JSON.parse] rejects (text that is not
    JSON, such as [undefined] written by an older version) makes the visit
    of its page throw: the [SET_SESSION_ID] dispatched by the page's
    effect throws inside the reducer, whether the page is mounted by the
    visit or already mounted for another session. *)
Theorem system_unparsable_history_crashes S p q now id t :
  String.eqb p "/" = false -> chat_param p = Some id ->
  (page S = None \/ chat_param (path S) <> Some id) ->
  getItem (chat_key id) (ls S) = Some t -> JsString.truthy t = true -> json_parse t = Err SyntaxError ->
  sys_step S (Visit p q now) = None.
Proof.
  intros Hp Hc Hold Hg Ht Hj.
  apply (visit_unreadable_history_fails S p q now id (ParseFailure SyntaxError)); [done..|].
  unfold read_messages. by rewrite Hg, Ht, Hj.
Qed.

(** ** Witnesses: a page load, a send, and a return to [/] mid-answer *)

Definition send_events : list SysEvent :=
  [Visit "/" [] 1730000000000; ChatInputEvent (Change "Hi") 0 0 CreateFailed;
   ChatInputEvent (KeyDown "Enter") 1730000000001 1730000000002 scenario_B].

Definition remount_events : list SysEvent :=
  send_events ++ [Visit "/" [] 1730000000003; Resume 0; Resume 0; Resume 0;
                  ChatInputEvent (Change "Hello") 0 0 CreateFailed].

Definition typed_state : Sys :=
  Eval vm_compute in
    match run_events (sys_init ∅) (take 2 send_events) with Some St => St | None => sys_init ∅ end.

Definition streaming_state : Sys :=
  Eval vm_compute in
    match run_events (sys_init ∅) send_events with Some St => St | None => sys_init ∅ end.

Definition remount_state : Sys :=
  Eval vm_compute in
    match run_events (sys_init ∅) remount_events with Some St => St | None => sys_init ∅ end.

Lemma store_wf_empty : store_wf ∅.
Proof. intros id. exists []. reflexivity. Qed.

Lemma streaming_state_reachable : sys_reachable streaming_state.
Proof.
  apply (run_events_reachable (sys_init ∅) send_events); [|reflexivity | vm_compute; reflexivity].
  exists ∅. split; [apply store_wf_empty | apply rtc_refl].
Qed.

Lemma typed_state_reachable : sys_reachable typed_state.
Proof.
  apply (run_events_reachable (sys_init ∅) (take 2 send_events)); [|reflexivity | vm_compute; reflexivity].
  exists ∅. split; [apply store_wf_empty | apply rtc_refl].
Qed.

Lemma remount_state_reachable : sys_reachable remount_state.
Proof.
  apply (run_events_reachable (sys_init ∅) remount_events); [|reflexivity | vm_compute; reflexivity].
  exists ∅. split; [apply store_wf_empty | apply rtc_refl].
Qed.

Lemma system_single_stream_witness :
  length (streams streaming_state) <= 1 /\
  loading (chat streaming_state) = bool_decide (streams streaming_state <> []).
Proof. apply system_single_stream. apply streaming_state_reachable. Defined.

Lemma system_storage_mirrors_witness :
  (forall id, active_session (chat streaming_state) = Some id ->
     read_messages (ls streaming_state) id = Ok (messages (chat streaming_state))) /\
  store_wf (ls streaming_state) /\ loadTheme (ls streaming_state) = dark streaming_state.
Proof. apply system_storage_mirrors. apply streaming_state_reachable. Defined.

Lemma system_navigation_total_witness :
  sys_step remount_state (Visit "/chat/1730000000000" [] 1730000000009) <> None.
Proof. apply system_navigation_total. apply remount_state_reachable. Defined.

Lemma system_send_end_to_end_witness :
  exists S', run_events typed_state (ChatInputEvent (KeyDown "Enter") 1730000000001 1730000000002 scenario_B ::
                           repeat (Resume 0) (length (fragments scenario_B) + 1)) = Some S' /\
    messages (chat S') = messages (chat typed_state) ++ [mkMessage "Hi" user 1730000000001;
                                     mkMessage (str_concat (fragments scenario_B)) bot 1730000000002] /\
    loading (chat S') = false /\
    error (chat S') = (if completion_throws scenario_B then Some ERROR_MESSAGE else error (chat typed_state)) /\
    read_messages (ls S') "1730000000000" = Ok (messages (chat S')) /\ streams S' = [] /\ field S' = "".
Proof.
  apply (system_send_end_to_end typed_state (mkChatState None [] false None));
    [apply typed_state_reachable | reflexivity..].
Defined.

Definition corrupt_store : store := <[chat_key "s1" := "undefined"]> ∅.

Lemma system_unparsable_history_crashes_witness :
  sys_step (sys_init corrupt_store) (Visit "/chat/s1" [] 1730000000000) = None.
Proof.
  apply (system_unparsable_history_crashes _ _ _ _ "s1" "undefined");
    [reflexivity | reflexivity | left; reflexivity | reflexivity..].
Defined.


Definition remounted_state : Sys :=
  Eval vm_compute in
    match sys_step streaming_state (Visit "/" [] 1730000000003) with
    | Some St => St | None => streaming_state end.

Lemma mount_mid_answer_captures_loading_witness :
  sys_step streaming_state (Visit "/" [] 1730000000003) = Some remounted_state /\
  exists cap, page remounted_state = Some cap /\ cap = chat streaming_state /\ loading cap = true.
Proof.
  split; [vm_compute; reflexivity|]. eexists. split; [reflexivity|].
  destruct (mount_mid_answer_captures_loading streaming_state (Visit "/" [] 1730000000003)
              remounted_state (chat streaming_state))
    as (Hc & Hl & _);
    [apply streaming_state_reachable | vm_compute; discriminate | vm_compute; reflexivity
    | vm_compute; reflexivity | vm_compute; discriminate |].
  by split.
Defined.

Lemma only_the_stream_clears_loading_witness :
  exists S', sys_step streaming_state DismissError = Some S' /\
    streams S' = streams streaming_state /\ loading (chat S') = true.
Proof.
  eexists. split; [vm_compute; reflexivity|].
  eapply (only_the_stream_clears_loading streaming_state DismissError);
    [apply streaming_state_reachable | vm_compute; discriminate | discriminate | reflexivity
    | vm_compute; reflexivity].
Defined.

End System.

