(* ===== verification/Tree.v ===== *)
(** * The component tree, its contexts and the views of the small components

    src/src/main.tsx renders [StrictMode > ThemeProviderWrapper >
    ChatProvider > BrowserRouter > App]; src/src/App.tsx renders the
    [Header], the route's element ([Navigate] on [/], [Chat] on
    [/chat/:sessionId]) and, when the query string contains
    [settings=true], the [SettingsModal].  Each component calls its hooks
    in source order when it renders: [useChat]
    (src/src/context/ChatContext.tsx lines 90-96) throws when no
    [ChatProvider] is above; [useContext(ThemeContext)] falls back to the
    default value of [createContext] ([darkMode: false],
    src/src/context/ThemeContext.tsx line 10); the router hooks throw
    outside a router (the invariant of react-router).  A render is
    [Ok] of the components mounted, in tree order, each with the theme flag
    it read, or [Err] of the first message thrown.

    [Element] is the tree of providers over components; a component's
    children are computed from the context it reads ([children]), to a
    depth of [tree_depth] (App > Chat > ChatInput).  The views of
    [Header] (src/src/components/Header.tsx lines 31-49),
    [ThemeToggleButton] (src/src/components/ThemeToggleButton.tsx) and
    [SettingsModal] (src/src/components/SettingsModal.tsx lines 72-126)
    are records of what they show.  The trees of the tests under
    src/src/test are [header_test_tree] and [toggle_test_tree]. *)

From Stdlib Require Import String List ZArith.
From stdpp Require Import base list strings gmap relations.
From S2P Require Import Prelude JsString Json Storage ChatContext ChatInput Chat Theme Settings Style System.

Module Tree.
Import Storage ChatContext ChatInput Chat Theme Settings Style System.
Local Open Scope chat_scope.

(** ** Components and their hooks *)

Inductive Component : Type :=
| App
| Header
| ChatPage
| ChatInputBox
| SettingsModal
| ThemeToggleButton
| Navigate.

Inductive Hook : Type :=
| useContextTheme
| useChatHook
| useRouter (name : string)
| useStateHook.

Definition App_hooks : list Hook := [useRouter "useLocation()"].

Definition Header_hooks : list Hook := [useContextTheme; useRouter "useNavigate()"].

Definition Chat_hooks : list Hook := [useRouter "useParams()"; useChatHook; useContextTheme].

Definition ChatInput_hooks : list Hook := [useStateHook].

Definition SettingsModal_hooks : list Hook :=
  [useRouter "useSearchParams()"; useChatHook; useContextTheme;
   useStateHook; useStateHook; useStateHook; useStateHook].

Definition ThemeToggleButton_hooks : list Hook := [useContextTheme].

Definition hooks (c : Component) : list Hook :=
  match c with
  | App => App_hooks
  | Header => Header_hooks
  | ChatPage => Chat_hooks
  | ChatInputBox => ChatInput_hooks
  | SettingsModal => SettingsModal_hooks
  | ThemeToggleButton => ThemeToggleButton_hooks
  | Navigate => [useRouter "<Navigate>"]
  end.

(** ** Contexts *)

(** What the providers above a component give it: the [ThemeContext]
    flag, the [ChatContext] state, the router's location. *)
Record Env : Type := mkEnv {
  env_theme : option bool;
  env_chat : option ChatState;
  env_router : option (string * params)
}.

Definition root_env : Env := mkEnv None None None.

Definition USECHAT_ERROR : string := "useChat must be used within a ChatProvider".

Definition useChat (env : Env) : result string ChatState :=
  match env_chat env with
  | Some st => Ok st
  | None => Err USECHAT_ERROR
  end.

(** [createContext<ThemeContextType>({ darkMode: false, ... })]. *)
Definition useThemeContext (env : Env) : bool :=
  match env_theme env with
  | Some d => d
  | None => false
  end.

Definition router_error (name : string) : string :=
  name +:+ " may be used only in the context of a <Router> component.".

Definition useRouterHook (name : string) (env : Env) : result string (string * params) :=
  match env_router env with
  | Some loc => Ok loc
  | None => Err (router_error name)
  end.

Definition run_hook (env : Env) (h : Hook) : result string unit :=
  match h with
  | useContextTheme => Ok ()
  | useChatHook => let? _ := useChat env in Ok ()
  | useRouter name => let? _ := useRouterHook name env in Ok ()
  | useStateHook => Ok ()
  end.

Fixpoint run_hooks (env : Env) (hs : list Hook) : result string unit :=
  match hs with
  | [] => Ok ()
  | h :: hs' => let? _ := run_hook env h in run_hooks env hs'
  end.

(** ** Rendering *)

(** The [<Routes>] of App: the element of the route the path matches. *)
Definition route_element (p : string) : list Component :=
  match match_route p 0 with
  | RedirectTo _ => [Navigate]
  | ChatRoute _ => [ChatPage]
  | NoMatch => []
  end.

Definition app_children (loc : string * params) : list Component :=
  Header :: route_element loc.1 ++
    (if settings_visible (search_of loc.2) then [SettingsModal] else []).

Definition children (env : Env) (c : Component) : list Component :=
  match c with
  | App => match env_router env with Some loc => app_children loc | None => [] end
  | ChatPage => [ChatInputBox]
  | _ => []
  end.

Record Mounted : Type := mkMounted {
  m_component : Component;
  m_darkMode : bool
}.

Fixpoint render_all (f : Component -> result string (list Mounted)) (cs : list Component) :
  result string (list Mounted) :=
  match cs with
  | [] => Ok []
  | c :: cs' => let? a := f c in let? b := render_all f cs' in Ok (a ++ b)
  end.

Fixpoint render_comp (fuel : nat) (env : Env) (c : Component) : result string (list Mounted) :=
  match fuel with
  | O => Err "tree deeper than the fuel"
  | S n =>
      let? _ := run_hooks env (hooks c) in
      let? rest := render_all (render_comp n env) (children env c) in
      Ok (mkMounted c (useThemeContext env) :: rest)
  end.

(** App > Chat > ChatInput. *)
Definition tree_depth : nat := 3.

Inductive Provider : Type :=
| StrictMode
| ThemeProviderWrapper (darkMode : bool)
| ThemeContextProvider (darkMode : bool)
| ChatProvider (state : ChatState)
| BrowserRouter (loc : string * params)
| MemoryRouter.

#[local] Set Warnings "-register-all".

Inductive Element : Type :=
| El (c : Component)
| Provide (p : Provider) (cs : list Element).

(** [<ThemeContext.Provider value={{ darkMode, toggleTheme }}>] of the
    wrapper, around MUI's [ThemeProvider] and [CssBaseline]. *)
Definition ThemeProviderWrapper_env (darkMode : bool) (env : Env) : Env :=
  mkEnv (Some darkMode) (env_chat env) (env_router env).

(** [<ChatContext.Provider value={{ state, dispatch }}>]. *)
Definition ChatProvider_env (st : ChatState) (env : Env) : Env :=
  mkEnv (env_theme env) (Some st) (env_router env).

Definition provide (p : Provider) (env : Env) : Env :=
  match p with
  | StrictMode => env
  | ThemeProviderWrapper d | ThemeContextProvider d => ThemeProviderWrapper_env d env
  | ChatProvider st => ChatProvider_env st env
  | BrowserRouter loc => mkEnv (env_theme env) (env_chat env) (Some loc)
  | MemoryRouter => mkEnv (env_theme env) (env_chat env) (Some ("/", []))
  end.

Fixpoint render_el (env : Env) (e : Element) : result string (list Mounted) :=
  match e with
  | El c => render_comp tree_depth env c
  | Provide p cs =>
      let env' := provide p env in
      (fix go (cs : list Element) : result string (list Mounted) :=
         match cs with
         | [] => Ok []
         | e' :: cs' => let? a := render_el env' e' in let? b := go cs' in Ok (a ++ b)
         end) cs
  end.

(** src/src/main.tsx. *)
Definition main_tree (darkMode : bool) (st : ChatState) (loc : string * params) : Element :=
  Provide StrictMode
    [Provide (ThemeProviderWrapper darkMode)
       [Provide (ChatProvider st) [Provide (BrowserRouter loc) [El App]]]].

Definition render_root (S : Sys) : result string (list Mounted) :=
  render_el root_env (main_tree (dark S) (chat S) (path S, search S)).

(** ** What the small components show *)

(** Header.tsx lines 39-48: the styled container, the title, and the
    settings button, whose [openSettings] navigates to [?settings=true]. *)
Record HeaderView : Type := mkHeaderView {
  header_css : css;
  header_title : string;
  header_onClick : params
}.

Definition Header_view (darkMode : bool) : HeaderView :=
  mkHeaderView (HeaderContainer darkMode) "Groq AI Chat" openSettings.

Inductive Icon : Type :=
| LightModeIcon
| DarkModeIcon.

#[export] Instance Icon_eq_dec : EqDecision Icon.
Proof. solve_decision. Defined.

(** ThemeToggleButton.tsx lines 10-13: [darkMode ? <LightMode /> : <DarkMode />];
    the click calls the context's [toggleTheme]. *)
Definition ThemeToggleButton_icon (darkMode : bool) : Icon :=
  if darkMode then LightModeIcon else DarkModeIcon.

(** SettingsModal.tsx lines 72-126: the styled container, the model
    name, the theme switch, the clear button's [disabled], the
    notification when open, and the confirmation dialog's [open]. *)
Record SettingsView : Type := mkSettingsView {
  settings_css : css;
  settings_model : option string;
  settings_switch_checked : bool;
  settings_clear_disabled : bool;
  settings_snackbar : option (string * Severity);
  settings_dialog_open : bool
}.

Definition SettingsModal_view (GROQ_MODEL_NAME : option string) (darkMode : bool)
    (st : ChatState) (ui : SettingsUi) : SettingsView :=
  mkSettingsView (ModalContainer darkMode) GROQ_MODEL_NAME darkMode (clear_button_disabled st)
    (if snackbarOpen ui then Some (snackbarMessage ui, snackbarSeverity ui) else None)
    (dialogOpen ui).

(** ** The tests under src/src/test *)

(** Header.test.tsx: [<MemoryRouter><ThemeContext.Provider value={{ darkMode: false, ... }}><Header />]. *)
Definition header_test_tree : Element :=
  Provide MemoryRouter [Provide (ThemeContextProvider false) [El Header]].

(** ThemeToggleButton.test.tsx: the same tree around [<ThemeToggleButton />]. *)
Definition toggle_test_tree (darkMode : bool) : Element :=
  Provide MemoryRouter [Provide (ThemeContextProvider darkMode) [El ThemeToggleButton]].

(** [container.querySelector('svg[data-testid=...]')]: the icon, or [null]. *)
Definition querySelector_icon (shown wanted : Icon) : option Icon :=
  if decide (shown = wanted) then Some shown else None.

(** [expect(x).toBeDefined()]: [x !== undefined], which [null] is. *)
Definition toBeDefined {A} (x : option A) : bool := true.

(** ** The build configuration *)

(** src/vite.config.ts: the React plugin, the base path the application
    is served from, and the tests run with the test globals in a Chromium
    browser driven by Playwright (so [localStorage] is the browser's). *)
Record ViteConfig : Type := mkViteConfig {
  plugins : list string;
  base : string;
  test_globals : bool;
  browser_enabled : bool;
  browser_provider : string;
  browser_instances : list string
}.

Definition vite_config : ViteConfig :=
  mkViteConfig ["react"] "/" true true "playwright" ["chromium"].

(** ** The route invariant of the client *)

(** The path is never [/] once the client settled (the redirect replaces
    it), and the page is mounted exactly on a [/chat/:sessionId] path. *)
Definition RouteInv (S : Sys) : Prop :=
  String.eqb (path S) "/" = false /\ (page S = None <-> chat_param (path S) = None).

Lemma RouteInv_frame S S' : path S' = path S -> page S' = page S -> RouteInv S -> RouteInv S'.
Proof. unfold RouteInv. by intros -> ->. Qed.

Lemma go_route S p q S' :
  go S p q = Some S' -> path S' = p /\ (page S' = None <-> chat_param p = None).
Proof.
  unfold go. destruct (chat_param p) eqn:Hc.
  - intros Hg. repeat case_match; simplify_eq;
      try (apply dispatch_frame in Hg as [-> ->]); cbn; (split; [done | split; discriminate]).
  - intros [= <-]. done.
Qed.

Lemma navigate_route S p q now S' : navigate S p q now = Some S' -> RouteInv S'.
Proof.
  unfold navigate. destruct (match_route p now) as [to| |] eqn:Hm; intros H;
    apply go_route in H as [Hpath Hp]; unfold RouteInv; rewrite Hpath; clear Hpath;
    (split; [|exact Hp]); unfold match_route in Hm;
    destruct (String.eqb p "/"); try destruct (chat_param p); simplify_eq; first [done | reflexivity].
Qed.

Lemma sys_step_route S e S' : RouteInv S -> sys_step S e = Some S' -> RouteInv S'.
Proof.
  intros HR. destruct e; cbn [sys_step].
  - apply navigate_route.
  - intros Hs. apply go_route in Hs as [Hp Hq]. split; [by rewrite Hp; apply HR | by rewrite Hp].
  - case_match; [|done]. intros Hs. apply go_route in Hs as [Hp Hq].
    split; [by rewrite Hp; apply HR | by rewrite Hp].
  - case_match; [|done]. intros Hs. apply input_event_frame in Hs as [??]. by eapply RouteInv_frame.
  - intros Hs. apply resume_frame in Hs as [??]. by eapply RouteInv_frame.
  - case_match; [|done]. intros Hs. apply dispatch_frame in Hs as [??]. by eapply RouteInv_frame.
  - case_match; [|done]. destruct (toggle_commit _ _). intros [= <-]. done.
  - case_match; [|done]. intros [= <-]. done.
  - case_match; [|done]. intros [= <-]. done.
  - case_match; [|done]. destruct (confirmClearChatHistory _ _).
    destruct (dispatch S l) eqn:Ed; [|done]. intros [= <-].
    apply dispatch_frame in Ed as [??]. by eapply RouteInv_frame.
  - case_match; [|done]. intros [= <-]. done.
Qed.

Lemma route_reachable S : sys_reachable S -> RouteInv S.
Proof.
  intros (ls0 & _ & Hr). revert S Hr. apply rtc_ind_r.
  - unfold sys_init. destruct (Theme.mount ls0). done.
  - intros S1 S2 _ (e & _ & Hs) IH. exact (sys_step_route _ _ _ IH Hs).
Qed.

Lemma route_element_page S :
  RouteInv S -> route_element (path S) = match page S with Some _ => [ChatPage] | None => [] end.
Proof.
  intros [He Hp]. unfold route_element, match_route. rewrite He.
  destruct (chat_param (path S)), (page S); try done;
    first [discriminate (proj1 Hp eq_refl) | discriminate (proj2 Hp eq_refl)].
Qed.


(** ** Properties *)

(** The tests of Header.test.tsx: the header renders under the test's
    providers, shows the title, and its button navigates to
    [?settings=true]. *)
Lemma header_tests :
  render_el root_env header_test_tree = Ok [mkMounted Header false] /\
  header_title (Header_view false) = "Groq AI Chat" /\
  search_of (header_onClick (Header_view false)) = "?settings=true".
Proof. split_and!; reflexivity. Qed.

(** The application's entry URL, its base path, redirects to a new
    session named after the clock. *)
Lemma entry_url_redirects now :
  match_route (base vite_config) now = RedirectTo ("/chat/" +:+ Json.Z_to_string now) /\
  route_element (base vite_config) = [Navigate].
Proof. done. Qed.

(** The icon tests of ThemeToggleButton.test.tsx pass whatever icon the
    button shows: [querySelector] gives [null] for a missing icon and
    [null] is defined. *)
Lemma icon_tests_vacuous (shown : Icon) :
  toBeDefined (querySelector_icon shown LightModeIcon) = true /\
  toBeDefined (querySelector_icon shown DarkModeIcon) = true.
Proof. done. Qed.

(** What those tests mean: the button shows the icon of the other theme. *)
Lemma toggle_tests d :
  render_el root_env (toggle_test_tree d) = Ok [mkMounted ThemeToggleButton d] /\
  querySelector_icon (ThemeToggleButton_icon d) (if d then LightModeIcon else DarkModeIcon) <> None.
Proof. by destruct d. Qed.

(** The settings dialog of a reachable client shows the persisted theme
    and disables the clear button exactly when no session is active. *)
Lemma settings_view_consistent S model :
  sys_reachable S ->
  settings_switch_checked (SettingsModal_view model (dark S) (chat S) (ui S)) = loadTheme (ls S) /\
  settings_clear_disabled (SettingsModal_view model (dark S) (chat S) (ui S)) =
    bool_decide (active_session (chat S) = None).
Proof.
  intros HR. destruct (sys_reachable_inv S HR) as (_ & Ht & _). split; [done|].
  cbn [settings_clear_disabled SettingsModal_view]. unfold clear_button_disabled.
  rewrite has_session_active. by destruct (active_session _).
Qed.

(** C32: a component that calls [useChat] throws
    'useChat must be used within a ChatProvider' when rendered under a
    router but outside a [ChatProvider], as the [Chat] page and the
    [SettingsModal] are; the [Header], the [ThemeToggleButton], the input
    and [Navigate] render there, which is what the tests rely on. *)
Theorem useChat_outside_provider_throws env :
  env_router env <> None -> env_chat env = None ->
  render_comp tree_depth env ChatPage = Err USECHAT_ERROR /\
  render_comp tree_depth env SettingsModal = Err USECHAT_ERROR /\
  forall c, c <> App -> c <> ChatPage -> c <> SettingsModal ->
    render_comp tree_depth env c = Ok [mkMounted c (useThemeContext env)].
Proof.
  destruct env as [t ch [loc|]]; cbn; intros Hr Hc; [|done]. subst ch.
  split_and!; [done | done |]. by intros [] ???.
Qed.

(** In every state the client reaches, the tree of main.tsx renders
    without throwing: [App], the [Header], the [Chat] page and its input
    exactly while a page is mounted, and the [SettingsModal] exactly while
    the query string asks for it, each reading the theme flag of the
    [ThemeProviderWrapper]; in particular no [useChat] and no router hook
    throws. *)
Theorem app_renders_without_throwing S :
  sys_reachable S ->
  render_root S =
    Ok (map (fun c => mkMounted c (dark S))
          ([App; Header] ++ match page S with Some _ => [ChatPage; ChatInputBox] | None => [] end ++
           (if settings_shown S then [SettingsModal] else []))).
Proof.
  intros HR. pose proof (route_element_page S (route_reachable S HR)) as He.
  unfold render_root, main_tree, settings_shown. cbn -[route_element settings_visible search_of].
  rewrite He. destruct (page S), (settings_visible _); reflexivity.
Qed.

Lemma app_renders_without_throwing_witness :
  render_root streaming_state =
    Ok [mkMounted App false; mkMounted Header false; mkMounted ChatPage false;
        mkMounted ChatInputBox false].
Proof. exact (app_renders_without_throwing streaming_state streaming_state_reachable). Defined.

Lemma useChat_outside_provider_throws_witness :
  let env := provide (ThemeContextProvider false) (provide MemoryRouter root_env) in
  render_comp tree_depth env ChatPage = Err USECHAT_ERROR /\
  render_comp tree_depth env SettingsModal = Err USECHAT_ERROR /\
  forall c, c <> App -> c <> ChatPage -> c <> SettingsModal ->
    render_comp tree_depth env c = Ok [mkMounted c (useThemeContext env)].
Proof.
  intros env. apply (useChat_outside_provider_throws (provide (ThemeContextProvider false) (provide MemoryRouter root_env)));
    [discriminate | reflexivity].
Defined.

End Tree.
